(* ===== verification/_CoqProject ===== *)
-Q . S2P
Prelude.v
PyText.v
Money.v
PyDecimal.v
Binary64.v
FloatExact.v
FloatRound.v
FloatSigned.v
Discounts.v
After5.v
Cli.v
Session.v
Tests.v
