(* ===== verification/Prelude.v ===== *)
(** * hm_discounts: a verification development

    The program ([src/hm_discounts.py]) is a terminal calculator for two
    shop discounts.  [after13p] takes 13% off an amount with Python's
    [decimal] module; [after5] takes $5 off every whole $30 with binary
    floats; both hand their result to [decimal_to_currency_str], which
    quantizes to cents with [ROUND_HALF_UP] and prints it.  The terse
    wrappers prefix a label; [calculator_loop] reads amounts until the
    line ["q"] and prints the two answers; [__main__] prints a preamble
    and runs the loop.  [src/test_hm_discounts.py] holds the unit tests.

    ** Files, in dependency order

    - [Prelude]: Python exceptions as values ([exn]), the [result] error
      monad with its notation [x <- m ;; k] in [py_scope], the hint
      databases [hm] and [hm_rw], and lemmas on powers of ten.
    - [PyText]: ASCII characters, [str.strip()], [int(digits)],
      [str(int)] ([to_digits], with fuel the bit length of the number,
      which is more than its decimal length) and the grammar of a decimal
      literal shared by [Decimal(str)] and [float(str)].
    - [Money]: the spec's contract in exact integers: rounding half away
      from zero ([rounds_half_away], [round_half_away]), an amount in
      cents ([round_cents]), the currency text, and the two discount
      formulas of the spec on exact values.
    - [PyDecimal]: the parts of CPython's [_pydecimal] the program calls
      (constructor from a string, [__mul__], [quantize], [_rescale],
      [_fix], [__str__]) with the default context: precision 28,
      [ROUND_HALF_EVEN], Emin -999999, Emax 999999, traps on
      InvalidOperation, DivisionByZero and Overflow.
    - [Binary64]: Python floats as the Standard Library's [spec_float]
      (binary64, round to nearest even), [float(str)], float floor
      division as CPython's [float_floor_div], and [Decimal(float)].
      [float(str)] short-cuts exponents beyond 10^400 to infinity and
      below 10^-400 to zero, where the correctly rounded result is
      already infinite or zero, so that every input evaluates quickly.
    - [FloatExact]: the value [n * 2^k] of a float ([f64_val]) and the
      lemmas that [spec_float]'s rounding, subtraction, multiplication,
      division, [fmod], [floor], floor division and [Decimal(float)] are
      exact on values of at most 53 bits.
    - [FloatRound]: the inexact case of [float(str)] on an amount typed
      with one or two decimals: [binary_round_aux] keeps the truncated
      53-bit mantissa or adds one to it, so the float of [A / 10^j] is an
      integer [N] at a scale [2^k] finer than [1/200] with [N] the
      truncation of [A * 2^(-k) / 10^j] or one more
      ([f64_of_decimal_near], [f64_of_decimal_below]).
    - [FloatSigned]: the same for floats below zero: [fmod] is [Z.rem],
      and float floor division rounds toward minus infinity exactly,
      through its [div -= 1] branch for a negative dividend.
    - [Discounts]: [after13p], [after5], their wrappers and
      [decimal_to_currency_str], as the source composes them.
    - [After5]: [after5] against the spec's formula, through [FloatExact],
      [FloatRound] and [FloatSigned].
    - [Cli]: the terminal loop as an io monad over a world of standard
      input lines and output chunks; [while True] is [run_loop] with
      fuel, and [loop_fuel] (one more than the number of input lines) is
      enough because every iteration reads a line or stops.  The
      loop's theorems assume of a calculator only the interface
      [Calculator] (it never raises [SystemExit]); the wrappers are its
      instances.
    - [Session]: the composition of [Cli] with the two calculators: a
      whole session of amounts typed with two decimals, proved for any
      two instances of the interface [CentsCalculator] (what a
      calculator answers on an amount in cents), of which the wrappers
      are instances.
    - [Tests]: the unit test methods as boolean conjunctions of their
      [assertEqual] calls.

    ** What the theorems show

    - [Session]: the end-to-end refinement of the spec's terminal
      interface: a session that types amounts [d.dd] (below 10^13) and
      then ["q"] prints the preamble, then for every amount the prompt
      and the spec's two answers behind their labels, and exits with 0.
    - [Discounts]: [after13p] refines the spec's exact formula (rounding
      of [a * 0.87] half away from zero to cents) whenever the product
      fits the context's 28 digits, and on every amount typed with two
      decimals whose product fits 28 digits it gives exactly the spec's
      answer, within half a cent of [0.87 * r] and never above the
      amount; when the product has more than 28 digits it rounds it
      half-even to 28 digits before rounding to cents
      ([after13p_rounds_product_first]); for any exponent it raises
      [decimal.Overflow] exactly when the product's adjusted exponent is
      above [Emax] ([after13p_overflow]).  [decimal_to_currency_str]
      answers exactly the currency text of the half-away rounding of its
      argument, always in the currency shape.  The exceptions [after13p]
      and [after5] raise are characterized, and [after13p]'s answers on
      non-finite input.  Single evaluations, checked against CPython,
      exhibit the findings: binary rounding and the increment count near
      multiples of 30 in [after5], the special inputs ["-0"], ["nan"],
      ["inf"], the parsers' treatment of underscores, and a unit test
      that cannot tell the rounding modes apart.
    - [After5]: for every amount whose float is non-negative and below
      2^53, [after5] computes the spec's formula exactly on the value of
      that float; on whole amounts below 2^53, and on every amount typed
      with two decimals below 10^13 ([A] cents, [A < 10^15]) or with one
      decimal ([A] tenths, [A < 10^14]), it agrees
      with the spec's formula on the decimal amount: the float is off by
      less than one unit of a scale finer than [1/200], which changes
      neither the count of whole 30s nor the cents.  The bound [10^15]
      keeps the float's scale below [1/200] (the amount stays under 2^44 dollars); the proofs
      use no fuel.  On negative whole amounts [after5] answers the
      formula with the floor toward minus infinity of Python's [//], and
      on every text [float()] reads as an infinity or a NaN it answers
      ["NaN"] ([after5_nonfinite]).
    - [FloatSigned]: float floor division on integer-valued floats is
      Python's integer floor division.
    - [PyDecimal]: every result of [__mul__] and [quantize] in the
      default context fits the context ([in_context]); [Decimal(str(d))]
      is [d] again for every well-formed decimal, whichever layout
      [__str__] chose ([dec_str_roundtrip]).
    - [Cli]: the loop terminates within [loop_fuel] iterations, the
      process exits with status 0 exactly when ["q"] follows lines that both calculators answer, and
      the whole output of such a session is given line by line.
    - [Tests]: every test of the repository passes on the model (an
      evaluation on the tests' inputs, not a property).

    ** Not modelled

    Non-ASCII digits and whitespace, which [Decimal()] and [float()]
    accept; the flags of the decimal context that are not trapped
    (they are set but never read); contexts other than the default; the
    C implementation [_decimal]'s limit on exponents (it rejects a
    literal whose exponent is of the order of 10^18 or more, which the
    model, following [_pydecimal], parses); the traceback an uncaught
    exception prints on standard error (only the exit status is kept).  Amounts whose float is 2^53 or more, where the
    float operations of [after5] round, negative amounts with decimals,
    where the subtraction of [after5] rounds, and amounts with three
    decimals or more, where [float()] may move the amount across a multiple of
    30 or a half cent, are covered by concrete theorems only. *)

From Stdlib Require Import ZArith List Lia.
Import ListNotations.

(** ** Python exceptions as values

    The program never catches an exception: every error raised by
    [decimal], [float()] or [input()] propagates to the top level and
    ends the process.  Each fallible operation of the model therefore
    returns a [result], and [exn] names the exception class Python
    would raise. *)

Inductive exn : Type :=
| InvalidOperation   (** [decimal.InvalidOperation], also raised for
                         [decimal.ConversionSyntax] *)
| DecimalOverflow    (** [decimal.Overflow], trapped in the default context *)
| ValueError         (** [float()] on a string that is not a float literal *)
| ZeroDivisionError  (** float floor division by zero *)
| EOFError           (** [input()] at the end of standard input *)
| SystemExit.        (** [sys.exit()]: ends the process with status 0 *)

Inductive result (A : Type) : Type :=
| Ok (a : A)
| Err (e : exn).
Arguments Ok {A} a.
Arguments Err {A} e.

Definition bind {A B : Type} (m : result A) (k : A -> result B) : result B :=
  match m with
  | Ok a => k a
  | Err e => Err e
  end.

Definition fmap {A B : Type} (f : A -> B) (m : result A) : result B :=
  bind m (fun a => Ok (f a)).

Declare Scope py_scope.
Delimit Scope py_scope with py.
Notation "x <- m ;; k" := (bind m (fun x => k))
  (at level 61, m at next level, right associativity) : py_scope.
Notation "'raise' e" := (Err e) (at level 10) : py_scope.

Definition exn_eq_dec (x y : exn) : {x = y} + {x <> y}.
Proof. decide equality. Defined.

(** ** Shared lemmas on results *)

Create HintDb hm discriminated.

Lemma bind_ok {A B : Type} (a : A) (k : A -> result B) :
  bind (Ok a) k = k a.
Proof. reflexivity. Qed.

Lemma bind_err {A B : Type} (e : exn) (k : A -> result B) :
  bind (Err e) k = Err e.
Proof. reflexivity. Qed.

Lemma bind_inv_ok {A B : Type} (m : result A) (k : A -> result B) (b : B) :
  bind m k = Ok b -> exists a, m = Ok a /\ k a = Ok b.
Proof. destruct m; simpl; [eauto | discriminate]. Qed.

Lemma bind_inv_err {A B : Type} (m : result A) (k : A -> result B) (e : exn) :
  bind m k = Err e -> m = Err e \/ exists a, m = Ok a /\ k a = Err e.
Proof. destruct m; simpl; [eauto | intros [= ->]; auto]. Qed.

Create Rewrite HintDb hm_rw.
#[export] Hint Rewrite @bind_ok @bind_err : hm_rw.

(** Case analysis on the first failing call of a [bind] chain. *)
Ltac destruct_bind H :=
  match type of H with
  | bind ?m _ = Ok _ =>
      let a := fresh "a" in let Ha := fresh "Hm" in
      apply bind_inv_ok in H; destruct H as [a [Ha H]]
  end.

(** ** Powers of ten *)

Local Open Scope Z_scope.

Lemma pow10_pos (k : Z) : 0 <= k -> 0 < 10 ^ k.
Proof. intros; apply Z.pow_pos_nonneg; lia. Qed.

Lemma pow10_add (a b : Z) : 0 <= a -> 0 <= b -> 10 ^ (a + b) = 10 ^ a * 10 ^ b.
Proof. intros; now apply Z.pow_add_r. Qed.

Lemma pow10_succ (k : Z) : 0 <= k -> 10 ^ (k + 1) = 10 * 10 ^ k.
Proof. intros; rewrite Z.pow_add_r, Z.pow_1_r by lia; lia. Qed.

Lemma pow10_mono (a b : Z) : 0 <= a <= b -> 10 ^ a <= 10 ^ b.
Proof. intros; apply Z.pow_le_mono_r; lia. Qed.

#[export] Hint Resolve pow10_pos pow10_mono : hm.

(** Division by a positive power of ten, as Python's digit-string
    slicing computes it. *)
Lemma div_mod_pow10 (c k : Z) :
  0 <= k -> c = 10 ^ k * (c / 10 ^ k) + c mod 10 ^ k /\ 0 <= c mod 10 ^ k < 10 ^ k.
Proof.
  intros Hk. pose proof (pow10_pos k Hk).
  split; [apply Z.div_mod; lia | apply Z.mod_pos_bound; lia].
Qed.
