(* ===== verification/PyText.v ===== *)
(** * Python text primitives used by the two numeric constructors

    Characters are modelled as [ascii] and Python [str] values as
    [list ascii] (inputs arrive as [string] and are converted with
    [list_ascii_of_string]).  This file holds what [decimal.Decimal(str)]
    and [float(str)] share: Python's notion of whitespace and
    [str.strip()], decimal digit strings with [int(digits)] and
    [str(int)], and the grammar of a decimal numeric literal
    [sign? (digits ('.' digits?)? | '.' digits) (('e'|'E') sign? digits)?]. *)

From Stdlib Require Import ZArith List String Ascii Bool Lia.
From S2P Require Import Prelude.
Import ListNotations.
Local Open Scope Z_scope.
Local Open Scope bool_scope.

(** ** Characters *)

Definition code (c : ascii) : Z := Z.of_nat (nat_of_ascii c).

Definition is_digit (c : ascii) : bool := (48 <=? code c) && (code c <=? 57).

Definition digit_val (c : ascii) : Z := code c - 48.

Definition digit_char (d : Z) : ascii := ascii_of_nat (Z.to_nat (48 + d)).

(** [str.isspace()] on the ASCII range: \t \n \v \f \r, the four
    separators \x1c-\x1f, and the space. *)
Definition is_py_space (c : ascii) : bool :=
  let n := code c in ((9 <=? n) && (n <=? 13)) || ((28 <=? n) && (n <=? 32)).

Definition lower (c : ascii) : ascii :=
  let n := code c in
  if (65 <=? n) && (n <=? 90) then ascii_of_nat (Z.to_nat (n + 32)) else c.

Definition char_eqb (a b : ascii) : bool := Ascii.eqb a b.

(** ** [str.strip()] and [str.replace("_", "")] *)

Fixpoint drop_while (p : ascii -> bool) (l : list ascii) : list ascii :=
  match l with
  | [] => []
  | c :: r => if p c then drop_while p r else l
  end.

Definition py_strip (l : list ascii) : list ascii :=
  rev (drop_while is_py_space (rev (drop_while is_py_space l))).

Definition remove_underscores (l : list ascii) : list ascii :=
  filter (fun c => negb (char_eqb c "_")) l.

(** A character that [strip()] and the underscore removal both keep. *)
Definition plain_char (c : ascii) : bool := negb (is_py_space c) && negb (char_eqb c "_").

(** Case-insensitive removal of a lower-case keyword prefix. *)
Fixpoint strip_prefix_ci (w l : list ascii) : option (list ascii) :=
  match w, l with
  | [], _ => Some l
  | a :: w', c :: l' => if char_eqb (lower c) a then strip_prefix_ci w' l' else None
  | _ :: _, [] => None
  end.

Definition is_keyword_ci (w l : list ascii) : bool :=
  match strip_prefix_ci w l with Some [] => true | _ => false end.

(** ** Digit strings *)

Fixpoint span_digits (l : list ascii) : list ascii * list ascii :=
  match l with
  | c :: r => if is_digit c then let (ds, rest) := span_digits r in (c :: ds, rest) else ([], l)
  | [] => ([], [])
  end.

(** [int(digits)] *)
Definition digits_value (l : list ascii) : Z :=
  fold_left (fun acc c => 10 * acc + digit_val c) l 0.

(** [str(n)] for a non-negative integer, least significant digit first.
    Each step divides by ten; [fuel] counts the steps left. *)
Fixpoint digits_rev (fuel : nat) (n : Z) : list ascii :=
  match fuel with
  | O => []
  | S f => if n <? 10 then [digit_char n] else digit_char (n mod 10) :: digits_rev f (n / 10)
  end.

(** [str(n)]: no leading zero, ["0"] for 0.  The bit length of [n]
    bounds its decimal length, so it is enough fuel. *)
Definition to_digits (n : Z) : list ascii := rev (digits_rev (S (Z.to_nat (Z.log2 n))) n).

(** [len(str(n))] *)
Definition ndigits (n : Z) : Z := Z.of_nat (List.length (to_digits n)).

(** ** Numeric literals *)

Record numeral : Type := mk_numeral {
  num_int : list ascii;   (** digits before the point, possibly none *)
  num_frac : list ascii;  (** digits after the point, possibly none *)
  num_exp : Z             (** the value of the exponent field, 0 if absent *)
}.

Definition take_sign (l : list ascii) : bool * list ascii :=
  match l with
  | c :: r =>
      if char_eqb c "-" then (true, r)
      else if char_eqb c "+" then (false, r) else (false, l)
  | [] => (false, [])
  end.

(** [[-+]?\d+] up to the end of the string. *)
Definition parse_exponent (l : list ascii) : option Z :=
  let (neg, r) := take_sign l in
  match span_digits r with
  | ((_ :: _) as ds, []) => Some (if neg then - digits_value ds else digits_value ds)
  | _ => None
  end.

(** The optional fractional part of the regex: a point and the digits after it. *)
Definition parse_frac (r1 : list ascii) : list ascii * list ascii :=
  match r1 with
  | c :: r => if char_eqb c "." then span_digits r else ([], r1)
  | [] => ([], [])
  end.

(** The optional exponent part, [E] then [-+]? and digits, up to the end
    of the string; 0 when absent. *)
Definition parse_exp_part (r2 : list ascii) : option Z :=
  match r2 with
  | [] => Some 0
  | c :: r => if char_eqb (lower c) "e" then parse_exponent r else None
  end.

(** The unsigned part of a literal, matched against the whole string;
    the regex's lookahead asks for at least one digit. *)
Definition parse_numeral (l : list ascii) : option numeral :=
  let (ip, r1) := span_digits l in
  let (fp, r2) := parse_frac r1 in
  match ip, fp with
  | [], [] => None
  | _, _ =>
      match parse_exp_part r2 with
      | Some e => Some (mk_numeral ip fp e)
      | None => None
      end
  end.

(** The integer coefficient and the exponent of the literal's value,
    [int(int_part + frac_part)] and [exp - len(frac_part)]. *)
Definition numeral_coeff (n : numeral) : Z := digits_value (num_int n ++ num_frac n).
Definition numeral_exp (n : numeral) : Z := num_exp n - Z.of_nat (List.length (num_frac n)).

(** ** Lemmas on digit strings *)

Lemma digit_char_spec (d : Z) :
  0 <= d < 10 -> is_digit (digit_char d) = true /\ digit_val (digit_char d) = d.
Proof.
  intros Hd.
  assert (d = 0 \/ d = 1 \/ d = 2 \/ d = 3 \/ d = 4 \/ d = 5 \/ d = 6 \/ d = 7 \/ d = 8 \/ d = 9)
    as Hc by lia.
  repeat destruct Hc as [-> | Hc]; subst; split; reflexivity.
Qed.

Lemma fold_digits_acc (l : list ascii) (acc : Z) :
  fold_left (fun a c => 10 * a + digit_val c) l acc
  = acc * 10 ^ Z.of_nat (List.length l) + digits_value l.
Proof.
  revert acc. induction l as [|c l IH]; intros acc.
  - unfold digits_value; simpl. lia.
  - cbn [fold_left]. rewrite IH. unfold digits_value. cbn [fold_left].
    fold (digits_value l). rewrite (IH (10 * 0 + digit_val c)).
    cbn [List.length]. rewrite Nat2Z.inj_succ, Z.pow_succ_r by lia. lia.
Qed.

Lemma digits_value_app (a b : list ascii) :
  digits_value (a ++ b) = digits_value a * 10 ^ Z.of_nat (List.length b) + digits_value b.
Proof. unfold digits_value at 1. rewrite fold_left_app. apply fold_digits_acc. Qed.

Lemma digits_value_bound (l : list ascii) :
  forallb is_digit l = true -> 0 <= digits_value l < 10 ^ Z.of_nat (List.length l).
Proof.
  induction l as [|c l IH] using rev_ind; intros Hl.
  - unfold digits_value; simpl. lia.
  - rewrite forallb_app in Hl. apply andb_prop in Hl as [Hl Hc]. simpl in Hc.
    rewrite andb_true_r in Hc.
    rewrite digits_value_app, length_app, Nat2Z.inj_add. simpl List.length.
    rewrite Z.pow_add_r by lia. specialize (IH Hl).
    replace (digits_value [c]) with (digit_val c) by (unfold digits_value; simpl; lia).
    change (10 ^ Z.of_nat 1) with 10.
    unfold is_digit, digit_val in *. apply andb_prop in Hc as [H1 H2].
    apply Z.leb_le in H1; apply Z.leb_le in H2. lia.
Qed.

Lemma digits_rev_spec (fuel : nat) (n : Z) :
  (1 <= fuel)%nat -> 0 <= n < 10 ^ Z.of_nat fuel ->
  let l := digits_rev fuel n in
  l <> [] /\ forallb is_digit l = true /\ digits_value (rev l) = n /\
  (1 <= n -> 10 ^ (Z.of_nat (List.length l) - 1) <= n).
Proof.
  revert n. induction fuel as [|f IH]; intros n Hfuel Hn; cbn [digits_rev].
  - lia.
  - destruct (Z.ltb_spec n 10) as [Hlt | Hge].
    + destruct (digit_char_spec n ltac:(lia)) as [Hd Hv].
      simpl. rewrite Hd. unfold digits_value; simpl. rewrite Hv. repeat split; try lia; discriminate.
    + assert (Hq : 0 <= n / 10 < 10 ^ Z.of_nat f).
      { rewrite Nat2Z.inj_succ, Z.pow_succ_r in Hn by lia.
        split; [apply Z.div_pos; lia | apply Z.div_lt_upper_bound; lia]. }
      assert (Hf : (1 <= f)%nat).
      { destruct f; [simpl in Hn; lia | lia]. }
      destruct (IH (n / 10) Hf Hq) as (Hne & Hall & Hval & Hlow).
      destruct (digit_char_spec (n mod 10) ltac:(pose proof (Z.mod_pos_bound n 10); lia)) as [Hd Hv].
      cbn [forallb]. rewrite Hd, Hall. repeat split; [discriminate | ..].
      * cbn [rev]. rewrite digits_value_app, Hval.
        replace (digits_value [digit_char (n mod 10)]) with (n mod 10)
          by (unfold digits_value; simpl; lia).
        change (10 ^ Z.of_nat (List.length [digit_char (n mod 10)])) with 10.
        pose proof (Z.div_mod n 10). lia.
      * intros _. cbn [List.length]. rewrite Nat2Z.inj_succ.
        destruct (digits_rev f (n / 10)) as [|x l] eqn:E; [congruence|].
        specialize (Hlow ltac:(apply Z.div_le_lower_bound; lia)).
        replace (Z.succ (Z.of_nat (List.length (x :: l))) - 1)
          with ((Z.of_nat (List.length (x :: l)) - 1) + 1) by lia.
        rewrite Z.pow_add_r, Z.pow_1_r by (cbn [List.length]; lia).
        pose proof (Z.mul_div_le n 10). lia.
Qed.

Lemma to_digits_spec (n : Z) :
  0 <= n ->
  to_digits n <> [] /\ forallb is_digit (to_digits n) = true /\ digits_value (to_digits n) = n /\
  (1 <= n -> 10 ^ (ndigits n - 1) <= n).
Proof.
  intros Hn. unfold ndigits, to_digits.
  assert (Hf : 0 <= n < 10 ^ Z.of_nat (S (Z.to_nat (Z.log2 n)))).
  { split; [lia|]. rewrite Nat2Z.inj_succ, Z2Nat.id by apply Z.log2_nonneg.
    destruct (Z.eq_dec n 0) as [->|Hn0]; [reflexivity|].
    destruct (Z.log2_spec n ltac:(lia)) as [_ Hup].
    eapply Z.lt_le_trans; [exact Hup|].
    apply Z.pow_le_mono_l. split; [lia|lia]. }
  destruct (digits_rev_spec (S (Z.to_nat (Z.log2 n))) n ltac:(lia) Hf) as (Hne & Hall & Hval & Hlow).
  rewrite length_rev.
  repeat split; auto.
  - intros E. apply Hne. apply (f_equal (@rev ascii)) in E.
    rewrite rev_involutive in E. exact E.
  - rewrite forallb_forall in *. intros x Hx. apply Hall. now apply in_rev.
Qed.

Lemma digits_value_to_digits (n : Z) : 0 <= n -> digits_value (to_digits n) = n.
Proof. intros Hn. apply (to_digits_spec n Hn). Qed.

Lemma to_digits_all_digits (n : Z) : 0 <= n -> forallb is_digit (to_digits n) = true.
Proof. intros Hn. apply (to_digits_spec n Hn). Qed.

Lemma ndigits_pos (n : Z) : 0 <= n -> 1 <= ndigits n.
Proof.
  intros Hn. unfold ndigits. destruct (to_digits_spec n Hn) as [Hne _].
  destruct (to_digits n); [congruence | simpl; lia].
Qed.

(** [len(str(n))] brackets [n] between consecutive powers of ten. *)
Lemma ndigits_bounds (n : Z) :
  0 <= n -> n < 10 ^ ndigits n /\ (1 <= n -> 10 ^ (ndigits n - 1) <= n).
Proof.
  intros Hn. destruct (to_digits_spec n Hn) as (_ & Hall & Hval & Hlow).
  split; [|exact Hlow].
  pose proof (digits_value_bound _ Hall) as Hb. rewrite Hval in Hb. unfold ndigits. lia.
Qed.

#[export] Hint Resolve ndigits_pos digits_value_to_digits to_digits_all_digits : hm.

(** ** [str(n)] digit by digit *)

Lemma digits_rev_fuel_irrel (f1 f2 : nat) (n : Z) :
  (1 <= f1)%nat -> (1 <= f2)%nat -> 0 <= n < 10 ^ Z.of_nat f1 -> 0 <= n < 10 ^ Z.of_nat f2 ->
  digits_rev f1 n = digits_rev f2 n.
Proof.
  revert f2 n. induction f1 as [|f1 IH]; intros f2 n H1 H2 Hn1 Hn2; [lia|].
  destruct f2 as [|f2]; [lia|]. cbn [digits_rev].
  destruct (Z.ltb_spec n 10); [reflexivity|]. f_equal.
  rewrite Nat2Z.inj_succ, Z.pow_succ_r in Hn1, Hn2 by lia.
  destruct f1 as [|f1]; [simpl in Hn1; lia|]. destruct f2 as [|f2]; [simpl in Hn2; lia|].
  apply IH; try lia;
    (split; [apply Z.div_pos; lia | apply Z.div_lt_upper_bound; lia]).
Qed.

Lemma to_digits_fuel (n : Z) :
  0 <= n -> 0 <= n < 10 ^ Z.of_nat (S (Z.to_nat (Z.log2 n))).
Proof.
  intros Hn. split; [lia|]. rewrite Nat2Z.inj_succ, Z2Nat.id by apply Z.log2_nonneg.
  destruct (Z.eq_dec n 0) as [->|Hn0]; [reflexivity|].
  destruct (Z.log2_spec n ltac:(lia)) as [_ Hup].
  eapply Z.lt_le_trans; [exact Hup|]. apply Z.pow_le_mono_l. lia.
Qed.

Lemma to_digits_small (n : Z) : 0 <= n < 10 -> to_digits n = [digit_char n].
Proof.
  intros Hn. unfold to_digits. cbn [digits_rev].
  destruct (Z.ltb_spec n 10); [reflexivity | lia].
Qed.

Lemma to_digits_snoc (n : Z) :
  10 <= n -> to_digits n = to_digits (n / 10) ++ [digit_char (n mod 10)].
Proof.
  intros Hn. unfold to_digits at 1. cbn [digits_rev].
  destruct (Z.ltb_spec n 10) as [|_]; [lia|]. cbn [rev]. f_equal. unfold to_digits. f_equal.
  assert (Hq : 0 <= n / 10) by (apply Z.div_pos; lia).
  pose proof (to_digits_fuel n ltac:(lia)) as Hf. pose proof (to_digits_fuel (n / 10) Hq) as Hfq.
  destruct (Z.to_nat (Z.log2 n)) as [|f] eqn:E.
  - simpl in Hf. lia.
  - apply digits_rev_fuel_irrel; try lia; auto.
    rewrite Nat2Z.inj_succ, Z.pow_succ_r in Hf by lia.
    split; [lia | apply Z.div_lt_upper_bound; lia].
Qed.

Lemma ndigits_le (n k : Z) : 0 <= n < 10 ^ k -> 1 <= k -> ndigits n <= k.
Proof.
  intros Hn Hk. destruct (Z.eq_dec n 0) as [->|Hn0].
  - unfold ndigits. rewrite to_digits_small by lia. simpl. lia.
  - destruct (ndigits_bounds n ltac:(lia)) as [_ Hlow]. specialize (Hlow ltac:(lia)).
    destruct (Z.le_gt_cases (ndigits n) k) as [|Hgt]; [assumption|].
    assert (10 ^ k <= 10 ^ (ndigits n - 1)) by (apply Z.pow_le_mono_r; lia). lia.
Qed.

(** ** Scanning *)

Lemma span_digits_app (ds rest : list ascii) :
  forallb is_digit ds = true ->
  match rest with c :: _ => is_digit c = false | [] => True end ->
  span_digits (ds ++ rest) = (ds, rest).
Proof.
  intros Hds Hrest. induction ds as [|d ds IH]; simpl in *.
  - destruct rest as [|c r]; [reflexivity|]. simpl. now rewrite Hrest.
  - apply andb_prop in Hds as [Hd Hds]. rewrite Hd, (IH Hds). reflexivity.
Qed.

Lemma drop_while_head (p : ascii -> bool) (c : ascii) (l : list ascii) :
  p c = false -> drop_while p (c :: l) = c :: l.
Proof. intros H. simpl. now rewrite H. Qed.

(** [str.strip()] leaves a string alone whose first and last characters
    are not whitespace. *)
Lemma py_strip_id (c : ascii) (l : list ascii) (z : ascii) :
  is_py_space c = false -> is_py_space z = false ->
  py_strip (c :: l ++ [z]) = c :: l ++ [z].
Proof.
  intros Hc Hz. unfold py_strip. rewrite drop_while_head by assumption.
  replace (rev (c :: l ++ [z])) with (z :: rev (c :: l))
    by (rewrite app_comm_cons, rev_app_distr; reflexivity).
  rewrite drop_while_head by assumption.
  change (rev (z :: rev (c :: l))) with (rev (rev (c :: l)) ++ [z]).
  rewrite rev_involutive. reflexivity.
Qed.

Lemma py_strip_single (c : ascii) : is_py_space c = false -> py_strip [c] = [c].
Proof. intros Hc. unfold py_strip. simpl. rewrite Hc. simpl. now rewrite Hc. Qed.

Lemma remove_underscores_id (l : list ascii) :
  forallb (fun c => negb (char_eqb c "_")) l = true -> remove_underscores l = l.
Proof.
  unfold remove_underscores. induction l as [|c l IH]; simpl; [reflexivity|].
  intros H. apply andb_prop in H as [Hc Hl]. rewrite Hc, IH; auto.
Qed.

Lemma ndigits_zero : ndigits 0 = 1.
Proof. reflexivity. Qed.

Lemma digit_not_space (c : ascii) : is_digit c = true -> is_py_space c = false.
Proof.
  unfold is_digit, is_py_space. intros H. apply andb_prop in H as [H1 H2].
  apply Z.leb_le in H1. apply Z.leb_le in H2.
  repeat match goal with |- context [?a <=? ?b] => destruct (Z.leb_spec a b) end; simpl; lia.
Qed.

Lemma digit_not_underscore (c : ascii) : is_digit c = true -> char_eqb c "_" = false.
Proof.
  intros H. destruct (char_eqb c "_") eqn:E; [|reflexivity].
  apply Ascii.eqb_eq in E. subst. discriminate.
Qed.

Lemma span_digits_digits (l : list ascii) : forallb is_digit (fst (span_digits l)) = true.
Proof.
  induction l as [|c l IH]; [reflexivity|]. simpl.
  destruct (is_digit c) eqn:E; [|reflexivity].
  destruct (span_digits l) as [ds rest]. simpl in *. now rewrite E, IH.
Qed.

Lemma digits_value_nonneg (l : list ascii) : forallb is_digit l = true -> 0 <= digits_value l.
Proof. intros H. apply (digits_value_bound l H). Qed.

(** [str.strip()] keeps a string that starts and ends with a character
    that is not whitespace. *)
Lemma py_strip_keep (c : ascii) (l : list ascii) :
  is_py_space c = false -> is_py_space (last (c :: l) c) = false -> py_strip (c :: l) = c :: l.
Proof.
  intros Hc Hz. destruct l as [|d l] using rev_ind.
  - now apply py_strip_single.
  - rewrite app_comm_cons, last_last in Hz. rewrite app_comm_cons. now apply py_strip_id.
Qed.

Lemma forallb_impl (p q : ascii -> bool) (l : list ascii) :
  (forall c, p c = true -> q c = true) -> forallb p l = true -> forallb q l = true.
Proof. intros Hpq Hl. apply forallb_forall. intros c Hc. apply Hpq. exact (proj1 (forallb_forall _ _) Hl c Hc). Qed.

Lemma drop_while_none (p : ascii -> bool) (l : list ascii) :
  forallb (fun c => negb (p c)) l = true -> drop_while p l = l.
Proof.
  destruct l as [|c l]; [reflexivity|]. cbn [forallb drop_while]. intros H.
  apply andb_prop in H as [H _]. apply negb_true_iff in H. now rewrite H.
Qed.

(** [strip()] and the removal of underscores keep a text of plain
    characters. *)
Lemma py_strip_plain (l : list ascii) : forallb plain_char l = true -> py_strip l = l.
Proof.
  intros H. assert (Hs : forall l', incl l' l -> forallb (fun c => negb (is_py_space c)) l' = true).
  { intros l' Hl'. apply forallb_forall. intros c Hc. apply Hl' in Hc.
    pose proof (proj1 (forallb_forall _ _) H c Hc) as Hp. unfold plain_char in Hp.
    now apply andb_prop in Hp as []. }
  unfold py_strip. rewrite (drop_while_none _ l) by (apply Hs, incl_refl).
  rewrite (drop_while_none _ (rev l)) by (apply Hs; intros c; apply in_rev).
  apply rev_involutive.
Qed.

Lemma remove_underscores_plain (l : list ascii) : forallb plain_char l = true -> remove_underscores l = l.
Proof.
  intros H. apply remove_underscores_id. revert H. apply forallb_impl.
  intros c Hc. unfold plain_char in Hc. now apply andb_prop in Hc as [].
Qed.

Lemma digits_plain (l : list ascii) : forallb is_digit l = true -> forallb plain_char l = true.
Proof.
  apply forallb_impl. intros c Hc. unfold plain_char.
  now rewrite digit_not_space, digit_not_underscore.
Qed.

Lemma parse_numeral_inv (l : list ascii) (n : numeral) :
  parse_numeral l = Some n ->
  exists r1 r2, span_digits l = (num_int n, r1) /\ parse_frac r1 = (num_frac n, r2) /\
           parse_exp_part r2 = Some (num_exp n).
Proof.
  unfold parse_numeral. destruct (span_digits l) as [ip r1]. destruct (parse_frac r1) as [fp r2] eqn:E.
  intros H. exists r1, r2.
  destruct ip, fp; try discriminate;
    destruct (parse_exp_part r2) eqn:Ee; try discriminate; injection H as <-; auto.
Qed.

Lemma parse_numeral_digits (l : list ascii) (n : numeral) :
  parse_numeral l = Some n -> forallb is_digit (num_int n ++ num_frac n) = true.
Proof.
  intros H. destruct (parse_numeral_inv l n H) as (r1 & r2 & E1 & E2 & _).
  pose proof (span_digits_digits l) as H1. rewrite E1 in H1.
  assert (H2 : forallb is_digit (fst (parse_frac r1)) = true).
  { destruct r1 as [|c r]; [reflexivity|]. simpl.
    destruct (char_eqb c "."); [apply span_digits_digits | reflexivity]. }
  rewrite E2 in H2. simpl in *. now rewrite forallb_app, H1, H2.
Qed.

Lemma numeral_coeff_nonneg (l : list ascii) (n : numeral) :
  parse_numeral l = Some n -> 0 <= numeral_coeff n.
Proof. intros H. apply digits_value_nonneg. now apply (parse_numeral_digits l). Qed.

(** A plain [digits.digits] literal. *)
Lemma parse_numeral_point (ip fp : list ascii) :
  ip <> [] -> forallb is_digit ip = true -> forallb is_digit fp = true ->
  parse_numeral (ip ++ "."%char :: fp) = Some (mk_numeral ip fp 0).
Proof.
  intros Hne Hip Hfp. unfold parse_numeral. rewrite span_digits_app by (auto; reflexivity).
  unfold parse_frac. cbn [char_eqb Ascii.eqb Bool.eqb andb].
  rewrite <- (app_nil_r fp) at 1. rewrite (span_digits_app fp []) by auto. simpl parse_exp_part.
  destruct ip; [congruence | reflexivity].
Qed.

(** A plain [digits] literal. *)
Lemma parse_numeral_int (ip : list ascii) :
  ip <> [] -> forallb is_digit ip = true -> parse_numeral ip = Some (mk_numeral ip [] 0).
Proof.
  intros Hne Hip. unfold parse_numeral. rewrite <- (app_nil_r ip) at 1.
  rewrite span_digits_app by auto. cbn [parse_frac parse_exp_part].
  destruct ip; [congruence | reflexivity].
Qed.

(** A literal [digits], [digits.digits], followed by an exponent part
    [ex] (empty, or starting with a letter). *)
Lemma parse_numeral_sci (ip frac ex : list ascii) (k : Z) :
  ip <> [] -> forallb is_digit ip = true -> forallb is_digit frac = true -> parse_exp_part ex = Some k ->
  match ex with c :: _ => is_digit c = false /\ char_eqb c "." = false | [] => True end ->
  parse_numeral (ip ++ match frac with [] => ex | _ :: _ => "."%char :: frac ++ ex end) =
  Some (mk_numeral ip frac k).
Proof.
  intros Hne Hip Hfp Hk Hex.
  assert (Hex' : match ex with c :: _ => is_digit c = false | [] => True end)
    by (destruct ex; [exact I | apply Hex]).
  unfold parse_numeral. rewrite span_digits_app by (first [assumption | destruct frac; [exact Hex' | reflexivity]]).
  destruct frac as [|f fr].
  - assert (Hf : parse_frac ex = ([], ex)) by (destruct ex as [|c r]; [reflexivity|];
      cbn [parse_frac]; now rewrite (proj2 Hex)).
    rewrite Hf. destruct ip; [congruence|]. now rewrite Hk.
  - change (parse_frac ("."%char :: (f :: fr) ++ ex)) with (span_digits ((f :: fr) ++ ex)).
    rewrite span_digits_app by assumption.
    destruct ip; [congruence|]. now rewrite Hk.
Qed.

Lemma last_forallb (p : ascii -> bool) (c z : ascii) (l : list ascii) :
  forallb p (c :: l) = true -> p (last (c :: l) z) = true.
Proof.
  revert c. induction l as [|d l IH]; intros c H; [simpl in H; now apply andb_prop in H as []|].
  change (last (c :: d :: l) z) with (last (d :: l) z).
  apply IH. simpl in H. apply andb_prop in H as [_ H]. exact H.
Qed.

Lemma digits_no_underscore (l : list ascii) :
  forallb is_digit l = true -> forallb (fun c => negb (char_eqb c "_")) l = true.
Proof.
  intros Hl. apply forallb_forall. intros c Hc. apply (proj1 (forallb_forall _ _) Hl) in Hc.
  now rewrite digit_not_underscore.
Qed.

(** A string without underscores that starts and ends with a digit
    passes [strip], the underscore removal and the sign unchanged. *)
Lemma plain_unsigned (c : ascii) (l : list ascii) :
  is_digit c = true -> is_digit (last (c :: l) c) = true ->
  forallb (fun c => negb (char_eqb c "_")) (c :: l) = true ->
  take_sign (py_strip (remove_underscores (c :: l))) = (false, c :: l).
Proof.
  intros Hc Hz Hu. rewrite remove_underscores_id, py_strip_keep by (auto using digit_not_space).
  unfold take_sign.
  destruct (char_eqb c "-") eqn:E1; [apply Ascii.eqb_eq in E1; subst; discriminate|].
  destruct (char_eqb c "+") eqn:E2; [apply Ascii.eqb_eq in E2; subst; discriminate|]. reflexivity.
Qed.

(** A non-empty digit string passes [strip], the underscore removal and
    the sign unchanged. *)
Lemma digits_unsigned (l : list ascii) :
  l <> [] -> forallb is_digit l = true -> take_sign (py_strip (remove_underscores l)) = (false, l).
Proof.
  intros Hne Hl. destruct l as [|c r]; [congruence|].
  apply plain_unsigned; [simpl in Hl; now apply andb_prop in Hl as [] | apply last_forallb, Hl |].
  now apply digits_no_underscore.
Qed.
