(* ===== verification/Money.v ===== *)
(** * The contract of the calculator, stated without [decimal]

    What the spec promises, in exact integer arithmetic: an amount is a
    non-negative decimal [c * 10^e]; rounding to cents is round half away
    from zero; a currency string is an optional minus sign, the integer
    part in decimal, a point and exactly two digits.  The two discount
    formulas of the spec (section 8) are stated here on exact values, so
    that the theorems of [Discounts] compare the program against them.
    Rounding half to even ([round_half_even]), the default context's
    rounding, is here too, to state what [__mul__] does to a product of
    more than 28 digits. *)

From Stdlib Require Import ZArith List String Ascii Bool Lia.
From S2P Require Import Prelude PyText.
Import ListNotations.
Local Open Scope Z_scope.
Local Open Scope bool_scope.

(** ** Rounding half away from zero *)

(** [r] is [num / den] rounded to the nearest integer, a tie going up
    (away from zero, as [num] is non-negative):
    [r - 1/2 <= num/den < r + 1/2]. *)
Definition rounds_half_away (num den r : Z) : Prop :=
  - den <= 2 * (num - r * den) < den.

Definition round_half_away (num den : Z) : Z := (2 * num + den) / (2 * den).

(** [num / den] rounded to the nearest integer, ties to the even one
    ([ROUND_HALF_EVEN], the rounding of the default context). *)
Definition round_half_even (num den : Z) : Z :=
  let q := num / den in
  let r := num mod den in
  if den <? 2 * r then q + 1 else if (2 * r =? den) && negb (Z.even q) then q + 1 else q.

(** ** Amounts in cents *)

(** [c * 10^e * 100] as a fraction [num / den]. *)
Definition cents_ratio (c e : Z) : Z * Z :=
  if 0 <=? e + 2 then (c * 10 ^ (e + 2), 1) else (c, 10 ^ (- (e + 2))).

Definition round_cents (c e : Z) : Z :=
  let '(num, den) := cents_ratio c e in round_half_away num den.

(** ** Currency text *)

Definition cents_text (r : Z) : list ascii :=
  to_digits (r / 100) ++ "."%char :: [digit_char (r / 10 mod 10); digit_char (r mod 10)].

Definition currency_text (neg : bool) (r : Z) : list ascii :=
  (if neg then ["-"%char] else []) ++ cents_text r.

(** An amount of [r] tenths typed with one decimal, ["d.d"]. *)
Definition tenths_text (r : Z) : list ascii :=
  to_digits (r / 10) ++ "."%char :: [digit_char (r mod 10)].

Definition is_currency_text (t : list ascii) : bool :=
  let body := match t with c :: r => if char_eqb c "-" then r else t | [] => [] end in
  match span_digits body with
  | (_ :: _, [dot; d1; d0]) => char_eqb dot "." && is_digit d1 && is_digit d0
  | _ => false
  end.

(** ** The two discounts on exact values (spec, section 8) *)

(** [a * 0.87] rounded to cents, for [a = c * 10^e]. *)
Definition spec_after13p_cents (c e : Z) : Z := round_cents (87 * c) (e - 2).

(** [a - floor(a / 30) * 5] for [a = c * 10^e], as a coefficient and an
    exponent, and rounded to cents. *)
Definition spec_increments (c e : Z) : Z :=
  if 0 <=? e then c * 10 ^ e / 30 else c / (30 * 10 ^ (- e)).

Definition spec_after5_value (c e : Z) : Z * Z :=
  if 0 <=? e then (c * 10 ^ e - 5 * spec_increments c e, 0)
  else (c - 5 * spec_increments c e * 10 ^ (- e), e).

Definition spec_after5_cents (c e : Z) : Z :=
  let '(c', e') := spec_after5_value c e in round_cents c' e'.

(** The same formula on an amount given as a fraction [num / den]: the
    number of whole 30s is [num / (30 * den)], and the rest is rounded to
    cents. *)
Definition spec_after5_ratio (num den : Z) : Z :=
  let increments := num / (30 * den) in
  round_half_away ((num - 5 * increments * den) * 100) den.

(** ** Lemmas *)

Lemma round_half_away_correct (num den : Z) :
  0 < den -> rounds_half_away num den (round_half_away num den).
Proof.
  intros Hd. unfold rounds_half_away, round_half_away.
  pose proof (Z.div_mod (2 * num + den) (2 * den) ltac:(lia)).
  pose proof (Z.mod_pos_bound (2 * num + den) (2 * den) ltac:(lia)). lia.
Qed.

Lemma rounds_half_away_unique (num den r1 r2 : Z) :
  rounds_half_away num den r1 -> rounds_half_away num den r2 -> r1 = r2.
Proof.
  unfold rounds_half_away. intros H1 H2.
  assert (Hd : 0 < den) by lia.
  destruct (Z.lt_trichotomy r1 r2) as [Hlt | [Heq | Hgt]]; [| exact Heq |]; exfalso.
  - assert ((r1 + 1) * den <= r2 * den) by (apply Z.mul_le_mono_nonneg_r; lia). lia.
  - assert ((r2 + 1) * den <= r1 * den) by (apply Z.mul_le_mono_nonneg_r; lia). lia.
Qed.

(** The rounding as Python's [_round_half_up] computes it: keep the
    quotient, add one when the remainder is at least half the divisor. *)
Lemma round_half_away_div (num den : Z) :
  0 < den -> round_half_away num den = num / den + (if den <=? 2 * (num mod den) then 1 else 0).
Proof.
  intros Hd. apply (rounds_half_away_unique num den); [apply round_half_away_correct; lia|].
  unfold rounds_half_away.
  pose proof (Z.div_mod num den ltac:(lia)). pose proof (Z.mod_pos_bound num den Hd).
  destruct (Z.leb_spec den (2 * (num mod den))); lia.
Qed.

Lemma round_half_away_int (n : Z) : round_half_away n 1 = n.
Proof.
  apply (rounds_half_away_unique n 1); [apply round_half_away_correct; lia|].
  unfold rounds_half_away. lia.
Qed.

Lemma round_half_away_nonneg (num den : Z) : 0 <= num -> 0 < den -> 0 <= round_half_away num den.
Proof. intros. unfold round_half_away. apply Z.div_pos; lia. Qed.

Lemma round_half_away_ge_div (num den : Z) : 0 < den -> num / den <= round_half_away num den.
Proof. intros Hd. rewrite round_half_away_div by lia. destruct (_ <=? _); lia. Qed.

Lemma cents_ratio_den (c e : Z) : 0 < snd (cents_ratio c e).
Proof. unfold cents_ratio. destruct (0 <=? e + 2) eqn:E; simpl; [lia | apply pow10_pos; lia]. Qed.

Lemma round_cents_nonneg (c e : Z) : 0 <= c -> 0 <= round_cents c e.
Proof.
  intros Hc. unfold round_cents, cents_ratio.
  destruct (Z.leb_spec 0 (e + 2)); apply round_half_away_nonneg;
    solve [lia | apply pow10_pos; lia | pose proof (pow10_pos (e + 2) ltac:(lia)); nia].
Qed.

(** An amount of [len] digits at exponent [e] is at least
    [10^(len - 1 + e)], so its cents are at least [10^(len + e + 1)]. *)
Lemma round_cents_lower (c e : Z) :
  1 <= c -> 0 <= ndigits c + e + 1 -> 10 ^ (ndigits c + e + 1) <= round_cents c e.
Proof.
  intros Hc Hk. destruct (ndigits_bounds c ltac:(lia)) as [_ Hlow]. specialize (Hlow Hc).
  pose proof (ndigits_pos c ltac:(lia)) as Hl.
  unfold round_cents, cents_ratio. destruct (Z.leb_spec 0 (e + 2)) as [He | He].
  - rewrite round_half_away_int.
    replace (ndigits c + e + 1) with ((ndigits c - 1) + (e + 2)) by lia.
    rewrite Z.pow_add_r by lia. apply Z.mul_le_mono_nonneg_r; [apply Z.lt_le_incl, pow10_pos|]; lia.
  - eapply Z.le_trans; [| apply round_half_away_ge_div; apply pow10_pos; lia].
    apply Z.div_le_lower_bound; [apply pow10_pos; lia|].
    rewrite <- Z.pow_add_r by lia.
    replace (- (e + 2) + (ndigits c + e + 1)) with (ndigits c - 1) by lia. exact Hlow.
Qed.

Lemma tenths_text_digits (r : Z) :
  0 <= r -> digits_value (to_digits (r / 10) ++ [digit_char (r mod 10)]) = r.
Proof.
  intros Hr. rewrite digits_value_app, digits_value_to_digits by (apply Z.div_pos; lia).
  destruct (digit_char_spec (r mod 10)) as [_ H0]; [apply Z.mod_pos_bound; lia|].
  unfold digits_value. cbn [fold_left List.length]. rewrite H0.
  change (10 ^ Z.of_nat 1) with 10. pose proof (Z.div_mod r 10 ltac:(lia)). lia.
Qed.

Lemma cents_text_digits (r : Z) :
  0 <= r -> digits_value (to_digits (r / 100) ++ [digit_char (r / 10 mod 10); digit_char (r mod 10)]) = r.
Proof.
  intros Hr. rewrite digits_value_app, digits_value_to_digits by (apply Z.div_pos; lia).
  destruct (digit_char_spec (r / 10 mod 10)) as [_ H1]; [apply Z.mod_pos_bound; lia|].
  destruct (digit_char_spec (r mod 10)) as [_ H0]; [apply Z.mod_pos_bound; lia|].
  unfold digits_value. cbn [fold_left List.length]. rewrite H1, H0.
  change (10 ^ Z.of_nat 2) with 100.
  pose proof (Z.div_mod r 10 ltac:(lia)). pose proof (Z.div_mod (r / 10) 10 ltac:(lia)).
  assert (r / 100 = r / 10 / 10) by (rewrite Z.div_div by lia; reflexivity). lia.
Qed.

Lemma currency_text_shape (neg : bool) (r : Z) :
  0 <= r -> is_currency_text (currency_text neg r) = true.
Proof.
  intros Hr. assert (Hq : 0 <= r / 100) by (apply Z.div_pos; lia).
  destruct (to_digits_spec (r / 100) Hq) as (Hne & Hall & _).
  destruct (digit_char_spec (r / 10 mod 10)) as [H1 _]; [apply Z.mod_pos_bound; lia|].
  destruct (digit_char_spec (r mod 10)) as [H0 _]; [apply Z.mod_pos_bound; lia|].
  assert (Hbody : match cents_text r with c :: l => if char_eqb c "-" then l else cents_text r
                  | [] => [] end = cents_text r).
  { unfold cents_text. destruct (to_digits (r / 100)) as [|d ds] eqn:E; [congruence|].
    simpl in Hall. apply andb_prop in Hall as [Hd _]. simpl.
    destruct (char_eqb d "-") eqn:Ed; [|reflexivity].
    apply Ascii.eqb_eq in Ed. subst. discriminate. }
  unfold is_currency_text, currency_text.
  destruct neg; simpl app; [cbn [char_eqb Ascii.eqb]; simpl | rewrite Hbody];
    unfold cents_text; rewrite span_digits_app by (auto; reflexivity);
    destruct (to_digits (r / 100)); try congruence; rewrite H1, H0; reflexivity.
Qed.

Lemma round_cents_zero (e : Z) : round_cents 0 e = 0.
Proof.
  unfold round_cents, cents_ratio. destruct (Z.leb_spec 0 (e + 2)).
  - apply round_half_away_int.
  - pose proof (pow10_pos (- (e + 2)) ltac:(lia)).
    rewrite round_half_away_div, Z.div_0_l, Z.mod_0_l by lia.
    destruct (Z.leb_spec (10 ^ (- (e + 2))) (2 * 0)); lia.
Qed.

Lemma round_cents_int (c e : Z) : 0 <= e + 2 -> round_cents c e = c * 10 ^ (e + 2).
Proof.
  intros He. unfold round_cents, cents_ratio.
  destruct (Z.leb_spec 0 (e + 2)); [apply round_half_away_int | lia].
Qed.

(** The cents of an amount of [len] digits at exponent [e] are at most
    [10^(len + e + 2)], and at most 1 when that exponent is negative. *)
Lemma round_cents_upper (c e : Z) :
  0 <= c -> round_cents c e <= 10 ^ Z.max 0 (ndigits c + e + 2).
Proof.
  intros Hc. destruct (ndigits_bounds c Hc) as [Hup _].
  pose proof (ndigits_pos c Hc) as Hl.
  unfold round_cents, cents_ratio. destruct (Z.leb_spec 0 (e + 2)) as [He | He].
  - rewrite round_half_away_int, Z.max_r by lia.
    replace (ndigits c + e + 2) with (ndigits c + (e + 2)) by lia.
    rewrite (Z.pow_add_r 10 (ndigits c) (e + 2)) by lia.
    pose proof (pow10_pos (e + 2) ltac:(lia)). nia.
  - assert (Hk' : 0 < 10 ^ (- (e + 2))) by (apply pow10_pos; lia).
    rewrite round_half_away_div by lia.
    assert (Hq : c / 10 ^ (- (e + 2)) < 10 ^ Z.max 0 (ndigits c + e + 2)).
    { apply Z.div_lt_upper_bound; [lia|]. rewrite <- Z.pow_add_r by lia.
      eapply Z.lt_le_trans; [exact Hup|]. apply Z.pow_le_mono_r; lia. }
    destruct (_ <=? _); lia.
Qed.

(** The rounding depends only on the value of the fraction. *)
Lemma round_half_away_cross (a b c d : Z) :
  0 < b -> 0 < d -> a * d = c * b -> round_half_away a b = round_half_away c d.
Proof.
  intros Hb Hd H. apply (rounds_half_away_unique a b); [apply round_half_away_correct; lia|].
  pose proof (round_half_away_correct c d Hd) as Hc. unfold rounds_half_away in *.
  set (r := round_half_away c d) in *.
  assert (E : 2 * (a - r * b) * d = 2 * (c - r * d) * b) by nia.
  split.
  - apply (Z.mul_le_mono_pos_r _ _ d Hd). rewrite E. nia.
  - apply (Z.mul_lt_mono_pos_r d _ _ Hd). rewrite E. nia.
Qed.

Lemma round_half_even_bounds (num den : Z) :
  0 < den -> num / den <= round_half_even num den <= num / den + 1.
Proof. intros Hd. unfold round_half_even. destruct (_ <? _); [lia|]. destruct (_ && _); lia. Qed.

(** Rounding to cents depends on the value [c * 10^e] only. *)
Lemma round_cents_shift (c e : Z) : round_cents (10 * c) e = round_cents c (e + 1).
Proof.
  unfold round_cents, cents_ratio. replace (e + 1 + 2) with (e + 2 + 1) by lia.
  destruct (Z.leb_spec 0 (e + 2)) as [H|H].
  - rewrite (proj2 (Z.leb_le 0 (e + 2 + 1))) by lia. rewrite (Z.pow_add_r 10 (e + 2) 1) by lia. f_equal. ring.
  - pose proof (pow10_pos (- (e + 2)) ltac:(lia)). destruct (Z.leb_spec 0 (e + 2 + 1)) as [H1|H1].
    + replace (e + 2 + 1) with 0 by lia. replace (- (e + 2)) with 1 by lia.
      apply round_half_away_cross; [lia | lia | ring].
    + pose proof (pow10_pos (- (e + 2 + 1)) ltac:(lia)). apply round_half_away_cross; [lia | lia |].
      replace (- (e + 2)) with (- (e + 2 + 1) + 1) by lia. rewrite (Z.pow_add_r 10 (- (e + 2 + 1)) 1) by lia. ring.
Qed.

Lemma round_half_away_le (a b : Z) : 0 < b -> round_half_away a b <= a / b + 1.
Proof. intros Hb. rewrite round_half_away_div by lia. destruct (_ <=? _); lia. Qed.

(** The decimal formula is the fraction formula at [den = 10^(-e)]. *)
Lemma spec_after5_cents_ratio (c e : Z) :
  spec_after5_cents c e =
  if 0 <=? e then spec_after5_ratio (c * 10 ^ e) 1 else spec_after5_ratio c (10 ^ (- e)).
Proof.
  unfold spec_after5_cents, spec_after5_value, spec_increments, spec_after5_ratio.
  destruct (Z.leb_spec 0 e) as [He|He].
  - rewrite round_cents_int by lia. rewrite Z.add_0_l, Z.mul_1_r, Z.mul_1_r.
    change (10 ^ 2) with 100. rewrite round_half_away_int. reflexivity.
  - set (v := c - 5 * (c / (30 * 10 ^ (- e))) * 10 ^ (- e)).
    unfold round_cents, cents_ratio. pose proof (pow10_pos (- e) ltac:(lia)).
    destruct (Z.leb_spec 0 (e + 2)).
    + apply round_half_away_cross; [lia | lia |].
      rewrite Z.mul_1_r, <- Z.mul_assoc, <- (Z.pow_add_r 10 (e + 2) (- e)) by lia.
      replace (e + 2 + - e) with 2 by lia. reflexivity.
    + pose proof (pow10_pos (- (e + 2)) ltac:(lia)). apply round_half_away_cross; [lia | lia |].
      replace (10 ^ (- e)) with (10 ^ 2 * 10 ^ (- (e + 2)))
        by (rewrite <- Z.pow_add_r by lia; f_equal; lia).
      change (10 ^ 2) with 100. ring.
Qed.

(** [num / den] within less than half a unit of [R] rounds to [R]. *)
Lemma round_half_away_near (num den R : Z) :
  0 < den -> R * (2 * den) <= 2 * num + den < (R + 1) * (2 * den) -> round_half_away num den = R.
Proof.
  intros Hd HR. unfold round_half_away. symmetry.
  apply (Z.div_unique _ _ _ (2 * num + den - R * (2 * den))); [left; lia | ring].
Qed.

(** The formula on an amount of [A] cents is the formula on any [N] at
    a scale [den > 200] that is [A * den / 100] truncated or one more:
    the increments are the same, and the error, below one unit of
    [1 / den], is less than half a cent. *)
Lemma spec_after5_ratio_close (A N den : Z) :
  0 <= A -> 200 < den -> A * den / 100 <= N <= A * den / 100 + 1 ->
  spec_after5_ratio N den = spec_after5_ratio A 100.
Proof.
  intros HA Hd HN. unfold spec_after5_ratio. change (30 * 100) with 3000.
  set (I := A / 3000). set (X := A * den / 100) in *.
  pose proof (Z.div_mod A 3000 ltac:(lia)) as HAI. pose proof (Z.mod_pos_bound A 3000 ltac:(lia)).
  fold I in HAI. pose proof (Z.div_mod (A * den) 100 ltac:(lia)) as HX.
  pose proof (Z.mod_pos_bound (A * den) 100 ltac:(lia)). fold X in HX.
  assert (HI : N / (30 * den) = I).
  { symmetry. apply (Z.div_unique _ _ _ (N - 30 * den * I)); [left; nia | ring]. }
  rewrite HI. rewrite (round_half_away_near ((A - 5 * I * 100) * 100) 100 (A - 500 * I)) by lia.
  apply round_half_away_near; nia.
Qed.

(** The formula depends only on the value of the fraction [num / den]. *)
Lemma spec_after5_ratio_scale (A D E : Z) :
  0 < D -> 0 < E -> spec_after5_ratio (A * E) (D * E) = spec_after5_ratio A D.
Proof.
  intros HD HE. unfold spec_after5_ratio.
  replace (30 * (D * E)) with (30 * D * E) by ring. rewrite Z.div_mul_cancel_r by lia.
  apply round_half_away_cross; [lia | lia | ring].
Qed.

(** On a whole amount [c] (of either sign) the formula is exact:
    [c - floor(c / 30) * 5] dollars, in cents. *)
Lemma spec_after5_cents_int (c : Z) : spec_after5_cents c 0 = 100 * (c - 5 * (c / 30)).
Proof.
  rewrite spec_after5_cents_ratio. change (0 <=? 0) with true. cbv iota.
  unfold spec_after5_ratio. rewrite Z.pow_0_r, !Z.mul_1_r, round_half_away_int. ring.
Qed.
