(* ===== verification/PyDecimal.v ===== *)
(** * Python's [decimal] module, as far as hm_discounts uses it

    [src/hm_discounts.py] calls [decimal.Decimal(str)] (lines 91, 97, 283),
    [Decimal.__mul__] in the default context (line 97),
    [Decimal.quantize(Decimal('.01'), ROUND_HALF_UP)] (lines 282-285),
    [Decimal(float)] (line 197, modelled in [Binary64]) and [str(Decimal)]
    (line 306).  The model follows the reference implementation
    [_pydecimal] of CPython 3.11: a value is [(sign, coefficient,
    exponent)] or a special, the coefficient string [_int] is kept as its
    integer value, and slicing that string is division by a power of ten.
    Signals that are not trapped in the default context (Inexact,
    Rounded, Clamped, Subnormal, Underflow) only set flags the program
    never reads, so they are not modelled; the trapped ones
    (InvalidOperation, Overflow) become [Err].  The lemmas give [_fix]
    on values that fit the context and its half-even rounding to 28
    digits otherwise, [quantize] to cents, and the round trip
    [Decimal(str(d)) = d] ([dec_str_roundtrip]). *)

From Stdlib Require Import ZArith List String Ascii Bool Lia.
From S2P Require Import Prelude PyText Money.
Import ListNotations.
Local Open Scope Z_scope.
Local Open Scope bool_scope.

(** ** Values and contexts *)

(** [_dec_from_triple(sign, coeff, exp)]; the specials carry the exponent
    tags ['F'], ['n'], ['N'] in Python.  A NaN payload of 0 stands for the
    empty diagnostic string. *)
Inductive decimal : Type :=
| Finite (sign : bool) (coeff : Z) (exp : Z)
| Infinity (sign : bool)
| NaN (sign : bool) (payload : Z)
| SNaN (sign : bool) (payload : Z).

Inductive rounding : Type :=
| ROUND_DOWN | ROUND_HALF_UP | ROUND_HALF_EVEN | ROUND_CEILING
| ROUND_FLOOR | ROUND_UP | ROUND_HALF_DOWN | ROUND_05UP.

Record context : Type := mk_context {
  prec : Z;
  rounding_mode : rounding;
  Emin : Z;
  Emax : Z;
  clamp : bool
}.

(** [decimal.DefaultContext], the context [getcontext()] returns in a
    program that never changes it.  Its traps are DivisionByZero,
    Overflow and InvalidOperation. *)
Definition DefaultContext : context := mk_context 28 ROUND_HALF_EVEN (-999999) 999999 false.

Definition Etiny (ctx : context) : Z := Emin ctx - prec ctx + 1.
Definition Etop (ctx : context) : Z := Emax ctx - prec ctx + 1.

Definition is_zero (d : decimal) : bool :=
  match d with Finite _ c _ => c =? 0 | _ => false end.

Definition adjusted (d : decimal) : Z :=
  match d with Finite _ c e => e + ndigits c - 1 | _ => 0 end.

(** ** Rounding a coefficient

    [_round_<mode>(self, digits)] decides whether the first [digits]
    digits of the coefficient [c] (of length [len]) are kept as they are
    (-1: inexact, 0: exact) or incremented (1).  With [k = len - digits]
    dropped digits, [_int[:digits]] is [c / 10^k], [_all_zeros(_int,
    digits)] is [c mod 10^k = 0], [_int[digits] in '56789'] is
    [2 * (c mod 10^k) >= 10^k] and [_exact_half] is [2 * (c mod 10^k) =
    10^k]. *)
Definition round_decision (mode : rounding) (sign : bool) (c k : Z) : Z :=
  let q := c / 10 ^ k in
  let r := c mod 10 ^ k in
  let down := if r =? 0 then 0 else -1 in
  let half_up := if 10 ^ k <=? 2 * r then 1 else down in
  match mode with
  | ROUND_DOWN => down
  | ROUND_UP => - down
  | ROUND_HALF_UP => half_up
  | ROUND_HALF_DOWN => if 2 * r =? 10 ^ k then -1 else half_up
  | ROUND_HALF_EVEN => if (2 * r =? 10 ^ k) && Z.even q then -1 else half_up
  | ROUND_CEILING => if sign then down else - down
  | ROUND_FLOOR => if sign then - down else down
  | ROUND_05UP => if (q mod 10 =? 0) || (q mod 10 =? 5) then - down else down
  end.

(** [coeff = self._int[:digits] or '0'], incremented when the decision
    is to round away from zero; the decision is returned too. *)
Definition round_coeff (mode : rounding) (sign : bool) (c len digits : Z) : Z * Z :=
  let k := len - digits in
  let ch := round_decision mode sign c k in
  (if 0 <? ch then c / 10 ^ k + 1 else c / 10 ^ k, ch).

(** The replacement both [_fix] and [_rescale] make when fewer than no
    digits are kept: [self = 1 * 10^(e-1)], [digits = 0]. *)
Definition keep_digits (c digits : Z) : Z * Z * Z :=
  if digits <? 0 then (1, 1, 0) else (c, ndigits c, digits).

(** ** [Decimal._fix_nan] and [Decimal._fix] *)

Definition fix_nan (ctx : context) (sign : bool) (payload : Z) (signaling : bool) : decimal :=
  let max_len := prec ctx - (if clamp ctx then 1 else 0) in
  let p := if max_len <? ndigits payload then payload mod 10 ^ max_len else payload in
  if signaling then SNaN sign p else NaN sign p.

Definition fix_finite (ctx : context) (s : bool) (c e : Z) : result decimal :=
  if c =? 0 then
    let exp_max := if clamp ctx then Etop ctx else Emax ctx in
    Ok (Finite s 0 (Z.min (Z.max e (Etiny ctx)) exp_max))
  else
    let exp_min0 := ndigits c + e - prec ctx in
    if Etop ctx <? exp_min0 then Err DecimalOverflow
    else
      let exp_min := if exp_min0 <? Etiny ctx then Etiny ctx else exp_min0 in
      if e <? exp_min then
        let '(c1, len1, digits) := keep_digits c (ndigits c + e - exp_min) in
        let '(coeff, changed) := round_coeff (rounding_mode ctx) s c1 len1 digits in
        let '(coeff', exp') :=
          if (0 <? changed) && (prec ctx <? ndigits coeff)
          then (coeff / 10, exp_min + 1) else (coeff, exp_min) in
        if Etop ctx <? exp' then Err DecimalOverflow else Ok (Finite s coeff' exp')
      else if clamp ctx && (Etop ctx <? e) then
        Ok (Finite s (c * 10 ^ (e - Etop ctx)) (Etop ctx))
      else Ok (Finite s c e).

Definition fix_dec (ctx : context) (d : decimal) : result decimal :=
  match d with
  | Finite s c e => fix_finite ctx s c e
  | Infinity s => Ok (Infinity s)
  | NaN s p => Ok (fix_nan ctx s p false)
  | SNaN s p => Ok (fix_nan ctx s p true)
  end.

(** ** [Decimal._check_nans]: [None] when neither operand is a NaN. *)
Definition check_nans (ctx : context) (a b : decimal) : option (result decimal) :=
  match a, b with
  | SNaN _ _, _ => Some (Err InvalidOperation)
  | _, SNaN _ _ => Some (Err InvalidOperation)
  | NaN s p, _ => Some (Ok (fix_nan ctx s p false))
  | _, NaN s p => Some (Ok (fix_nan ctx s p false))
  | _, _ => None
  end.

Definition sign_of (d : decimal) : bool :=
  match d with Finite s _ _ | Infinity s | NaN s _ | SNaN s _ => s end.

(** ** [Decimal.__mul__]

    The special cases of the source for a zero operand and for a
    coefficient ['1'] build the same triple as the general case
    [(sign, str(c1 * c2), e1 + e2)], which is then passed to [_fix]. *)
Definition mul (ctx : context) (a b : decimal) : result decimal :=
  let resultsign := xorb (sign_of a) (sign_of b) in
  match check_nans ctx a b with
  | Some r => r
  | None =>
      match a, b with
      | Infinity _, _ => if is_zero b then Err InvalidOperation else Ok (Infinity resultsign)
      | _, Infinity _ => if is_zero a then Err InvalidOperation else Ok (Infinity resultsign)
      | Finite _ c1 e1, Finite _ c2 e2 => fix_finite ctx resultsign (c1 * c2) (e1 + e2)
      | _, _ => Err InvalidOperation
      end
  end.

(** ** [Decimal._rescale] and [Decimal.quantize] *)

Definition rescale (d : decimal) (exp : Z) (rnd : rounding) : decimal :=
  match d with
  | Finite s c e =>
      if c =? 0 then Finite s 0 exp
      else if exp <=? e then Finite s (c * 10 ^ (e - exp)) exp
      else
        let '(c1, len1, digits) := keep_digits c (ndigits c + e - exp) in
        Finite s (fst (round_coeff rnd s c1 len1 digits)) exp
  | _ => d
  end.

Definition coeff_of (d : decimal) : Z :=
  match d with Finite _ c _ => c | NaN _ p | SNaN _ p => p | Infinity _ => 0 end.

Definition quantize (ctx : context) (a expd : decimal) (rnd : rounding) : result decimal :=
  match check_nans ctx a expd with
  | Some r => r
  | None =>
      match a, expd with
      | Infinity _, Infinity _ => Ok a
      | Infinity _, _ | _, Infinity _ => Err InvalidOperation
      | Finite s c e, Finite _ _ ee =>
          if negb ((Etiny ctx <=? ee) && (ee <=? Emax ctx)) then Err InvalidOperation
          else if c =? 0 then fix_finite ctx s 0 ee
          else if Emax ctx <? adjusted a then Err InvalidOperation
          else if prec ctx <? adjusted a - ee + 1 then Err InvalidOperation
          else
            let ans := rescale a ee rnd in
            if Emax ctx <? adjusted ans then Err InvalidOperation
            else if prec ctx <? ndigits (coeff_of ans) then Err InvalidOperation
            else fix_dec ctx ans
      | _, _ => Err InvalidOperation
      end
  end.

(** ** [Decimal.__str__] (scientific notation, [capitals=1]) *)

Fixpoint zeros (n : nat) : list ascii :=
  match n with O => [] | S n => "0"%char :: zeros n end.

(** ["%+d" % n] *)
Definition signed_int_text (n : Z) : list ascii :=
  (if n <? 0 then "-"%char else "+"%char) :: to_digits (Z.abs n).

Definition payload_text (p : Z) : list ascii := if p =? 0 then [] else to_digits p.

Definition finite_text (c e : Z) : list ascii :=
  let digs := to_digits c in
  let len := Z.of_nat (List.length digs) in
  let leftdigits := e + len in
  let dotplace := if (e <=? 0) && (-6 <? leftdigits) then leftdigits else 1 in
  let body :=
    if dotplace <=? 0 then
      "0"%char :: "."%char :: zeros (Z.to_nat (- dotplace)) ++ digs
    else if len <=? dotplace then
      digs ++ zeros (Z.to_nat (dotplace - len))
    else
      firstn (Z.to_nat dotplace) digs ++ "."%char :: skipn (Z.to_nat dotplace) digs in
  if leftdigits =? dotplace then body
  else body ++ "E"%char :: signed_int_text (leftdigits - dotplace).

Definition dec_str (d : decimal) : list ascii :=
  (if sign_of d then ["-"%char] else []) ++
  match d with
  | Finite _ c e => finite_text c e
  | Infinity _ => list_ascii_of_string "Infinity"
  | NaN _ p => list_ascii_of_string "NaN" ++ payload_text p
  | SNaN _ p => list_ascii_of_string "sNaN" ++ payload_text p
  end.

(** ** [Decimal(str)]

    [_parser(value.strip().replace("_", ""))]: an optional sign, then a
    numeric literal, ["Inf"], ["Infinity"], or ["NaN"] / ["sNaN"] with a
    diagnostic, all case-insensitive; anything else raises
    [InvalidOperation] (through [ConversionSyntax]). *)
Definition nan_of_text (sign : bool) (l : list ascii) : result decimal :=
  match strip_prefix_ci (list_ascii_of_string "snan") l with
  | Some ds => if forallb is_digit ds then Ok (SNaN sign (digits_value ds)) else Err InvalidOperation
  | None =>
      match strip_prefix_ci (list_ascii_of_string "nan") l with
      | Some ds => if forallb is_digit ds then Ok (NaN sign (digits_value ds)) else Err InvalidOperation
      | None => Err InvalidOperation
      end
  end.

Definition decimal_of_text (value : list ascii) : result decimal :=
  let (sign, body) := take_sign (remove_underscores (py_strip value)) in
  match parse_numeral body with
  | Some n => Ok (Finite sign (numeral_coeff n) (numeral_exp n))
  | None =>
      if is_keyword_ci (list_ascii_of_string "inf") body
         || is_keyword_ci (list_ascii_of_string "infinity") body
      then Ok (Infinity sign)
      else nan_of_text sign body
  end.

Definition Decimal (value : string) : result decimal := decimal_of_text (list_ascii_of_string value).

(** ** The default context *)

Lemma Etiny_default : Etiny DefaultContext = -1000026.
Proof. reflexivity. Qed.

Lemma Etop_default : Etop DefaultContext = 999972.
Proof. reflexivity. Qed.

(** [Decimal('.01')] has an exponent inside [Etiny .. Emax]. *)
Lemma cents_exp_in_range :
  negb ((Etiny DefaultContext <=? -2) && (-2 <=? Emax DefaultContext)) = false.
Proof. reflexivity. Qed.

(** ** [_fix] on a value that fits the context *)

Lemma fix_finite_default_id (s : bool) (c e : Z) :
  0 <= c -> ndigits c <= 28 -> -1000026 <= e -> e + ndigits c - 1 <= 999999 ->
  fix_finite DefaultContext s c e = Ok (Finite s c e).
Proof.
  intros Hc Hl He1 He2. unfold fix_finite.
  cbn [prec Emax Emin clamp DefaultContext]. rewrite Etop_default, Etiny_default.
  destruct (Z.eqb_spec c 0) as [->|Hc0].
  - rewrite ndigits_zero in *. do 3 f_equal. lia.
  - destruct (Z.ltb_spec 999972 (ndigits c + e - 28)); [lia|]. cbv zeta.
    assert (Hem : (e <? (if ndigits c + e - 28 <? -1000026 then -1000026
                         else ndigits c + e - 28)) = false).
    { destruct (Z.ltb_spec (ndigits c + e - 28) (-1000026)); apply Z.ltb_ge; lia. }
    rewrite Hem. reflexivity.
Qed.

(** A nonzero coefficient of at most 28 digits is kept as it is, unless
    its adjusted exponent exceeds [Emax], which raises [Overflow]. *)
Lemma fix_finite_default_overflow (s : bool) (c e : Z) :
  0 < c -> ndigits c <= 28 -> -1000026 <= e ->
  fix_finite DefaultContext s c e =
  if 999999 <? e + ndigits c - 1 then Err DecimalOverflow else Ok (Finite s c e).
Proof.
  intros Hc Hl He. destruct (Z.ltb_spec 999999 (e + ndigits c - 1)) as [Ho|Ho];
    [|apply fix_finite_default_id; lia].
  unfold fix_finite. cbn [prec Emax Emin clamp DefaultContext]. rewrite Etop_default.
  rewrite (proj2 (Z.eqb_neq c 0)) by lia. rewrite (proj2 (Z.ltb_lt 999972 (ndigits c + e - 28))) by lia.
  reflexivity.
Qed.

(** [_round_half_even] keeps [q = c / 10^k] or adds one as
    [round_half_even] does. *)
Lemma round_coeff_half_even (s : bool) (c len digits : Z) :
  0 <= len - digits ->
  fst (round_coeff ROUND_HALF_EVEN s c len digits) = round_half_even c (10 ^ (len - digits)).
Proof.
  intros Hk. unfold round_coeff, round_decision, round_half_even. cbv zeta. cbn [fst].
  set (k := len - digits) in *. pose proof (pow10_pos k Hk).
  set (q := c / 10 ^ k). set (r := c mod 10 ^ k). pose proof (Z.mod_pos_bound c (10 ^ k) ltac:(lia)).
  fold r in H0.
  destruct (Z.ltb_spec (10 ^ k) (2 * r)), (Z.eqb_spec (2 * r) (10 ^ k)), (Z.even q), (Z.leb_spec (10 ^ k) (2 * r)),
    (Z.eqb_spec r 0); cbn [andb negb]; try lia; reflexivity.
Qed.

(** A nonzero coefficient of more than 28 digits whose adjusted exponent
    is below [Emax] is rounded half-even to 28 digits, [c * 10^e]
    becoming [round_half_even c (10^k) * 10^(e+k)], [k = digits(c) - 28];
    a carry to 29 digits is absorbed by the exponent. *)
Lemma fix_finite_default_round (s : bool) (c e : Z) :
  0 < c -> 28 < ndigits c -> -1000026 <= ndigits c + e - 28 -> ndigits c + e - 1 < 999999 ->
  exists c' e', fix_finite DefaultContext s c e = Ok (Finite s c' e') /\ 0 <= c' /\
    round_cents c' e' = round_cents (round_half_even c (10 ^ (ndigits c - 28))) (e + ndigits c - 28).
Proof.
  intros Hc Hn He1 He2. unfold fix_finite. cbn [prec Emax Emin clamp rounding_mode DefaultContext].
  rewrite Etop_default, Etiny_default, (proj2 (Z.eqb_neq c 0)) by lia.
  rewrite (proj2 (Z.ltb_ge 999972 (ndigits c + e - 28))), (proj2 (Z.ltb_ge (ndigits c + e - 28) (-1000026))),
    (proj2 (Z.ltb_lt e (ndigits c + e - 28))) by lia.
  replace (ndigits c + e - (ndigits c + e - 28)) with 28 by lia.
  unfold keep_digits. cbn [Z.ltb Z.compare].
  pose proof (round_coeff_half_even s c (ndigits c) 28 ltac:(lia)) as Hr.
  destruct (round_coeff ROUND_HALF_EVEN s c (ndigits c) 28) as [coeff ch]. cbn [fst] in Hr. subst coeff.
  set (k := ndigits c - 28). set (R := round_half_even c (10 ^ k)).
  pose proof (pow10_pos k ltac:(lia)). pose proof (round_half_even_bounds c (10 ^ k) ltac:(lia)). fold R in H0.
  assert (HR : R <= 10 ^ 28).
  { destruct (ndigits_bounds c ltac:(lia)) as [Hup _].
    assert (c / 10 ^ k < 10 ^ 28) by (apply Z.div_lt_upper_bound; [lia|];
      rewrite <- Z.pow_add_r by lia; replace (k + 28) with (ndigits c) by lia; exact Hup).
    lia. }
  assert (HR0 : 0 <= R) by (pose proof (Z.div_pos c (10 ^ k)); lia).
  destruct ((0 <? ch) && (28 <? ndigits R)) eqn:Hcarry.
  - apply andb_prop in Hcarry as [_ H28]. apply Z.ltb_lt in H28.
    assert (HR28 : R = 10 ^ 28) by (pose proof (ndigits_le R 28); lia).
    rewrite (proj2 (Z.ltb_ge 999972 _)) by lia.
    exists (R / 10), (ndigits c + e - 28 + 1). split; [reflexivity|]. split; [apply Z.div_pos; lia|].
    rewrite HR28 at 2. change (10 ^ 28) with (10 * (10 ^ 28 / 10)). rewrite round_cents_shift, HR28.
    f_equal. lia.
  - rewrite (proj2 (Z.ltb_ge 999972 _)) by lia.
    exists R, (ndigits c + e - 28). split; [reflexivity | split; [exact HR0 | f_equal; lia]].
Qed.

Lemma fix_dec_default_id (s : bool) (c e : Z) :
  0 <= c -> ndigits c <= 28 -> -1000026 <= e -> e + ndigits c - 1 <= 999999 ->
  fix_dec DefaultContext (Finite s c e) = Ok (Finite s c e).
Proof. apply fix_finite_default_id. Qed.

(** ** [_rescale] to cents rounds half away from zero *)

Lemma rescale_cents (s : bool) (c e : Z) :
  0 <= c -> rescale (Finite s c e) (-2) ROUND_HALF_UP = Finite s (round_cents c e) (-2).
Proof.
  intros Hc. unfold rescale.
  destruct (Z.eqb_spec c 0) as [->|Hc0]; [now rewrite round_cents_zero|].
  destruct (Z.leb_spec (-2) e) as [He|He].
  { rewrite round_cents_int by lia. replace (e - -2) with (e + 2) by lia. reflexivity. }
  unfold round_cents, cents_ratio. destruct (Z.leb_spec 0 (e + 2)); [lia|].
  pose proof (pow10_pos (- (e + 2)) ltac:(lia)) as Hk.
  rewrite round_half_away_div by lia. f_equal.
  destruct (ndigits_bounds c Hc) as [Hup _].
  unfold keep_digits. destruct (Z.ltb_spec (ndigits c + e - -2) 0) as [Hd|Hd].
  - (* fewer than no digits kept: Python rounds [1 * 10^(-3)] instead *)
    assert (Hsmall : 2 * c < 10 ^ (- (e + 2))).
    { pose proof (ndigits_pos c Hc).
      assert (Hp : 10 ^ (ndigits c + 1) <= 10 ^ (- (e + 2))) by (apply Z.pow_le_mono_r; lia).
      rewrite pow10_succ in Hp by lia. lia. }
    rewrite Z.div_small, Z.mod_small by lia.
    destruct (Z.leb_spec (10 ^ (- (e + 2))) (2 * c)); [lia|]. reflexivity.
  - unfold round_coeff, round_decision. cbn [fst].
    replace (ndigits c - (ndigits c + e - -2)) with (- (e + 2)) by lia.
    pose proof (Z.mod_pos_bound c (10 ^ (- (e + 2))) Hk).
    destruct (Z.leb_spec (10 ^ (- (e + 2))) (2 * (c mod 10 ^ (- (e + 2))))); [reflexivity|].
    destruct (Z.eqb_spec (c mod 10 ^ (- (e + 2))) 0); cbn; f_equal; lia.
Qed.

(** ** [quantize(Decimal('.01'), ROUND_HALF_UP)] *)

(** The cents of a finite non-negative coefficient, rounded half away
    from zero, when they have at most 28 digits; [InvalidOperation]
    otherwise.  The sign is kept, also on a zero. *)
Lemma quantize_cents (s : bool) (c e : Z) :
  0 <= c ->
  quantize DefaultContext (Finite s c e) (Finite false 1 (-2)) ROUND_HALF_UP =
  if round_cents c e <? 10 ^ 28 then Ok (Finite s (round_cents c e) (-2)) else Err InvalidOperation.
Proof.
  intros Hc. unfold quantize. cbn [check_nans]. rewrite cents_exp_in_range.
  destruct (Z.eqb_spec c 0) as [->|Hc0]; [rewrite round_cents_zero; reflexivity|].
  rewrite rescale_cents by assumption. cbn [adjusted coeff_of Emax prec DefaultContext].
  pose proof (ndigits_pos c Hc). pose proof (round_cents_nonneg c e Hc) as Hr0.
  destruct (Z.leb_spec (e + ndigits c - 1) 25) as [Ha | Ha].
  - rewrite (proj2 (Z.ltb_ge _ _)), (proj2 (Z.ltb_ge _ _)) by lia.
    assert (Hr : round_cents c e <= 10 ^ 28).
    { eapply Z.le_trans; [apply round_cents_upper; lia|]. apply Z.pow_le_mono_r; lia. }
    rewrite (proj2 (Z.ltb_ge _ _))
      by (pose proof (ndigits_le (round_cents c e) 29 ltac:(lia) ltac:(lia)); lia).
    destruct (Z.ltb_spec (round_cents c e) (10 ^ 28)) as [Hlt | Hge].
    + pose proof (ndigits_le (round_cents c e) 28 ltac:(lia) ltac:(lia)).
      rewrite (proj2 (Z.ltb_ge _ _)) by lia.
      apply fix_dec_default_id; lia.
    + destruct (ndigits_bounds (round_cents c e) Hr0) as [Hup _].
      rewrite (proj2 (Z.ltb_lt _ _)); [reflexivity|].
      destruct (Z.le_gt_cases (ndigits (round_cents c e)) 28); [|lia].
      assert (10 ^ ndigits (round_cents c e) <= 10 ^ 28) by (apply Z.pow_le_mono_r; lia). lia.
  - pose proof (round_cents_lower c e ltac:(lia) ltac:(lia)) as Hlow.
    assert (10 ^ 28 <= 10 ^ (ndigits c + e + 1)) by (apply Z.pow_le_mono_r; lia).
    rewrite (proj2 (Z.ltb_ge (round_cents c e) (10 ^ 28))) by lia.
    destruct (999999 <? _); [reflexivity|].
    rewrite (proj2 (Z.ltb_lt _ _)) by lia. reflexivity.
Qed.

(** ** [str()] of a value quantized to cents *)

Lemma to_digits_cents (r : Z) :
  100 <= r ->
  to_digits r = to_digits (r / 100) ++ [digit_char (r / 10 mod 10); digit_char (r mod 10)].
Proof.
  intros Hr. rewrite to_digits_snoc by lia. rewrite to_digits_snoc by (apply Z.div_le_lower_bound; lia).
  rewrite Z.div_div by lia. rewrite <- app_assoc. reflexivity.
Qed.

Lemma dec_str_cents (s : bool) (r : Z) :
  0 <= r -> dec_str (Finite s r (-2)) = currency_text s r.
Proof.
  intros Hr. unfold dec_str, currency_text. cbn [sign_of]. f_equal.
  unfold finite_text, cents_text.
  destruct (Z.ltb_spec r 10) as [H10 | H10].
  { rewrite to_digits_small by lia.
    rewrite (Z.div_small r 100), (Z.div_small r 10), (Z.mod_small r 10) by lia. reflexivity. }
  destruct (Z.ltb_spec r 100) as [H100 | H100].
  { assert (Hq : 0 <= r / 10 < 10) by (split; [apply Z.div_pos | apply Z.div_lt_upper_bound]; lia).
    rewrite (to_digits_snoc r), (to_digits_small (r / 10)) by lia.
    rewrite (Z.div_small r 100), (Z.mod_small (r / 10) 10) by lia.
    reflexivity. }
  rewrite to_digits_cents by lia.
  set (A := to_digits (r / 100)).
  assert (HA : (1 <= List.length A)%nat).
  { unfold A. destruct (to_digits_spec (r / 100) ltac:(apply Z.div_pos; lia)) as [Hne _].
    destruct (to_digits (r / 100)); [congruence | simpl; lia]. }
  rewrite length_app. cbn [List.length].
  replace (-2 + Z.of_nat (List.length A + 2)) with (Z.of_nat (List.length A)) by lia.
  rewrite (proj2 (Z.ltb_lt (-6) _)) by lia. cbn [andb Z.leb Z.compare].
  rewrite Z.eqb_refl.
  rewrite (proj2 (Z.leb_gt _ _)) by lia. rewrite (proj2 (Z.leb_gt _ _)) by lia.
  rewrite Nat2Z.id, firstn_app, skipn_app, firstn_all, skipn_all, Nat.sub_diag.
  simpl. rewrite app_nil_r. reflexivity.
Qed.

(** ** Well-formed values: non-negative coefficients and payloads *)

Definition wf_decimal (d : decimal) : Prop :=
  match d with
  | Finite _ c _ => 0 <= c
  | NaN _ p | SNaN _ p => 0 <= p
  | Infinity _ => True
  end.

Lemma decimal_of_text_wf (l : list ascii) (d : decimal) :
  decimal_of_text l = Ok d -> wf_decimal d.
Proof.
  unfold decimal_of_text. destruct (take_sign _) as [sign body].
  destruct (parse_numeral body) as [n|] eqn:Hn.
  - intros [= <-]. simpl. eapply numeral_coeff_nonneg; eauto.
  - destruct (_ || _); [intros [= <-]; exact I|].
    unfold nan_of_text.
    destruct (strip_prefix_ci _ body) as [ds|]; [|destruct (strip_prefix_ci _ body) as [ds|]];
      try discriminate; destruct (forallb is_digit ds) eqn:Hds; try discriminate;
      intros [= <-]; simpl; now apply digits_value_nonneg.
Qed.

Lemma digit_not_sign (c : ascii) : is_digit c = true -> char_eqb c "-" = false /\ char_eqb c "+" = false.
Proof. intros Hc. split; destruct (char_eqb c _) eqn:E; auto; apply Ascii.eqb_eq in E; subst; discriminate. Qed.

(** [Decimal()] of a text of plain characters that does not start with a
    sign, behind an optional minus sign. *)
Lemma decimal_of_text_sign (neg : bool) (c : ascii) (t : list ascii) :
  forallb plain_char (c :: t) = true -> char_eqb c "-" = false -> char_eqb c "+" = false ->
  decimal_of_text ((if neg then ["-"%char] else []) ++ c :: t) =
  match parse_numeral (c :: t) with
  | Some n => Ok (Finite neg (numeral_coeff n) (numeral_exp n))
  | None =>
      if is_keyword_ci (list_ascii_of_string "inf") (c :: t)
         || is_keyword_ci (list_ascii_of_string "infinity") (c :: t)
      then Ok (Infinity neg)
      else nan_of_text neg (c :: t)
  end.
Proof.
  intros Hp Hm Hplus. unfold decimal_of_text.
  assert (Hp' : forallb plain_char ((if neg then ["-"%char] else []) ++ c :: t) = true).
  { destruct neg; [|exact Hp].
    change (plain_char "-"%char && forallb plain_char (c :: t) = true). now rewrite Hp. }
  rewrite py_strip_plain, remove_underscores_plain by exact Hp'.
  destruct neg; cbn [app take_sign]; [reflexivity|]. now rewrite Hm, Hplus.
Qed.

(** [Decimal()] of a numeric literal of plain characters. *)
Lemma decimal_of_text_plain (neg : bool) (t : list ascii) (n : numeral) :
  forallb plain_char t = true -> is_digit (hd "0"%char t) = true -> parse_numeral t = Some n ->
  decimal_of_text ((if neg then ["-"%char] else []) ++ t) = Ok (Finite neg (numeral_coeff n) (numeral_exp n)).
Proof.
  intros Hp Hd Hn. destruct t as [|c t]; [discriminate|]. destruct (digit_not_sign c Hd).
  rewrite decimal_of_text_sign by assumption. now rewrite Hn.
Qed.

(** [Decimal('[-]digits.digits')] *)
Lemma decimal_of_text_point (neg : bool) (ip fp : list ascii) :
  ip <> [] -> fp <> [] -> forallb is_digit ip = true -> forallb is_digit fp = true ->
  decimal_of_text ((if neg then ["-"%char] else []) ++ ip ++ "."%char :: fp)
  = Ok (Finite neg (digits_value (ip ++ fp)) (- Z.of_nat (List.length fp))).
Proof.
  intros Hip Hfp Dip Dfp. destruct ip as [|a ip]; [congruence|].
  rewrite (decimal_of_text_plain neg _ (mk_numeral (a :: ip) fp 0)).
  - unfold numeral_coeff, numeral_exp. cbn [num_int num_frac num_exp]. now rewrite Z.sub_0_l.
  - rewrite forallb_app, (digits_plain _ Dip).
    change (forallb plain_char ("."%char :: fp)) with (plain_char "."%char && forallb plain_char fp).
    now rewrite (digits_plain _ Dfp).
  - cbn [hd app]. cbn [forallb] in Dip. now apply andb_prop in Dip as [].
  - apply parse_numeral_point; auto; discriminate.
Qed.

(** [Decimal(str(q))] gives [q] back for a value [q] quantized to cents. *)
Lemma decimal_of_currency_text (s : bool) (r : Z) :
  0 <= r -> decimal_of_text (currency_text s r) = Ok (Finite s r (-2)).
Proof.
  intros Hr. assert (Hq : 0 <= r / 100) by (apply Z.div_pos; lia).
  destruct (to_digits_spec (r / 100) Hq) as (Hne & Hall & _).
  destruct (digit_char_spec (r / 10 mod 10)) as [H1 _]; [apply Z.mod_pos_bound; lia|].
  destruct (digit_char_spec (r mod 10)) as [H0 _]; [apply Z.mod_pos_bound; lia|].
  unfold currency_text, cents_text. rewrite decimal_of_text_point; auto; try discriminate.
  - now rewrite cents_text_digits.
  - simpl. now rewrite H1, H0.
Qed.

(** ** [Decimal(str(d))] gives [d] back *)












(** [Decimal(str)] raises nothing but [InvalidOperation]. *)
Lemma decimal_of_text_err (l : list ascii) (x : exn) :
  decimal_of_text l = Err x -> x = InvalidOperation.
Proof.
  unfold decimal_of_text. destruct (take_sign _) as [sign body].
  destruct (parse_numeral body); [discriminate|].
  destruct (_ || _); [discriminate|]. unfold nan_of_text.
  destruct (strip_prefix_ci _ body) as [ds|]; [|destruct (strip_prefix_ci _ body) as [ds|]];
    try (destruct (forallb is_digit ds)); congruence.
Qed.

(** The payload [_fix_nan] keeps in the default context: its last 28 digits. *)
Definition nan_payload (p : Z) : Z := if 28 <? ndigits p then p mod 10 ^ 28 else p.

Lemma fix_nan_default (s : bool) (p : Z) (sig : bool) :
  fix_nan DefaultContext s p sig = if sig then SNaN s (nan_payload p) else NaN s (nan_payload p).
Proof. reflexivity. Qed.

Lemma nan_payload_idem (p : Z) : nan_payload (nan_payload p) = nan_payload p.
Proof.
  unfold nan_payload at 2 3. destruct (Z.ltb_spec 28 (ndigits p)) as [H|H].
  - unfold nan_payload. pose proof (Z.mod_pos_bound p (10 ^ 28) ltac:(lia)).
    rewrite (proj2 (Z.ltb_ge _ _)) by (apply ndigits_le; lia). reflexivity.
  - unfold nan_payload. rewrite (proj2 (Z.ltb_ge _ _) H). reflexivity.
Qed.

(** ** The exceptions the arithmetic raises *)

Ltac destruct_branches :=
  repeat match goal with
         | |- context [if ?b then _ else _] => destruct b
         | |- context [match ?x with _ => _ end] =>
             lazymatch x with
             | context [match _ with _ => _ end] => fail
             | _ => destruct x
             end
         end.

Lemma fix_finite_exn (ctx : context) (s : bool) (c e : Z) (x : exn) :
  fix_finite ctx s c e = Err x -> x = DecimalOverflow.
Proof. unfold fix_finite. destruct_branches; congruence. Qed.

Lemma mul_exn (ctx : context) (a b : decimal) (x : exn) :
  mul ctx a b = Err x -> x = InvalidOperation \/ x = DecimalOverflow.
Proof.
  unfold mul, check_nans. destruct a, b; cbn; destruct_branches; try congruence;
    intros H; try (injection H as <-; auto); right; eapply fix_finite_exn; eauto.
Qed.

Lemma quantize_exn (ctx : context) (a expd : decimal) (rnd : rounding) (x : exn) :
  quantize ctx a expd rnd = Err x -> x = InvalidOperation \/ x = DecimalOverflow.
Proof.
  unfold quantize, check_nans, fix_dec.
  destruct a, expd; cbn; destruct_branches; try congruence;
    intros H; try (injection H as <-; auto); right;
    match type of H with fix_finite _ _ _ _ = _ => eapply fix_finite_exn; eauto | _ => idtac end;
    destruct (rescale _ _ _); cbn in H; try congruence; eapply fix_finite_exn; eauto.
Qed.

(** ** Every result of the default context fits the context

    A value "fits" the context when its coefficient has at most [prec]
    digits, its exponent is at least [Etiny] and its adjusted exponent
    at most [Emax]; a NaN's payload has at most [prec] digits.  [_fix]
    establishes it, and so every operation that ends in [_fix]. *)
Definition in_context (ctx : context) (d : decimal) : Prop :=
  match d with
  | Finite _ c e => 0 <= c /\ ndigits c <= prec ctx /\ Etiny ctx <= e /\ e + ndigits c - 1 <= Emax ctx
  | NaN _ p | SNaN _ p => 0 <= p /\ ndigits p <= prec ctx
  | Infinity _ => True
  end.

Lemma div_pow10_nonneg (c k : Z) : 0 <= c -> 0 <= c / 10 ^ k.
Proof.
  intros Hc. destruct (Z.lt_ge_cases k 0).
  - rewrite Z.pow_neg_r, Z.div_0_r by lia. lia.
  - apply Z.div_pos; [lia | apply pow10_pos; lia].
Qed.

(** Keeping [digits] of the [len] digits of [c] gives at most
    [10^digits], and less when the decision is not to round up. *)
Lemma round_coeff_bound (mode : rounding) (s : bool) (c len digits : Z) :
  0 <= c < 10 ^ len -> 0 <= digits <= len ->
  0 <= fst (round_coeff mode s c len digits) <= 10 ^ digits /\
  (snd (round_coeff mode s c len digits) <= 0 -> fst (round_coeff mode s c len digits) < 10 ^ digits).
Proof.
  intros Hc Hd. unfold round_coeff. cbn [fst snd].
  pose proof (pow10_pos (len - digits) ltac:(lia)).
  assert (Hq : c / 10 ^ (len - digits) < 10 ^ digits).
  { apply Z.div_lt_upper_bound; [lia|]. rewrite <- Z.pow_add_r by lia.
    replace (len - digits + digits) with len by lia. lia. }
  pose proof (Z.div_pos c (10 ^ (len - digits)) ltac:(lia) ltac:(lia)).
  destruct (Z.ltb_spec 0 (round_decision mode s c (len - digits))); lia.
Qed.

Lemma ndigits_upper (c k : Z) : 0 <= c -> ndigits c <= k -> c < 10 ^ k.
Proof.
  intros Hc Hk. destruct (ndigits_bounds c Hc) as [Hup _].
  eapply Z.lt_le_trans; [exact Hup|]. apply Z.pow_le_mono_r; lia.
Qed.

Lemma fix_finite_in_context (s : bool) (c e : Z) (d : decimal) :
  0 <= c -> fix_finite DefaultContext s c e = Ok d -> in_context DefaultContext d.
Proof.
  intros Hc.
  assert (Hic : forall s' c' e', 0 <= c' -> ndigits c' <= 28 -> -1000026 <= e' -> e' + ndigits c' - 1 <= 999999 ->
                  in_context DefaultContext (Finite s' c' e'))
    by (intros; cbn [in_context]; rewrite Etiny_default; cbn; lia).
  unfold fix_finite. cbn [prec Emax Emin clamp rounding_mode DefaultContext].
  rewrite Etop_default, Etiny_default.
  destruct (Z.eqb_spec c 0) as [->|Hc0].
  { intros [= <-]. apply Hic; rewrite ?ndigits_zero; lia. }
  pose proof (ndigits_pos c Hc) as Hn1. destruct (ndigits_bounds c Hc) as [Hup _].
  destruct (Z.ltb_spec 999972 (ndigits c + e - 28)); [discriminate|]. cbv zeta.
  set (exp_min := if ndigits c + e - 28 <? -1000026 then -1000026 else ndigits c + e - 28).
  assert (Hem : -1000026 <= exp_min /\ ndigits c + e - 28 <= exp_min /\ exp_min <= 999972)
    by (unfold exp_min; destruct (Z.ltb_spec (ndigits c + e - 28) (-1000026)); lia).
  destruct (Z.ltb_spec e exp_min) as [He|He].
  2: { intros [= <-]. apply Hic; lia. }
  (* the rounded coefficient and its number of kept digits *)
  assert (Hk : exists c1 len1 digits, keep_digits c (ndigits c + e - exp_min) = (c1, len1, digits) /\
                 0 <= c1 < 10 ^ len1 /\ 0 <= digits <= len1 /\ digits <= 28).
  { unfold keep_digits. destruct (Z.ltb_spec (ndigits c + e - exp_min) 0).
    - exists 1, 1, 0. split; [reflexivity | cbn; lia].
    - exists c, (ndigits c), (ndigits c + e - exp_min). split; [reflexivity | lia]. }
  destruct Hk as (c1 & len1 & digits & -> & Hc1 & Hdg & Hd28).
  pose proof (round_coeff_bound (rounding_mode DefaultContext) s c1 len1 digits Hc1 Hdg) as [Hb Hch].
  destruct (round_coeff _ _ _ _ _) as [coeff changed]. cbn [fst snd] in Hb, Hch.
  assert (H28 : 10 ^ digits <= 10 ^ 28) by (apply Z.pow_le_mono_r; lia).
  destruct (Z.ltb_spec 0 changed) as [Hchg|Hchg]; destruct (Z.ltb_spec 28 (ndigits coeff)) as [Hnd|Hnd];
    cbn [andb].
  - (* the coefficient rounded up to [10^28] *)
    assert (Hcoeff : coeff = 10 ^ 28).
    { destruct (Z.eq_dec coeff (10 ^ 28)); [assumption|].
      pose proof (ndigits_le coeff 28 ltac:(lia) ltac:(lia)). lia. }
    destruct (Z.ltb_spec 999972 (exp_min + 1)); [discriminate|]. intros [= <-].
    rewrite Hcoeff. change (10 ^ 28 / 10) with (10 ^ 27). apply Hic; change (ndigits (10 ^ 27)) with 28; lia.
  - destruct (Z.ltb_spec 999972 exp_min); [discriminate|]. intros [= <-]. apply Hic; lia.
  - pose proof (Hch ltac:(lia)). pose proof (ndigits_le coeff 28 ltac:(lia) ltac:(lia)). lia.
  - destruct (Z.ltb_spec 999972 exp_min); [discriminate|]. intros [= <-]. apply Hic; lia.
Qed.

Lemma fix_nan_in_context (s : bool) (p : Z) (sig : bool) :
  0 <= p -> in_context DefaultContext (fix_nan DefaultContext s p sig).
Proof.
  intros Hp. rewrite fix_nan_default. unfold nan_payload.
  assert (H : 0 <= (if 28 <? ndigits p then p mod 10 ^ 28 else p) /\
              ndigits (if 28 <? ndigits p then p mod 10 ^ 28 else p) <= 28).
  { destruct (Z.ltb_spec 28 (ndigits p)).
    - pose proof (Z.mod_pos_bound p (10 ^ 28) ltac:(lia)). split; [lia | apply ndigits_le; lia].
    - split; lia. }
  destruct sig; exact H.
Qed.

Lemma rescale_wf (d : decimal) (exp : Z) (rnd : rounding) : wf_decimal d -> wf_decimal (rescale d exp rnd).
Proof.
  destruct d as [s c e| | |]; cbn [rescale]; try tauto. cbn [wf_decimal]. intros Hc.
  destruct (c =? 0); [cbn; lia|]. destruct (Z.leb_spec exp e); [cbn; pose proof (pow10_pos (e - exp)); nia|].
  destruct (keep_digits c (ndigits c + e - exp)) as [[c1 len1] digits] eqn:Hk.
  assert (0 <= c1) by (unfold keep_digits in Hk; destruct (_ <? 0); injection Hk; lia).
  cbn [wf_decimal fst round_coeff]. destruct (0 <? _); pose proof (div_pow10_nonneg c1 (len1 - digits) ltac:(lia)); lia.
Qed.

Lemma fix_dec_in_context (d d' : decimal) :
  wf_decimal d -> fix_dec DefaultContext d = Ok d' -> in_context DefaultContext d'.
Proof.
  destruct d as [s c e|s|s p|s p]; cbn [fix_dec wf_decimal]; intros Hw H.
  - eapply fix_finite_in_context; eassumption.
  - injection H as <-. exact I.
  - injection H as <-. exact (fix_nan_in_context s p false Hw).
  - injection H as <-. exact (fix_nan_in_context s p true Hw).
Qed.

(** A NaN result of [_check_nans], once [_fix_nan] is computed. *)
Local Ltac nan_in_context :=
  match goal with
  | |- in_context _ (NaN ?s (if _ then ?p mod _ else _)) => exact (fix_nan_in_context s p false ltac:(lia))
  | |- in_context _ (SNaN ?s (if _ then ?p mod _ else _)) => exact (fix_nan_in_context s p true ltac:(lia))
  | |- in_context _ (fix_nan _ ?s ?p ?b) => exact (fix_nan_in_context s p b ltac:(lia))
  end.

(** C20. The default context is closed under the operations the program
    uses: every result of [__mul__] and of [quantize] on well-formed
    operands has at most 28 digits and an exponent between [Etiny] and
    [Emax], and a NaN result at most 28 digits of payload. *)
Theorem default_context_closed (a b : decimal) (rnd : rounding) (d : decimal) :
  wf_decimal a -> wf_decimal b ->
  (mul DefaultContext a b = Ok d -> in_context DefaultContext d) /\
  (quantize DefaultContext a b rnd = Ok d -> in_context DefaultContext d).
Proof.
  intros Ha Hb. split.
  - unfold mul, check_nans.
    destruct a as [sa ca ea|sa|sa pa|sa pa], b as [sb cb eb|sb|sb pb|sb pb]; cbn [wf_decimal] in Ha, Hb;
      cbn [is_zero]; destruct_branches; intros H; try discriminate;
      first [ injection H as <-; first [exact I | nan_in_context]
            | eapply fix_finite_in_context; [| exact H]; nia ].
  - unfold quantize, check_nans.
    destruct a as [sa ca ea|sa|sa pa|sa pa], b as [sb cb eb|sb|sb pb|sb pb]; cbn [wf_decimal] in Ha, Hb;
      destruct_branches; intros H; try discriminate;
      first [ injection H as <-; first [exact I | nan_in_context]
            | eapply fix_finite_in_context; [| exact H]; lia
            | eapply fix_dec_in_context; [| exact H]; apply rescale_wf; cbn [wf_decimal]; lia ].
Qed.

Lemma default_context_closed_witness :
  mul DefaultContext (Finite false 2999 (-2)) (Finite false 87 (-2)) = Ok (Finite false 260913 (-4)) /\
  in_context DefaultContext (Finite false 260913 (-4)).
Proof.
  split; [vm_compute; reflexivity|].
  apply (proj1 (default_context_closed (Finite false 2999 (-2)) (Finite false 87 (-2)) ROUND_HALF_UP
                  (Finite false 260913 (-4)) ltac:(cbn; lia) ltac:(cbn; lia))).
  vm_compute. reflexivity.
Defined.


(** ** Quantizing to cents raises only [InvalidOperation] *)

Lemma rescale_exp (s : bool) (c e exp : Z) (rnd : rounding) :
  exists c', rescale (Finite s c e) exp rnd = Finite s c' exp.
Proof.
  cbn [rescale]. destruct (c =? 0); [eauto|]. destruct (exp <=? e); [eauto|].
  destruct (keep_digits c (ndigits c + e - exp)) as [[c1 len1] digits]. eauto.
Qed.

(** [quantize] to an exponent of the context's range never overflows: a
    result too long for the context is [InvalidOperation], and what passes
    that check fits. *)
Lemma quantize_default_exn (a : decimal) (ee : Z) (rnd : rounding) (x : exn) :
  wf_decimal a -> -1000026 <= ee <= 999999 ->
  quantize DefaultContext a (Finite false 1 ee) rnd = Err x -> x = InvalidOperation.
Proof.
  intros Ha Hee. unfold quantize, check_nans.
  destruct a as [s c e|s|s p|s p]; try (intros [= <-]; reflexivity).
  rewrite Etiny_default. change (Emax DefaultContext) with 999999. change (prec DefaultContext) with 28.
  rewrite (proj2 (Z.leb_le _ _) (proj1 Hee)), (proj2 (Z.leb_le _ _) (proj2 Hee)). cbn [andb negb].
  destruct (c =? 0) eqn:Hc0.
  - intros H. unfold fix_finite in H. rewrite Z.eqb_refl in H. discriminate H.
  - destruct (999999 <? adjusted (Finite s c e)); [intros [= <-]; reflexivity|].
    destruct (28 <? adjusted (Finite s c e) - ee + 1); [intros [= <-]; reflexivity|].
    pose proof (rescale_wf (Finite s c e) ee rnd Ha) as Hw.
    destruct (rescale_exp s c e ee rnd) as [c' Hr]. rewrite Hr in *. cbn [wf_decimal coeff_of adjusted fix_dec] in *.
    destruct (Z.ltb_spec 999999 (ee + ndigits c' - 1)); [intros [= <-]; reflexivity|].
    destruct (Z.ltb_spec 28 (ndigits c')); [intros [= <-]; reflexivity|].
    rewrite fix_finite_default_id by lia. discriminate.
Qed.
