(* ===== verification/Binary64.v ===== *)
(** * Python [float]: IEEE 754 binary64, and its conversions

    [after5] (lines 138-197 of [src/hm_discounts.py]) computes with Python
    floats: [float(str)], floor division [//] by the int [30], product by
    the int [5], subtraction, then [decimal.Decimal(float)].  Floats are
    the Standard Library's [spec_float] (the Gallina specification of IEEE
    754 arithmetic, from Flocq's [Binary] module) at [prec = 53],
    [emax = 1024], with round-to-nearest-even; the operations are
    [SFadd], [SFsub], [SFmul], [SFdiv].  What CPython adds on top is
    modelled from its C sources: [float_from_string_inner] with
    [_Py_string_to_number_with_underscores] and [_Py_dg_strtod] (a
    correctly rounded decimal-to-binary conversion), [_float_div_mod]
    for [//], and [Decimal.from_float]. *)

From Stdlib Require Import ZArith List String Ascii Bool Lia SpecFloat.
From S2P Require Import Prelude PyText Money PyDecimal.
Import ListNotations.
Local Open Scope Z_scope.
Local Open Scope bool_scope.

Abbreviation binary64 := spec_float.

Definition prec64 : Z := 53.
Definition emax64 : Z := 1024.

Definition f64_add : binary64 -> binary64 -> binary64 := SFadd prec64 emax64.
Definition f64_sub : binary64 -> binary64 -> binary64 := SFsub prec64 emax64.
Definition f64_mul : binary64 -> binary64 -> binary64 := SFmul prec64 emax64.
Definition f64_div : binary64 -> binary64 -> binary64 := SFdiv prec64 emax64.

(** The double nearest to the integer [n] (Python's int-to-float). *)
Definition f64_of_Z (n : Z) : binary64 := binary_normalize prec64 emax64 n 0 false.

(** C truthiness of a double: only the zeros are false, NaN is true. *)
Definition f64_truthy (x : binary64) : bool :=
  match x with S754_zero _ => false | _ => true end.

(** The sign bit, as [x < 0] reads it for the values it is applied to
    ([x < 0] is false on NaN and on [-0.0]). *)
Definition f64_is_neg (x : binary64) : bool := SFltb x (S754_zero false).

(** ** Correctly rounded decimal-to-binary conversion

    The double nearest to [(-1)^neg * m * 10^e], ties to even, as
    [_Py_dg_strtod] returns it.  Beyond [10^400] every value rounds to
    infinity and below [10^-400] to a zero, which the first two tests
    return without computing the huge power of ten. *)
Definition f64_of_decimal (neg : bool) (m e : Z) : binary64 :=
  if m =? 0 then S754_zero neg
  else if 400 <? e then S754_infinity neg
  else if ndigits m + e <? -400 then S754_zero neg
  else if 0 <=? e then binary_normalize prec64 emax64 (cond_Zopp neg (m * 10 ^ e)) 0 false
  else
    let '(mz, ez, lz) := SFdiv_core_binary prec64 emax64 m 0 (10 ^ (- e)) 0 in
    binary_round_aux prec64 emax64 neg mz ez lz.

(** ** [float(str)] *)

(** [_Py_string_to_number_with_underscores]: an underscore must follow a
    digit and precede a digit.  [prev] is the previous character, NUL at
    the start. *)
Fixpoint underscores_ok (prev : ascii) (l : list ascii) : bool :=
  match l with
  | [] => negb (char_eqb prev "_")
  | c :: r =>
      (if char_eqb c "_" then is_digit prev
       else if char_eqb prev "_" then is_digit c else true)
      && underscores_ok c r
  end.

(** [_Py_dg_strtod] saturates the exponent field at [MAX_ABS_EXP]. *)
Definition MAX_ABS_EXP : Z := 1100000000.

Definition float_of_text (value : list ascii) : result binary64 :=
  if negb (underscores_ok Ascii.zero value) then Err ValueError
  else
    let (neg, body) := take_sign (py_strip (remove_underscores value)) in
    match parse_numeral body with
    | Some n =>
        let e := Z.max (- MAX_ABS_EXP) (Z.min MAX_ABS_EXP (num_exp n)) in
        Ok (f64_of_decimal neg (numeral_coeff n) (e - Z.of_nat (List.length (num_frac n))))
    | None =>
        if is_keyword_ci (list_ascii_of_string "inf") body
           || is_keyword_ci (list_ascii_of_string "infinity") body
        then Ok (S754_infinity neg)
        else if is_keyword_ci (list_ascii_of_string "nan") body then Ok S754_nan
        else Err ValueError
    end.

Definition float (value : string) : result binary64 := float_of_text (list_ascii_of_string value).

(** ** C's [fmod] and [floor] on doubles (both exact) *)

(** The remainder of [x / y] truncated toward zero, with the sign of [x]. *)
Definition f64_fmod (x y : binary64) : binary64 :=
  match x, y with
  | S754_nan, _ | _, S754_nan => S754_nan
  | S754_infinity _, _ => S754_nan
  | _, S754_zero _ => S754_nan
  | S754_zero _, _ => x
  | S754_finite _ _ _, S754_infinity _ => x
  | S754_finite sx mx ex, S754_finite _ my ey =>
      let e := Z.min ex ey in
      let X := Zpos mx * 2 ^ (ex - e) in
      let Y := Zpos my * 2 ^ (ey - e) in
      let r := X mod Y in
      if r =? 0 then S754_zero sx
      else binary_normalize prec64 emax64 (cond_Zopp sx r) e false
  end.

Definition f64_floor (x : binary64) : binary64 :=
  match x with
  | S754_finite s m e =>
      if 0 <=? e then x
      else
        let q := cond_Zopp s (Zpos m) / 2 ^ (- e) in
        if q =? 0 then S754_zero false else binary_normalize prec64 emax64 q 0 false
  | _ => x
  end.

Definition f64_copysign_zero (y : binary64) : binary64 :=
  match y with
  | S754_zero s | S754_infinity s | S754_finite s _ _ => S754_zero s
  | S754_nan => S754_zero false
  end.

Definition f64_one : binary64 := f64_of_Z 1.
Definition f64_half : binary64 := f64_div f64_one (f64_of_Z 2).

(** ** [float.__floordiv__]: [_float_div_mod] of CPython

    [mod = fmod(vx, wx); div = (vx - mod) / wx]; when [mod] is nonzero
    and its sign differs from [wx]'s, [div -= 1.0]; then [div] is
    snapped to the nearest integer with [floor] and a correction, and a
    zero quotient takes the sign of [vx / wx].  The adjustment of [mod]
    itself is not part of the floor quotient and is left out. *)
Definition float_floordiv (vx wx : binary64) : result binary64 :=
  if negb (f64_truthy wx) then Err ZeroDivisionError
  else
    let md := f64_fmod vx wx in
    let div0 := f64_div (f64_sub vx md) wx in
    let div :=
      if f64_truthy md && xorb (f64_is_neg wx) (f64_is_neg md) then f64_sub div0 f64_one else div0 in
    if f64_truthy div then
      let floordiv := f64_floor div in
      Ok (if SFltb f64_half (f64_sub div floordiv) then f64_add floordiv f64_one else floordiv)
    else Ok (f64_copysign_zero (f64_div vx wx)).

(** ** [Decimal(float)]: [Decimal.from_float]

    [n, d = abs(f).as_integer_ratio(); k = d.bit_length() - 1] and the
    result is [(sign, str(n * 5**k), -k)]: exact.  Infinities and NaNs go
    through [repr], which drops the sign of a NaN. *)
Fixpoint pos_ctz (p : positive) : Z :=
  match p with xO p => 1 + pos_ctz p | _ => 0 end.

Definition decimal_from_float (f : binary64) : decimal :=
  match f with
  | S754_nan => NaN false 0
  | S754_infinity s => Infinity s
  | S754_zero s => Finite s 0 0
  | S754_finite s m e =>
      if 0 <=? e then Finite s (Zpos m * 2 ^ e) 0
      else
        let t := Z.min (pos_ctz m) (- e) in
        let k := - e - t in
        Finite s (Zpos m / 2 ^ t * 5 ^ k) (- k)
  end.

(** ** The exceptions the float operations raise *)

Lemma float_of_text_exn (l : list ascii) (x : exn) : float_of_text l = Err x -> x = ValueError.
Proof.
  unfold float_of_text. destruct (negb _); [congruence|].
  destruct (take_sign _) as [neg body]. destruct (parse_numeral body); [discriminate|].
  destruct (_ || _); [discriminate|]. destruct (is_keyword_ci _ body); congruence.
Qed.

Lemma float_floordiv_exn (vx wx : binary64) (x : exn) :
  float_floordiv vx wx = Err x -> x = ZeroDivisionError.
Proof.
  unfold float_floordiv. destruct (negb _); [congruence|].
  destruct (f64_truthy _); discriminate.
Qed.

(** ** [float()] of a plain digit string *)

Lemma underscores_ok_plain (prev : ascii) (l : list ascii) :
  char_eqb prev "_" = false -> forallb (fun c => negb (char_eqb c "_")) l = true ->
  underscores_ok prev l = true.
Proof.
  revert prev. induction l as [|c l IH]; intros prev Hp Hl; cbn [underscores_ok]; [now rewrite Hp|].
  cbn [forallb] in Hl. apply andb_prop in Hl as [Hc Hl]. apply negb_true_iff in Hc.
  rewrite Hc, Hp. cbn [andb]. apply IH; assumption.
Qed.

Lemma float_of_text_digits (l : list ascii) :
  l <> [] -> forallb is_digit l = true -> float_of_text l = Ok (f64_of_decimal false (digits_value l) 0).
Proof.
  intros Hne Hl. unfold float_of_text.
  rewrite underscores_ok_plain by (reflexivity || now apply digits_no_underscore). cbn [negb].
  rewrite digits_unsigned, parse_numeral_int by assumption.
  unfold numeral_coeff. cbn [num_int num_frac num_exp List.length]. rewrite app_nil_r. reflexivity.
Qed.

(** [float()] of a plain [digits.digits] literal with a nonempty
    fraction: the float nearest to its decimal value. *)
Lemma float_of_point_text (ip fp : list ascii) :
  ip <> [] -> fp <> [] -> forallb is_digit ip = true -> forallb is_digit fp = true ->
  float_of_text (ip ++ "."%char :: fp) =
  Ok (f64_of_decimal false (digits_value (ip ++ fp)) (- Z.of_nat (List.length fp))).
Proof.
  intros Hne Hfne Hip Hfp. destruct ip as [|c ip]; [congruence|].
  assert (Hu : forallb (fun c => negb (char_eqb c "_")) ((c :: ip) ++ "."%char :: fp) = true).
  { rewrite forallb_app. apply andb_true_intro. split; [now apply digits_no_underscore|].
    pose proof (digits_no_underscore _ Hfp) as Hd. cbn [forallb] in Hd |- *. rewrite Hd. reflexivity. }
  unfold float_of_text. rewrite underscores_ok_plain by (reflexivity || exact Hu). cbn [negb].
  rewrite <- app_comm_cons, plain_unsigned.
  - rewrite app_comm_cons, parse_numeral_point by (auto; discriminate). reflexivity.
  - cbn [forallb] in Hip. now apply andb_prop in Hip as [].
  - destruct (exists_last Hfne) as (fp' & z & ->). rewrite forallb_app in Hfp.
    apply andb_prop in Hfp as [_ Hz]. cbn [forallb] in Hz. rewrite andb_true_r in Hz.
    replace (c :: ip ++ "."%char :: fp' ++ [z]) with ((c :: ip ++ "."%char :: fp') ++ [z])
      by (cbn [app]; rewrite <- app_assoc; reflexivity).
    rewrite last_last. exact Hz.
  - rewrite app_comm_cons. exact Hu.
Qed.

(** [float()] of the currency text of [r] cents is the float nearest to
    [r / 100]. *)
Lemma float_of_currency_text (r : Z) :
  0 <= r -> float_of_text (currency_text false r) = Ok (f64_of_decimal false r (-2)).
Proof.
  intros Hr. assert (Hq : 0 <= r / 100) by (apply Z.div_pos; lia).
  destruct (to_digits_spec (r / 100) Hq) as (Hne & Hall & _).
  destruct (digit_char_spec (r / 10 mod 10)) as [H1 _]; [apply Z.mod_pos_bound; lia|].
  destruct (digit_char_spec (r mod 10)) as [H0 _]; [apply Z.mod_pos_bound; lia|].
  unfold currency_text, cents_text. cbn [app].
  rewrite float_of_point_text by (auto; try discriminate; cbn; now rewrite H1, H0).
  rewrite cents_text_digits by exact Hr. reflexivity.
Qed.

(** [float()] of an amount of [r] tenths typed ["d.d"]. *)
Lemma float_of_tenths_text (r : Z) :
  0 <= r -> float_of_text (tenths_text r) = Ok (f64_of_decimal false r (-1)).
Proof.
  intros Hr. assert (Hq : 0 <= r / 10) by (apply Z.div_pos; lia).
  destruct (to_digits_spec (r / 10) Hq) as (Hne & Hall & _).
  destruct (digit_char_spec (r mod 10)) as [H0 _]; [apply Z.mod_pos_bound; lia|].
  unfold tenths_text. rewrite float_of_point_text by (auto; try discriminate; cbn; now rewrite H0).
  rewrite tenths_text_digits by exact Hr. reflexivity.
Qed.

(** ** [Decimal(float)] and the floor division by a nonzero float *)

(** [Decimal(f)] of a finite [f] is [Decimal(abs(f))] with [f]'s sign. *)
Lemma decimal_from_float_sign (s : bool) (m : positive) (e : Z) :
  decimal_from_float (S754_finite s m e) =
  match decimal_from_float (S754_finite false m e) with Finite _ c t => Finite s c t | d => d end.
Proof. cbn [decimal_from_float]. destruct (0 <=? e); reflexivity. Qed.

Lemma pos_ctz_nonneg (p : positive) : 0 <= pos_ctz p.
Proof. induction p; cbn [pos_ctz]; lia. Qed.

Lemma decimal_from_float_wf (f : binary64) : wf_decimal (decimal_from_float f).
Proof.
  destruct f as [s|s| |s m e]; cbn [decimal_from_float wf_decimal]; try lia; try exact I.
  destruct (Z.leb_spec 0 e).
  - cbn [wf_decimal]. pose proof (Z.pow_nonneg 2 e ltac:(lia)). lia.
  - cbn [wf_decimal]. apply Z.mul_nonneg_nonneg; [apply Z.div_pos | apply Z.pow_nonneg]; try lia.
    apply Z.pow_pos_nonneg; [lia|]. pose proof (pos_ctz_nonneg m). lia.
Qed.

(** Floor division by a nonzero float never raises. *)
Lemma float_floordiv_ok (vx wx : binary64) :
  f64_truthy wx = true -> exists q, float_floordiv vx wx = Ok q.
Proof.
  intros H. unfold float_floordiv. rewrite H. cbn [negb]. cbv zeta.
  set (d := if f64_truthy (f64_fmod vx wx) && _ then _ else _). destruct (f64_truthy d); eexists; reflexivity.
Qed.

(** [float()] of [-digits]: the sign goes to the float. *)
Lemma float_of_text_neg_digits (l : list ascii) :
  l <> [] -> forallb is_digit l = true ->
  float_of_text ("-"%char :: l) = Ok (f64_of_decimal true (digits_value l) 0).
Proof.
  intros Hne Hl. assert (Hu : forallb (fun c => negb (char_eqb c "_")) ("-"%char :: l) = true)
    by (cbn [forallb]; rewrite (digits_no_underscore _ Hl); reflexivity).
  unfold float_of_text. rewrite underscores_ok_plain by (reflexivity || exact Hu). cbn [negb].
  rewrite remove_underscores_id, py_strip_keep by (exact Hu || reflexivity ||
    (destruct l as [|c r]; [congruence|]; apply digit_not_space; change (last ("-"%char :: c :: r) "-"%char)
       with (last (c :: r) "-"%char); apply last_forallb, Hl)).
  cbn [take_sign char_eqb Ascii.eqb Bool.eqb andb].
  rewrite parse_numeral_int by assumption.
  unfold numeral_coeff. cbn [num_int num_frac num_exp List.length]. rewrite app_nil_r. reflexivity.
Qed.
