(* ===== verification/FloatExact.v ===== *)
(** * Exact float operations: when [spec_float] arithmetic does not round

    The value of a float is [m * 2^e]; [f64_val x n k] says that the
    finite float [x] has the value [n * 2^k] (an integer [n] at scale
    [2^k]).  The rounding of [SpecFloat] ([binary_round_aux] after
    [shr_fexp]) is exact when the value has at most 53 significant bits
    at a scale at least [emin]: the lemmas below show it for
    [binary_normalize], [SFadd], [SFsub], [SFmul], [SFdiv], the model's
    [fmod] and [floor], and [Decimal(float)].  They are the library the
    theorems on [after5] rest on. *)

From Stdlib Require Import ZArith Bool Lia SpecFloat.
From S2P Require Import Prelude PyText PyDecimal Binary64.
Local Open Scope Z_scope.

(** ** Values of floats *)

Definition f64_val (x : binary64) (n k : Z) : Prop :=
  match x with
  | S754_zero _ => n = 0
  | S754_finite s m e => cond_Zopp s (Zpos m) * 2 ^ Z.max 0 (e - k) = n * 2 ^ Z.max 0 (k - e)
  | _ => False
  end.

(** The exponent of [x] is at most [k]: every result of an exact
    rounding at scale [k] has it. *)
Definition f64_exp_le (x : binary64) (k : Z) : Prop :=
  match x with S754_finite _ _ e => e <= k | _ => True end.

(** [x] has the value [n * 2^k] and an exponent at most [k]. *)
Definition f64_repr (x : binary64) (n k : Z) : Prop := f64_val x n k /\ f64_exp_le x k.

Definition emin64 : Z := emin prec64 emax64.

Lemma emin64_eq : emin64 = -1074.
Proof. reflexivity. Qed.

Lemma fexp64 (d : Z) : fexp prec64 emax64 d = Z.max (d - 53) (-1074).
Proof. reflexivity. Qed.

(** ** Binary digits *)

Lemma digits2_pos_size (p : positive) : digits2_pos p = Pos.size p.
Proof. induction p; simpl; congruence. Qed.

Lemma digits2_pos_log2 (p : positive) : Zpos (digits2_pos p) = Z.log2 (Zpos p) + 1.
Proof.
  rewrite digits2_pos_size. destruct p; simpl; try reflexivity; lia.
Qed.

Lemma Zdigits2_pos (m : Z) : 0 < m -> Zdigits2 m = Z.log2 m + 1.
Proof. destruct m as [|p|p]; intros; try lia. apply digits2_pos_log2. Qed.

Lemma Zdigits2_bounds (m : Z) : 0 < m -> 2 ^ (Zdigits2 m - 1) <= m < 2 ^ Zdigits2 m.
Proof.
  intros Hm. rewrite Zdigits2_pos by lia. replace (Z.log2 m + 1 - 1) with (Z.log2 m) by lia.
  rewrite Z.add_1_r. apply Z.log2_spec, Hm.
Qed.

(** Dividing by [2^n] removes [n] binary digits. *)
Lemma Zdigits2_shift (m n : Z) : 0 <= n -> 0 < m -> Zdigits2 (m * 2 ^ n) = Zdigits2 m + n.
Proof.
  intros Hn Hm. pose proof (Z.pow_pos_nonneg 2 n ltac:(lia) Hn).
  rewrite !Zdigits2_pos by nia. rewrite Z.log2_mul_pow2 by lia. lia.
Qed.

(** ** Shifting right without losing bits *)

Lemma iter_pos_nat {A : Type} (f : A -> A) (p : positive) (x : A) :
  iter_pos f p x = Nat.iter (Pos.to_nat p) f x.
Proof.
  revert x. induction p as [p IH|p IH|]; intros x; cbn [iter_pos].
  - rewrite !IH, <- Nat.iter_add. rewrite Pnat.Pos2Nat.inj_xI.
    rewrite Nat.iter_succ_r. f_equal. lia.
  - rewrite !IH, <- Nat.iter_add, Pnat.Pos2Nat.inj_xO. f_equal. lia.
  - reflexivity.
Qed.

Lemma shr_1_even (m : Z) : 0 <= m -> Z.even m = true ->
  shr_1 {| shr_m := m; shr_r := false; shr_s := false |} = {| shr_m := m / 2; shr_r := false; shr_s := false |}.
Proof.
  intros Hm He. destruct m as [|[p|p|]|p]; try reflexivity; try discriminate; try lia.
  simpl. f_equal. change (Zpos p~0) with (2 * Zpos p). rewrite Z.mul_comm, Z.div_mul; lia.
Qed.

Lemma shr_iter_exact (n : nat) (m : Z) : 0 <= m -> (2 ^ Z.of_nat n | m) ->
  Nat.iter n shr_1 {| shr_m := m; shr_r := false; shr_s := false |} =
  {| shr_m := m / 2 ^ Z.of_nat n; shr_r := false; shr_s := false |}.
Proof.
  revert m. induction n as [|n IH]; intros m Hm [q ->].
  - simpl. rewrite Z.div_1_r. reflexivity.
  - pose proof (Z.pow_pos_nonneg 2 (Z.of_nat n) ltac:(lia) ltac:(lia)).
    rewrite Nat2Z.inj_succ, Z.pow_succ_r in * by lia. rewrite Nat.iter_succ_r.
    rewrite shr_1_even by (try lia; apply Z.even_spec; exists (q * 2 ^ Z.of_nat n); ring).
    assert (E1 : q * (2 * 2 ^ Z.of_nat n) / 2 = q * 2 ^ Z.of_nat n)
      by (symmetry; apply Z.div_unique_exact; [lia | ring]).
    assert (E2 : q * (2 * 2 ^ Z.of_nat n) / (2 * 2 ^ Z.of_nat n) = q)
      by (symmetry; apply Z.div_unique_exact; [lia | ring]).
    rewrite E1, E2, IH by (try nia; exists q; reflexivity).
    rewrite Z.div_mul by lia. reflexivity.
Qed.

(** ** The rounding is exact on values with at most 53 significant bits *)

Lemma shr_exact (m e n : Z) : 0 <= m -> (2 ^ Z.max 0 n | m) ->
  shr {| shr_m := m; shr_r := false; shr_s := false |} e n =
  ({| shr_m := m / 2 ^ Z.max 0 n; shr_r := false; shr_s := false |}, e + Z.max 0 n).
Proof.
  intros Hm Hd. destruct n as [|p|p]; cbn [shr].
  - rewrite Z.div_1_r, Z.add_0_r. reflexivity.
  - change (Z.max 0 (Zpos p)) with (Zpos p) in *.
    rewrite iter_pos_nat, shr_iter_exact, positive_nat_Z; [reflexivity | lia | now rewrite positive_nat_Z].
  - rewrite Z.div_1_r, Z.add_0_r. reflexivity.
Qed.

(** [binary_round_aux] on an exact location: the mantissa loses the
    [fexp - e] low bits, which are zero. *)
Lemma round_aux_exact (s : bool) (m e : Z) :
  let e' := Z.max e (fexp prec64 emax64 (Zdigits2 m + e)) in
  0 < m -> (2 ^ (e' - e) | m) -> e' <= emax64 - prec64 ->
  binary_round_aux prec64 emax64 s m e loc_Exact = S754_finite s (Z.to_pos (m / 2 ^ (e' - e))) e'.
Proof.
  intros e' Hm Hd He'. unfold binary_round_aux, shr_fexp. cbn [shr_record_of_loc].
  assert (He : e' = Z.max e (fexp prec64 emax64 (Zdigits2 m + e))) by reflexivity. clearbody e'.
  assert (Hn : Z.max 0 (fexp prec64 emax64 (Zdigits2 m + e) - e) = e' - e) by lia.
  rewrite shr_exact by (lia || now rewrite Hn). rewrite Hn. cbn [shr_m loc_of_shr_record round_nearest_even].
  set (m' := m / 2 ^ (e' - e)).
  assert (Hm' : m = m' * 2 ^ (e' - e)) by (unfold m'; destruct Hd as [q ->]; rewrite Z.div_mul; [lia|];
    apply Z.pow_nonzero; lia).
  assert (Hpos : 0 < m') by (pose proof (Z.pow_pos_nonneg 2 (e' - e) ltac:(lia) ltac:(lia)); nia).
  assert (Hd' : Zdigits2 m' + (e + (e' - e)) = Zdigits2 m + e)
    by (rewrite Hm', Zdigits2_shift by lia; lia).
  rewrite shr_exact; [| lia | rewrite Hd'; replace (Z.max 0 _) with 0 by lia; apply Z.divide_1_l].
  rewrite Hd'. replace (Z.max 0 (fexp prec64 emax64 (Zdigits2 m + e) - (e + (e' - e)))) with 0 by lia.
  cbn [shr_m]. rewrite Z.div_1_r. replace (e + (e' - e) + 0) with e' by lia.
  destruct m' as [|p|p]; try lia. apply Z.leb_le in He'. rewrite He'. reflexivity.
Qed.

(** ** Changing the scale of a value *)

Lemma f64_val_scale (x : binary64) (n j k : Z) :
  k <= j -> f64_val x n j -> f64_val x (n * 2 ^ (j - k)) k.
Proof.
  destruct x as [s|s| |s m e]; cbn [f64_val]; try tauto; intros Hkj H; [subst; ring|].
  set (c := cond_Zopp s (Zpos m)) in *.
  destruct (Z.le_gt_cases j e); [| destruct (Z.le_gt_cases k e)].
  - rewrite (Z.max_r 0 (e - j)), (Z.max_l 0 (j - e)), Z.pow_0_r in H by lia.
    rewrite (Z.max_r 0 (e - k)), (Z.max_l 0 (k - e)), Z.pow_0_r by lia.
    replace (e - k) with ((e - j) + (j - k)) by lia. rewrite Z.pow_add_r by lia. nia.
  - rewrite (Z.max_l 0 (e - j)), (Z.max_r 0 (j - e)), Z.pow_0_r in H by lia.
    rewrite (Z.max_r 0 (e - k)), (Z.max_l 0 (k - e)), Z.pow_0_r by lia.
    replace (j - k) with ((j - e) + (e - k)) by lia. rewrite Z.pow_add_r by lia. nia.
  - rewrite (Z.max_l 0 (e - j)), (Z.max_r 0 (j - e)), Z.pow_0_r in H by lia.
    rewrite (Z.max_l 0 (e - k)), (Z.max_r 0 (k - e)), Z.pow_0_r by lia.
    replace (j - e) with ((j - k) + (k - e)) in H by lia. rewrite Z.pow_add_r in H by lia. nia.
Qed.

(** The rounding of a positive mantissa [m] at exponent [e] whose value
    [m * 2^e] is an integer [n] below [2^53] at a scale [k] in range. *)
Lemma round_aux_val (s : bool) (m e k : Z) :
  0 < m -> e <= k -> (2 ^ (k - e) | m) -> m < 2 ^ (k - e + 53) ->
  emin64 <= k -> k <= emax64 - prec64 ->
  f64_repr (binary_round_aux prec64 emax64 s m e loc_Exact) (cond_Zopp s (m / 2 ^ (k - e))) k.
Proof.
  intros Hm Hek Hd Hlt Hk1 Hk2. rewrite emin64_eq in Hk1.
  pose proof (Zdigits2_bounds m Hm) as [Hd1 _].
  assert (Hdig : Zdigits2 m <= k - e + 53).
  { destruct (Z.le_gt_cases (Zdigits2 m) (k - e + 53)) as [|Hc]; [lia|].
    assert (2 ^ (k - e + 53) <= 2 ^ (Zdigits2 m - 1)) by (apply Z.pow_le_mono_r; lia). lia. }
  set (e' := Z.max e (fexp prec64 emax64 (Zdigits2 m + e))).
  assert (He' : e <= e' <= k) by (unfold e'; rewrite fexp64; lia).
  destruct Hd as [q Hq].
  rewrite round_aux_exact; fold e'.
  - split; [|cbn [f64_exp_le]; lia]. cbn [f64_val]. rewrite (Z.max_l 0 (e' - k)), Z.pow_0_r by lia. rewrite (Z.max_r 0 (k - e')) by lia.
    replace (2 ^ (k - e)) with (2 ^ (k - e') * 2 ^ (e' - e)) in Hq |- *
      by (rewrite <- Z.pow_add_r by lia; f_equal; lia).
    assert (0 < 2 ^ (k - e')) by (apply Z.pow_pos_nonneg; lia).
    assert (0 < 2 ^ (e' - e)) by (apply Z.pow_pos_nonneg; lia).
    rewrite Hq, Z.mul_assoc, !Z.div_mul by lia.
    assert (0 < q * 2 ^ (k - e')) by nia.
    rewrite Z2Pos.id by lia.
    assert (Eq : q * 2 ^ (k - e') * 2 ^ (e' - e) / (2 ^ (k - e') * 2 ^ (e' - e)) = q)
      by (symmetry; apply Z.div_unique_exact; [nia | ring]).
    rewrite Eq. destruct s; cbn [cond_Zopp]; ring.
  - exact Hm.
  - exists (q * 2 ^ (k - e')). rewrite Hq, <- Z.mul_assoc, <- Z.pow_add_r by lia. f_equal. f_equal. lia.
  - unfold emax64, prec64 in *. lia.
Qed.

(** ** [binary_normalize] is exact on values with at most 53 bits *)

Lemma pos_iter_xO (p d : positive) : Zpos (Pos.iter xO p d) = Zpos p * 2 ^ Zpos d.
Proof.
  induction d as [|d IH] using Pos.peano_ind.
  - cbn. lia.
  - rewrite Pos.iter_succ, Pos2Z.inj_succ, Z.pow_succ_r by lia.
    change (Zpos (Pos.iter xO p d)~0) with (2 * Zpos (Pos.iter xO p d)). rewrite IH. ring.
Qed.

Lemma shl_align_spec (p : positive) (e f : Z) :
  let '(mz, e2) := shl_align p e f in e2 = Z.min e f /\ Zpos mz = Zpos p * 2 ^ (e - e2).
Proof.
  unfold shl_align. destruct (f - e) as [|d|d] eqn:E.
  - split; [lia|]. rewrite Z.sub_diag. ring.
  - split; [lia|]. rewrite Z.sub_diag. ring.
  - split; [lia|]. rewrite pos_iter_xO. do 2 f_equal. lia.
Qed.

Lemma pow2_pos (a : Z) : 0 <= a -> 0 < 2 ^ a.
Proof. intros. apply Z.pow_pos_nonneg; lia. Qed.

Lemma pow2_lt_inv (a b : Z) : 0 <= a -> 2 ^ a < 2 ^ b -> a < b.
Proof.
  intros Ha H. destruct (Z.lt_ge_cases a b) as [|Hba]; [assumption|].
  destruct (Z.lt_ge_cases b 0).
  - rewrite (Z.pow_neg_r 2 b) in H by lia. pose proof (pow2_pos a Ha). lia.
  - pose proof (Z.pow_le_mono_r 2 b a ltac:(lia) Hba). lia.
Qed.

(** [binary_round] of a positive mantissa whose value is [N * 2^k]. *)
Lemma binary_round_val (s : bool) (p : positive) (ez N k : Z) :
  Zpos p * 2 ^ Z.max 0 (ez - k) = N * 2 ^ Z.max 0 (k - ez) -> N < 2 ^ 53 ->
  emin64 <= k -> k <= emax64 - prec64 ->
  f64_repr (binary_round prec64 emax64 s p ez) (cond_Zopp s N) k.
Proof.
  intros Hx HN Hk1 Hk2. unfold binary_round.
  pose proof (shl_align_spec p ez (fexp prec64 emax64 (Zpos (digits2_pos p) + ez))) as Hs.
  destruct (shl_align _ _ _) as [mz ez2]. destruct Hs as [He2 Hmz].
  change (Zpos (digits2_pos p)) with (Zdigits2 (Zpos p)) in He2.
  pose proof (Zdigits2_bounds (Zpos p) ltac:(lia)) as [Hd _].
  assert (Hd1 : 1 <= Zdigits2 (Zpos p))
    by (rewrite Zdigits2_pos by lia; pose proof (Z.log2_nonneg (Zpos p)); lia).
  rewrite fexp64 in He2. unfold emin64 in Hk1. change (emin prec64 emax64) with (-1074) in Hk1.
  assert (Hfac : ez2 <= k /\ Zpos mz = N * 2 ^ (k - ez2)).
  { destruct (Z.le_gt_cases ez k).
    - rewrite (Z.max_l 0 (ez - k)), (Z.max_r 0 (k - ez)), Z.pow_0_r, Z.mul_1_r in Hx by lia.
      assert (HN0 : 0 < N) by (pose proof (pow2_pos (k - ez) ltac:(lia)); nia).
      assert (Zdigits2 (Zpos p) - 1 < 53 + (k - ez)).
      { apply pow2_lt_inv; [lia|]. rewrite Z.pow_add_r by lia.
        pose proof (pow2_pos (k - ez) ltac:(lia)). nia. }
      split; [lia|]. rewrite Hmz, Hx, <- Z.mul_assoc, <- Z.pow_add_r by lia. do 2 f_equal. lia.
    - rewrite (Z.max_r 0 (ez - k)), (Z.max_l 0 (k - ez)), Z.pow_0_r, Z.mul_1_r in Hx by lia.
      assert (Zdigits2 (Zpos p) - 1 + (ez - k) < 53).
      { apply pow2_lt_inv; [lia|]. rewrite Z.pow_add_r by lia.
        pose proof (pow2_pos (ez - k) ltac:(lia)). nia. }
      split; [lia|]. rewrite Hmz, <- Hx, <- Z.mul_assoc, <- Z.pow_add_r by lia. do 2 f_equal. lia. }
  destruct Hfac as [Hle Heq].
  assert (HN0 : 0 < N) by (pose proof (pow2_pos (k - ez2) ltac:(lia)); nia).
  assert (Hq : Zpos mz / 2 ^ (k - ez2) = N)
    by (rewrite Heq, Z.div_mul; [reflexivity|]; pose proof (pow2_pos (k - ez2) ltac:(lia)); lia).
  rewrite <- Hq.
  apply round_aux_val; try lia.
  - exists N. exact Heq.
  - rewrite Heq, Z.pow_add_r by lia. pose proof (pow2_pos (k - ez2) ltac:(lia)). nia.
  - unfold emin64. change (emin prec64 emax64) with (-1074). lia.
Qed.

Lemma normalize_repr (D ez n k : Z) :
  D * 2 ^ Z.max 0 (ez - k) = n * 2 ^ Z.max 0 (k - ez) -> Z.abs n < 2 ^ 53 ->
  emin64 <= k -> k <= emax64 - prec64 ->
  f64_repr (binary_normalize prec64 emax64 D ez false) n k.
Proof.
  intros Hx Hn Hk1 Hk2. destruct D as [|p|p]; cbn [binary_normalize].
  - split; [|exact I]. cbn [f64_val]. pose proof (pow2_pos (Z.max 0 (k - ez)) ltac:(lia)). nia.
  - replace n with (cond_Zopp false n) by reflexivity. apply binary_round_val; [exact Hx | lia | lia | lia].
  - replace n with (cond_Zopp true (- n)) by (cbn; lia). apply binary_round_val; [| lia | lia | lia].
    change (Zneg p) with (- Zpos p) in Hx. rewrite Z.mul_opp_l in *. lia.
Qed.

(** ** Values at a common scale *)

Lemma cross_lower (a e b k L : Z) : L <= e -> L <= k ->
  (a * 2 ^ Z.max 0 (e - k) = b * 2 ^ Z.max 0 (k - e) <-> a * 2 ^ (e - L) = b * 2 ^ (k - L)).
Proof.
  intros He Hk. destruct (Z.le_gt_cases e k) as [Hek | Hek].
  - rewrite (Z.max_l 0 (e - k)), (Z.max_r 0 (k - e)), Z.pow_0_r, Z.mul_1_r by lia.
    replace (k - L) with ((k - e) + (e - L)) by lia. rewrite Z.pow_add_r by lia.
    split; intros H; [rewrite H; ring|].
    apply (Z.mul_cancel_r _ _ (2 ^ (e - L))); [pose proof (pow2_pos (e - L) ltac:(lia)); lia|]. rewrite H. ring.
  - rewrite (Z.max_r 0 (e - k)), (Z.max_l 0 (k - e)), Z.pow_0_r, Z.mul_1_r by lia.
    replace (e - L) with ((e - k) + (k - L)) by lia. rewrite Z.pow_add_r by lia.
    split; intros H; [rewrite <- H; ring|].
    apply (Z.mul_cancel_r _ _ (2 ^ (k - L))); [pose proof (pow2_pos (k - L) ltac:(lia)); lia|]. rewrite <- H. ring.
Qed.

Lemma cond_Zopp_mul (s : bool) (a b : Z) : cond_Zopp s (a * b) = cond_Zopp s a * b.
Proof. destruct s; cbn; ring. Qed.

Lemma cond_Zopp_negb (s : bool) (a : Z) : cond_Zopp (negb s) a = - cond_Zopp s a.
Proof. destruct s; cbn; lia. Qed.

Lemma shl_align_fst (p : positive) (e f : Z) : f <= e -> Zpos (fst (shl_align p e f)) = Zpos p * 2 ^ (e - f).
Proof.
  intros Hf. pose proof (shl_align_spec p e f) as Hs. destruct (shl_align p e f) as [mz e2].
  destruct Hs as [-> Hs]. cbn [fst]. rewrite Hs. do 2 f_equal. lia.
Qed.

(** ** Exact subtraction *)

(** Two finite floats: the difference is computed at the smaller
    exponent and normalised once, exactly when it has at most 53 bits. *)
Lemma f64_sub_finite_repr (sx sy : bool) (mx my : positive) (ex ey n1 n2 k : Z) :
  f64_val (S754_finite sx mx ex) n1 k -> f64_val (S754_finite sy my ey) n2 k ->
  Z.abs (n1 - n2) < 2 ^ 53 -> emin64 <= k -> k <= emax64 - prec64 ->
  f64_repr (f64_sub (S754_finite sx mx ex) (S754_finite sy my ey)) (n1 - n2) k.
Proof.
  intros Hx Hy Hn Hk1 Hk2. cbn [f64_val] in Hx, Hy. unfold f64_sub. cbn [SFsub].
  set (ez := Z.min ex ey). apply normalize_repr; try assumption.
  rewrite !shl_align_fst by lia.
  set (L := Z.min ez k).
  rewrite (cross_lower _ _ _ _ L) in Hx by lia. rewrite (cross_lower _ _ _ _ L) in Hy by lia.
  rewrite (cross_lower _ _ _ _ L) by lia.
  replace (ex - L) with ((ex - ez) + (ez - L)) in Hx by lia.
  replace (ey - L) with ((ey - ez) + (ez - L)) in Hy by lia.
  rewrite Z.pow_add_r in Hx, Hy by lia. rewrite !cond_Zopp_mul. nia.
Qed.

Lemma f64_sub_val (x y : binary64) (n1 n2 k : Z) :
  f64_val x n1 k -> f64_val y n2 k -> Z.abs (n1 - n2) < 2 ^ 53 ->
  emin64 <= k -> k <= emax64 - prec64 ->
  f64_val (f64_sub x y) (n1 - n2) k.
Proof.
  intros Hx Hy Hn Hk1 Hk2.
  destruct x as [sx|sx| |sx mx ex]; try contradiction; destruct y as [sy|sy| |sy my ey]; try contradiction;
    [cbn [f64_val] in Hx, Hy; unfold f64_sub ..| apply f64_sub_finite_repr; assumption].
  - destruct sx, sy; cbn; lia.
  - cbn [SFsub f64_val]. subst n1. rewrite cond_Zopp_negb. lia.
  - cbn [SFsub f64_val]. subst n2. rewrite Z.sub_0_r. exact Hx.
Qed.

Lemma cond_Zopp_xorb (s t : bool) (a : Z) : cond_Zopp (xorb s t) a = cond_Zopp s (cond_Zopp t a).
Proof. destruct s, t; cbn; lia. Qed.

Lemma cond_Zopp_invol (s : bool) (a : Z) : cond_Zopp s (cond_Zopp s a) = a.
Proof. destruct s; cbn; lia. Qed.

Lemma f64_val_zero (x : binary64) (k : Z) : f64_val x 0 k -> exists s, x = S754_zero s.
Proof.
  destruct x as [s|s| |s m e]; cbn [f64_val]; try tauto; [eauto|].
  intros H. exfalso. rewrite Z.mul_0_l in H. apply Z.mul_eq_0 in H as [H|H].
  - destruct s; cbn in H; lia.
  - pose proof (pow2_pos (Z.max 0 (e - k)) ltac:(lia)). lia.
Qed.

(** The rounding of an exact positive mantissa [m = N * 2^(k - e)]. *)
Lemma round_aux_repr (s : bool) (m e k N : Z) :
  m = N * 2 ^ (k - e) -> 0 < m -> e <= k -> N < 2 ^ 53 ->
  emin64 <= k -> k <= emax64 - prec64 ->
  f64_repr (binary_round_aux prec64 emax64 s m e loc_Exact) (cond_Zopp s N) k.
Proof.
  intros Hm Hpos Hek HN Hk1 Hk2. pose proof (pow2_pos (k - e) ltac:(lia)).
  replace N with (m / 2 ^ (k - e)) by (rewrite Hm, Z.div_mul; lia).
  apply round_aux_val; try lia.
  - exists N. exact Hm.
  - rewrite Z.pow_add_r by lia. nia.
Qed.

(** ** Exact multiplication *)

Lemma f64_mul_repr (x y : binary64) (n1 n2 k1 k2 : Z) :
  f64_repr x n1 k1 -> f64_repr y n2 k2 -> Z.abs (n1 * n2) < 2 ^ 53 ->
  emin64 <= k1 + k2 -> k1 + k2 <= emax64 - prec64 ->
  f64_repr (f64_mul x y) (n1 * n2) (k1 + k2).
Proof.
  intros [Hx Ex] [Hy Ey] Hn Hk1 Hk2. unfold f64_mul.
  destruct x as [sx|sx| |sx mx ex]; try contradiction; destruct y as [sy|sy| |sy my ey]; try contradiction;
    cbn [f64_val f64_exp_le] in Hx, Hy, Ex, Ey; cbn [SFmul];
    try (split; [cbn [f64_val]; subst; ring | exact I]).
  rewrite (Z.max_l 0 (ex - k1)), (Z.max_r 0 (k1 - ex)), Z.pow_0_r, Z.mul_1_r in Hx by lia.
  rewrite (Z.max_l 0 (ey - k2)), (Z.max_r 0 (k2 - ey)), Z.pow_0_r, Z.mul_1_r in Hy by lia.
  set (N := cond_Zopp (xorb sx sy) (n1 * n2)).
  replace (n1 * n2) with (cond_Zopp (xorb sx sy) N) by apply cond_Zopp_invol.
  assert (Hm : Zpos (mx * my) = N * 2 ^ (k1 + k2 - (ex + ey))).
  { unfold N. rewrite cond_Zopp_xorb, Pos2Z.inj_mul.
    replace (k1 + k2 - (ex + ey)) with ((k1 - ex) + (k2 - ey)) by lia. rewrite Z.pow_add_r by lia.
    rewrite <- (cond_Zopp_invol sx (Zpos mx)), <- (cond_Zopp_invol sy (Zpos my)), Hx, Hy.
    destruct sx, sy; cbn [cond_Zopp xorb]; ring. }
  apply round_aux_repr; try lia.
  pose proof (pow2_pos (k1 + k2 - (ex + ey)) ltac:(lia)).
  assert (0 <= N) by nia. unfold N in *. destruct (xorb sx sy); cbn [cond_Zopp] in *; lia.
Qed.

(** ** Exact division with an integer quotient *)

Lemma div_eucl_div_mod (a b : Z) : Z.div_eucl a b = (a / b, a mod b).
Proof. unfold Z.div, Z.modulo. destruct (Z.div_eucl a b). reflexivity. Qed.

Lemma new_location_exact (n : Z) : new_location n 0 = loc_Exact.
Proof. unfold new_location, new_location_even, new_location_odd. destruct (Z.even n); reflexivity. Qed.

(** The quotient of [m1 * 2^e1] by [m2 * 2^e2] is the integer [N]: the
    core of [SFdiv] computes it without remainder, at an exponent [e'] of
    at most 0. *)
Lemma div_core_exact (m1 e1 m2 e2 N L : Z) :
  0 < m1 -> 0 < m2 -> 0 < N < 2 ^ 52 -> L <= e1 -> L <= e2 ->
  m1 * 2 ^ (e1 - L) = N * m2 * 2 ^ (e2 - L) ->
  let e' := Z.min (fexp prec64 emax64 (Zdigits2 m1 + e1 - (Zdigits2 m2 + e2))) (e1 - e2) in
  e' <= 0 /\ SFdiv_core_binary prec64 emax64 m1 e1 m2 e2 = (N * 2 ^ (- e'), e', loc_Exact).
Proof.
  intros H1 H2 HN He1 He2 Hkey e'.
  pose proof (Zdigits2_bounds m1 H1) as [Hd1 _]. pose proof (Zdigits2_bounds m2 H2) as [_ Hd2].
  assert (Hdl : 1 <= Zdigits2 m1) by (rewrite Zdigits2_pos by lia; pose proof (Z.log2_nonneg m1); lia).
  assert (Hdl2 : 1 <= Zdigits2 m2) by (rewrite Zdigits2_pos by lia; pose proof (Z.log2_nonneg m2); lia).
  assert (Hdig : Zdigits2 m1 - 1 + (e1 - L) < 52 + Zdigits2 m2 + (e2 - L)).
  { apply pow2_lt_inv; [lia|]. rewrite !Z.pow_add_r by lia.
    pose proof (pow2_pos (e1 - L) ltac:(lia)). pose proof (pow2_pos (e2 - L) ltac:(lia)).
    pose proof (pow2_pos (Zdigits2 m1 - 1) ltac:(lia)).
    assert (2 ^ (Zdigits2 m1 - 1) * 2 ^ (e1 - L) <= m1 * 2 ^ (e1 - L)) by nia.
    assert (N * m2 < 2 ^ 52 * 2 ^ Zdigits2 m2) by nia.
    assert (N * m2 * 2 ^ (e2 - L) < 2 ^ 52 * 2 ^ Zdigits2 m2 * 2 ^ (e2 - L))
      by (apply Z.mul_lt_mono_pos_r; lia). lia. }
  assert (He' : e' <= 0 /\ e' <= e1 - e2) by (unfold e'; rewrite fexp64; lia).
  split; [lia|]. unfold SFdiv_core_binary. fold e'.
  assert (Hs : 0 <= e1 - e2 - e') by lia.
  replace (match e1 - e2 - e' with Zpos _ => Z.shiftl m1 (e1 - e2 - e') | Z0 => m1 | Zneg _ => 0 end)
    with (m1 * 2 ^ (e1 - e2 - e'))
    by (destruct (e1 - e2 - e') eqn:E; [rewrite Z.mul_1_r; reflexivity
        | rewrite Z.shiftl_mul_pow2; [reflexivity | lia] | lia]).
  assert (Hm' : m1 * 2 ^ (e1 - e2 - e') = N * 2 ^ (- e') * m2).
  { apply (Z.mul_cancel_r _ _ (2 ^ (e2 - L))); [pose proof (pow2_pos (e2 - L) ltac:(lia)); lia|].
    rewrite <- Z.mul_assoc, <- Z.pow_add_r by lia.
    replace (e1 - e2 - e' + (e2 - L)) with ((e1 - L) + - e') by lia.
    rewrite Z.pow_add_r, Z.mul_assoc, Hkey by lia. ring. }
  rewrite div_eucl_div_mod, Hm', Z.div_mul, Z.mod_mul, new_location_exact by lia. reflexivity.
Qed.

Lemma f64_div_repr (x y : binary64) (n1 n2 q k : Z) :
  f64_val x n1 k -> f64_val y n2 k -> n2 <> 0 -> n1 = q * n2 -> Z.abs q < 2 ^ 52 ->
  f64_repr (f64_div x y) q 0.
Proof.
  intros Hx Hy Hn2 Hq Hqb. unfold f64_div.
  destruct (Z.eq_dec q 0) as [->|Hq0].
  - rewrite Z.mul_0_l in Hq. subst n1. destruct (f64_val_zero x k Hx) as [sx ->].
    destruct y as [sy|sy| |sy my ey]; cbn [f64_val] in Hy; try contradiction;
      cbn [SFdiv]; split; reflexivity || exact I.
  - destruct x as [sx|sx| |sx mx ex]; cbn [f64_val] in Hx; try contradiction;
      [exfalso; subst n1; symmetry in Hq; apply Z.mul_eq_0 in Hq as [|]; contradiction|].
    destruct y as [sy|sy| |sy my ey]; cbn [f64_val] in Hy; try contradiction.
    cbn [SFdiv].
    set (L := Z.min (Z.min ex ey) k).
    rewrite (cross_lower _ _ _ _ L) in Hx by lia. rewrite (cross_lower _ _ _ _ L) in Hy by lia.
    set (N := cond_Zopp (xorb sx sy) q).
    assert (Hkey : Zpos mx * 2 ^ (ex - L) = N * Zpos my * 2 ^ (ey - L)).
    { assert (H1 : cond_Zopp sx (Zpos mx) * 2 ^ (ex - L) = q * (cond_Zopp sy (Zpos my) * 2 ^ (ey - L)))
        by (rewrite Hx, Hy, Hq; ring).
      unfold N. destruct sx, sy; cbn [cond_Zopp xorb] in *; nia. }
    assert (HN : 0 < N).
    { pose proof (pow2_pos (ex - L) ltac:(lia)). pose proof (pow2_pos (ey - L) ltac:(lia)). nia. }
    assert (HNa : Z.abs N = Z.abs q) by (unfold N; destruct (xorb sx sy); cbn [cond_Zopp]; lia).
    destruct (div_core_exact (Zpos mx) ex (Zpos my) ey N L) as [He' ->]; try lia.
    replace q with (cond_Zopp (xorb sx sy) N) by apply cond_Zopp_invol.
    apply round_aux_repr; try lia.
    + reflexivity.
    + rewrite emin64_eq. lia.
    + unfold emax64, prec64. lia.
Qed.

(** ** Signs *)

Lemma f64_val_finite_sign (s : bool) (m : positive) (e n k : Z) :
  f64_val (S754_finite s m e) n k -> 0 <= n -> s = false.
Proof.
  cbn [f64_val]. intros H Hn. destruct s; [exfalso|reflexivity]. cbn [cond_Zopp] in H.
  pose proof (pow2_pos (Z.max 0 (e - k)) ltac:(lia)). pose proof (pow2_pos (Z.max 0 (k - e)) ltac:(lia)).
  nia.
Qed.

(** A positive rounding never yields a negative zero. *)
Lemma copysign_round_aux_pos (m e : Z) (l : location) :
  f64_copysign_zero (binary_round_aux prec64 emax64 false m e l) = S754_zero false.
Proof.
  unfold binary_round_aux. destruct (shr_fexp _ _ _ _ _) as [mrs' e'].
  destruct (shr_fexp _ _ _ _ _) as [mrs'' e'']. destruct (shr_m mrs'') as [|p|p]; try reflexivity.
  destruct (_ <=? _); reflexivity.
Qed.

(** ** The remainder [fmod] *)

Lemma mod_cross (a b c d P Q : Z) :
  0 < b -> 0 < d -> 0 < P -> 0 < Q -> (P = 1 \/ Q = 1) ->
  a * P = c * Q -> b * P = d * Q -> a mod b * P = c mod d * Q.
Proof.
  intros Hb Hd HP HQ [-> | ->] H1 H2; rewrite Z.mul_1_r in *.
  - subst a b. rewrite Z.mul_mod_distr_r; lia.
  - subst c d. rewrite Z.mul_mod_distr_r; lia.
Qed.

(** [fmod(x, y)] is the remainder of the quotient truncated toward zero,
    with the sign of [x]: [Z.rem]. *)
Lemma f64_fmod_rem (x y : binary64) (n1 n2 k : Z) :
  f64_val x n1 k -> f64_val y n2 k -> Z.abs n1 < 2 ^ 53 -> 0 < n2 ->
  emin64 <= k -> k <= emax64 - prec64 ->
  f64_val (f64_fmod x y) (Z.rem n1 n2) k.
Proof.
  intros Hx Hy Hn1 Hn2 Hk1 Hk2.
  destruct y as [sy|sy| |sy my ey]; cbn [f64_val] in Hy; try contradiction; [lia|].
  pose proof (f64_val_finite_sign _ _ _ _ _ Hy ltac:(lia)) as ->.
  destruct x as [sx|sx| |sx mx ex]; try contradiction.
  - cbn [f64_val] in Hx |- *. subst n1. reflexivity.
  - cbn [f64_val cond_Zopp] in Hx, Hy. cbn [f64_fmod].
    set (a := cond_Zopp sx n1).
    assert (Hn1a : n1 = cond_Zopp sx a) by (unfold a; rewrite cond_Zopp_invol; reflexivity).
    set (e := Z.min ex ey). set (L := Z.min e k).
    rewrite (cross_lower _ _ _ _ L) in Hx by lia. rewrite (cross_lower _ _ _ _ L) in Hy by lia.
    assert (HX : Zpos mx * 2 ^ (ex - e) * 2 ^ (e - L) = a * 2 ^ (k - L)).
    { rewrite <- Z.mul_assoc, <- Z.pow_add_r by lia. replace (ex - e + (e - L)) with (ex - L) by lia.
      rewrite <- (cond_Zopp_invol sx (Zpos mx)), <- cond_Zopp_mul, Hx. unfold a. apply cond_Zopp_mul. }
    assert (HY : Zpos my * 2 ^ (ey - e) * 2 ^ (e - L) = n2 * 2 ^ (k - L))
      by (rewrite <- Z.mul_assoc, <- Z.pow_add_r by lia; rewrite <- Hy; do 2 f_equal; lia).
    pose proof (pow2_pos (ex - e) ltac:(lia)). pose proof (pow2_pos (ey - e) ltac:(lia)).
    pose proof (pow2_pos (e - L) ltac:(lia)). pose proof (pow2_pos (k - L) ltac:(lia)).
    assert (Ha : 0 <= a) by nia.
    assert (Hrem : Z.rem n1 n2 = cond_Zopp sx (a mod n2)).
    { rewrite Hn1a, <- Z.rem_mod_nonneg by lia. destruct sx; cbn [cond_Zopp]; [apply Z.rem_opp_l|]; lia. }
    assert (HR : (Zpos mx * 2 ^ (ex - e)) mod (Zpos my * 2 ^ (ey - e)) * 2 ^ (e - L) = a mod n2 * 2 ^ (k - L)).
    { apply mod_cross; try nia. unfold L. destruct (Z.le_gt_cases e k).
      - left. rewrite Z.min_l, Z.sub_diag by lia. reflexivity.
      - right. rewrite Z.min_r, Z.sub_diag by lia. reflexivity. }
    rewrite Hrem.
    destruct (Z.eqb_spec ((Zpos mx * 2 ^ (ex - e)) mod (Zpos my * 2 ^ (ey - e))) 0) as [Hr0|Hr0].
    + cbn [f64_val]. rewrite Hr0 in HR. assert (a mod n2 = 0) as -> by nia. destruct sx; reflexivity.
    + apply normalize_repr; [| | lia | lia].
      * rewrite (cross_lower _ _ _ _ L) by lia. rewrite <- !cond_Zopp_mul, HR. reflexivity.
      * pose proof (Z.mod_pos_bound a n2 Hn2). pose proof (Z.mod_le a n2 Ha Hn2).
        assert (Z.abs a = Z.abs n1) by (unfold a; destruct sx; cbn [cond_Zopp]; lia).
        destruct sx; cbn [cond_Zopp]; lia.
Qed.

Lemma f64_fmod_val (x y : binary64) (n1 n2 k : Z) :
  f64_val x n1 k -> f64_val y n2 k -> 0 <= n1 < 2 ^ 53 -> 0 < n2 ->
  emin64 <= k -> k <= emax64 - prec64 ->
  f64_val (f64_fmod x y) (n1 mod n2) k.
Proof.
  intros Hx Hy Hn1 Hn2 Hk1 Hk2. rewrite <- Z.rem_mod_nonneg by lia.
  apply f64_fmod_rem; auto; lia.
Qed.

(** ** [floor] of an integral value *)

Lemma f64_floor_repr (x : binary64) (n : Z) :
  f64_repr x n 0 -> Z.abs n < 2 ^ 53 -> f64_repr (f64_floor x) n 0.
Proof.
  intros [Hx Ex] Hn. destruct x as [s|s| |s m e]; try contradiction; cbn [f64_floor]; [split; assumption|].
  cbn [f64_exp_le] in Ex. cbn [f64_val] in Hx.
  destruct (Z.leb_spec 0 e); [split; assumption|].
  rewrite (Z.max_l 0 (e - 0)), (Z.max_r 0 (0 - e)), Z.pow_0_r, Z.mul_1_r in Hx by lia.
  pose proof (pow2_pos (0 - e) ltac:(lia)).
  replace (cond_Zopp s (Zpos m) / 2 ^ (- e)) with n by (rewrite Hx, Z.div_mul; [reflexivity | lia]).
  destruct (Z.eqb_spec n 0) as [->|Hn0]; [split; [reflexivity | exact I]|].
  apply normalize_repr; [| lia | rewrite emin64_eq; lia | unfold emax64, prec64; lia]. reflexivity.
Qed.

(** ** [Decimal(float)] is exact *)

Lemma pos_ctz_divide (p : positive) : (2 ^ pos_ctz p | Zpos p).
Proof.
  induction p as [p IH|p IH|]; cbn [pos_ctz].
  - apply Z.divide_1_l.
  - assert (0 <= pos_ctz p) by (clear; induction p; cbn [pos_ctz]; lia).
    rewrite Z.pow_add_r by lia. change (Zpos p~0) with (2 * Zpos p). apply Z.mul_divide_mono_l, IH.
  - apply Z.divide_1_l.
Qed.

(** The decimal [c * 10^t] that [Decimal(f)] returns for a positive float
    [f] of value [n * 2^k] satisfies [c * 2^(-k) = n * 10^(-t)]. *)
Lemma decimal_from_float_val (m : positive) (e n k : Z) :
  f64_val (S754_finite false m e) n k -> k <= 0 ->
  exists c t, decimal_from_float (S754_finite false m e) = Finite false c t /\
         0 <= c /\ t <= 0 /\ c * 2 ^ (- k) = n * 10 ^ (- t).
Proof.
  cbn [f64_val cond_Zopp decimal_from_float]. intros Hx Hk.
  set (L := Z.min e k). rewrite (cross_lower _ _ _ _ L) in Hx by lia.
  destruct (Z.leb_spec 0 e) as [He|He].
  - eexists _, 0. split; [reflexivity|]. split; [pose proof (pow2_pos e He); nia|]. split; [lia|].
    unfold L in Hx. rewrite Z.min_r in Hx by lia. rewrite Z.sub_diag, Z.mul_1_r in Hx.
    rewrite Z.mul_1_r, <- Hx, <- Z.mul_assoc, <- Z.pow_add_r by lia. do 2 f_equal; lia.
  - set (t := Z.min (pos_ctz m) (- e)). set (kk := - e - t).
    pose proof (pos_ctz_nonneg m).
    eexists _, (- kk). split; [reflexivity|].
    assert (Ht : (2 ^ t | Zpos m)).
    { eapply Z.divide_trans; [| apply pos_ctz_divide].
      exists (2 ^ (pos_ctz m - t)). rewrite <- Z.pow_add_r by lia. f_equal. lia. }
    destruct Ht as [q Hq].
    pose proof (pow2_pos t ltac:(lia)). pose proof (pow2_pos kk ltac:(lia)).
    assert (H5 : 0 < 5 ^ kk) by (apply Z.pow_pos_nonneg; lia).
    rewrite Hq, Z.div_mul by lia. split; [nia|]. split; [lia|].
    rewrite Z.opp_involutive. replace (10 ^ kk) with (2 ^ kk * 5 ^ kk) by (rewrite <- Z.pow_mul_l; reflexivity).
    (* [m * 2^(-k) = n * 2^(-e)], from the value at scale [L] *)
    assert (Hm : Zpos m * 2 ^ (- k) = n * 2 ^ (- e)).
    { set (M := - Z.max e k). assert (0 <= M) by lia.
      apply (Z.mul_cancel_r _ _ 1); [lia|].
      replace (- k) with ((e - L) + M) by (unfold M, L; lia).
      replace (- e) with ((k - L) + M) by (unfold M, L; lia).
      rewrite !Z.pow_add_r by (unfold L; lia). rewrite !Z.mul_assoc, Hx. ring. }
    rewrite Hq in Hm. replace (- e) with (kk + t) in Hm by lia. rewrite Z.pow_add_r in Hm by lia.
    apply (Z.mul_cancel_r _ _ (2 ^ t)); [lia|].
    transitivity (q * 2 ^ t * 2 ^ (- k) * 5 ^ kk); [ring|]. rewrite Hm. ring.
Qed.

(** ** Floor division of non-negative floats *)

Lemma f64_is_neg_nonneg (z : binary64) (n k : Z) : f64_val z n k -> 0 <= n -> f64_is_neg z = false.
Proof.
  intros Hz Hn. destruct z as [s|s| |s m e]; try (cbn [f64_val] in Hz; contradiction); [reflexivity|].
  rewrite (f64_val_finite_sign _ _ _ _ _ Hz Hn). reflexivity.
Qed.

Lemma f64_truthy_val (z : binary64) (n k : Z) : f64_val z n k -> f64_truthy z = negb (n =? 0).
Proof.
  intros Hz. destruct (Z.eqb_spec n 0) as [->|Hn].
  - destruct (f64_val_zero z k Hz) as [s ->]. reflexivity.
  - destruct z as [s|s| |s m e]; cbn [f64_val] in Hz; try contradiction. reflexivity.
Qed.

Lemma half_not_lt_zero (s : bool) : SFltb f64_half (S754_zero s) = false.
Proof. destruct s; reflexivity. Qed.

(** The last lines of [float_floordiv]: a nonzero integral quotient is
    kept by [floor] and by the snapping to the nearest integer. *)
Lemma floordiv_snap (div z : binary64) (Q : Z) :
  f64_repr div Q 0 -> Q <> 0 -> Z.abs Q < 2 ^ 52 ->
  (if f64_truthy div then
     let floordiv := f64_floor div in
     Ok (if SFltb f64_half (f64_sub div floordiv) then f64_add floordiv f64_one else floordiv)
   else Ok (f64_copysign_zero z)) = Ok (f64_floor div) /\ f64_repr (f64_floor div) Q 0.
Proof.
  intros Hdiv HQ0 HQ. rewrite (f64_truthy_val _ _ _ (proj1 Hdiv)).
  destruct (Z.eqb_spec Q 0); [contradiction|]. cbn [negb].
  pose proof (f64_floor_repr _ _ Hdiv ltac:(lia)) as Hfl.
  pose proof (f64_sub_val _ _ _ _ 0 (proj1 Hdiv) (proj1 Hfl) ltac:(lia) ltac:(rewrite emin64_eq; lia)
                ltac:(unfold emax64, prec64; lia)) as Hz.
  rewrite Z.sub_diag in Hz. destruct (f64_val_zero _ _ Hz) as [s Hs].
  cbv zeta. rewrite Hs, half_not_lt_zero. split; [reflexivity | exact Hfl].
Qed.

(** [x // y] for a float [x] of value [N * 2^k] with [0 <= N < 2^53] and a
    positive [y] of value [D * 2^k] is the float of the integer
    [N / D], computed without rounding, when that quotient is below
    [2^52]. *)
Lemma float_floordiv_val (x y : binary64) (N D k : Z) :
  f64_val x N k -> f64_val y D k -> 0 <= N < 2 ^ 53 -> 0 < D -> N / D < 2 ^ 52 ->
  emin64 <= k -> k <= 0 ->
  exists q, float_floordiv x y = Ok q /\ f64_repr q (N / D) 0.
Proof.
  intros Hx Hy HN HD HQ Hk1 Hk2.
  assert (Hk3 : k <= emax64 - prec64) by (unfold emax64, prec64; lia).
  pose proof (Z.div_pos N D ltac:(lia) HD) as HQ0.
  pose proof (f64_fmod_val x y N D k Hx Hy HN HD Hk1 Hk3) as Hmd.
  pose proof (Z.mod_pos_bound N D HD) as Hmb. pose proof (Z.div_mod N D ltac:(lia)) as Hdm.
  pose proof (f64_sub_val x _ N _ k Hx Hmd ltac:(nia) Hk1 Hk3) as Hsub.
  pose proof (f64_div_repr _ y _ D (N / D) k Hsub Hy ltac:(lia) ltac:(lia) ltac:(lia)) as Hdiv.
  unfold float_floordiv.
  rewrite (f64_truthy_val y D k Hy). replace (negb (negb (D =? 0))) with false by (destruct (Z.eqb_spec D 0); [lia | reflexivity]).
  rewrite (f64_is_neg_nonneg y D k Hy ltac:(lia)), (f64_is_neg_nonneg _ _ k Hmd ltac:(lia)).
  rewrite andb_false_r.
  destruct (Z.eqb_spec (N / D) 0) as [H0|H0].
  - rewrite (f64_truthy_val _ _ _ (proj1 Hdiv)), H0. cbn [negb Z.eqb].
    eexists. split; [reflexivity|]. destruct (f64_div x y); split; reflexivity || exact I.
  - destruct (floordiv_snap _ (f64_div x y) _ Hdiv H0 ltac:(lia)) as [Heq Hfl].
    eexists. split; [exact Heq | exact Hfl].
Qed.

(** ** Integers read by [float()] *)

Lemma f64_of_decimal_int_signed (neg : bool) (n : Z) :
  0 <= n < 2 ^ 53 -> f64_val (f64_of_decimal neg n 0) (cond_Zopp neg n) 0.
Proof.
  intros Hn. unfold f64_of_decimal. destruct (Z.eqb_spec n 0) as [->|Hn0]; [destruct neg; reflexivity|].
  pose proof (ndigits_pos n ltac:(lia)).
  replace (400 <? 0) with false by reflexivity.
  replace (ndigits n + 0 <? -400) with false by (symmetry; apply Z.ltb_ge; lia).
  replace (0 <=? 0) with true by reflexivity. rewrite Z.mul_1_r.
  apply normalize_repr; [reflexivity | destruct neg; cbn [cond_Zopp]; lia | rewrite emin64_eq; lia
                        | unfold emax64, prec64; lia].
Qed.

Lemma f64_of_decimal_int (n : Z) :
  0 <= n < 2 ^ 53 -> f64_val (f64_of_decimal false n 0) n 0.
Proof. exact (f64_of_decimal_int_signed false n). Qed.
