(* ===== verification/FloatRound.v ===== *)
(** * Inexact rounding: [float()] of an amount typed with decimals

    [binary_round_aux] on a mantissa of 53 or 54 bits, whatever the
    location of the discarded part, keeps the truncated mantissa or adds
    one unit to it ([round_aux_near]).  For [float()] of a decimal
    [A / 10^j] this gives the float as an integer [M] at scale [2^K] with
    [M] the truncation of [A * 2^(-K) / 10^j] or one more
    ([f64_of_decimal_near]): the float is within one unit in the last
    place of the amount, and never below a multiple of that unit that the
    amount reaches.  For an amount typed ["d.d"] or ["d.dd"] below
    [10^13] the scale is finer than [1/200] and the mantissa stays below
    [2^53] ([f64_of_decimal_below]), the form the lemmas of [FloatExact]
    need. *)

From Stdlib Require Import ZArith List Bool Lia SpecFloat.
From S2P Require Import Prelude PyText Binary64 FloatExact.
Local Open Scope Z_scope.

(** ** The pieces of [binary_round_aux] *)

Lemma round_nearest_even_cases (mx : Z) (lx : location) :
  round_nearest_even mx lx = mx \/ round_nearest_even mx lx = mx + 1.
Proof. destruct lx as [|[| |]]; cbn; try (left; reflexivity); try (right; reflexivity).
  destruct (Z.even mx); [left | right]; reflexivity. Qed.

Lemma shr_1_m (r : shr_record) : 0 <= shr_m r -> shr_m (shr_1 r) = shr_m r / 2.
Proof.
  destruct r as [m rb sb]. cbn [shr_m]. intros H.
  destruct m as [|p|p]; [reflexivity | | lia]. destruct p as [p|p|]; cbn [shr_1 shr_m].
  - rewrite Pos2Z.inj_xI, Z.add_comm, Z.mul_comm, Z.div_add by lia. reflexivity.
  - rewrite Pos2Z.inj_xO, Z.mul_comm, Z.div_mul by lia. reflexivity.
  - reflexivity.
Qed.

Lemma Zdigits2_53_54 (m : Z) : 2 ^ 52 <= m < 2 ^ 54 -> Zdigits2 m = 53 \/ Zdigits2 m = 54.
Proof.
  intros Hm. pose proof (Zdigits2_bounds m ltac:(lia)) as [H1 H2].
  assert (52 < Zdigits2 m) by (apply pow2_lt_inv; lia).
  assert (Zdigits2 m - 1 < 54) by (apply pow2_lt_inv; [lia|]; lia). lia.
Qed.

(** The second pass of [binary_round_aux], on a mantissa of [2^52] to
    [2^53]: [2^53] is renormalised to [2^52] at the next exponent. *)
Lemma round_tail (M e : Z) :
  2 ^ 52 <= M <= 2 ^ 53 -> emin64 <= e -> e + 1 <= emax64 - prec64 ->
  f64_val (let '(mrs'', e'') := shr_fexp prec64 emax64 M e loc_Exact in
            match shr_m mrs'' with
            | Z0 => S754_zero false
            | Zpos m => if e'' <=? emax64 - prec64 then S754_finite false m e'' else S754_infinity false
            | Zneg _ => S754_nan
            end) M e.
Proof.
  intros HM He1 He2. rewrite emin64_eq in He1.
  destruct (Z.eq_dec M (2 ^ 53)) as [->|HM53].
  - unfold shr_fexp. rewrite fexp64. cbn [shr_record_of_loc].
    replace (Z.max (Zdigits2 (2 ^ 53) + e - 53) (-1074) - e) with 1
      by (change (Zdigits2 (2 ^ 53)) with 54; lia).
    rewrite shr_exact by (lia || (exists (2 ^ 52); reflexivity)). cbn [shr_m].
    replace (2 ^ 53 / 2 ^ Z.max 0 1) with (2 ^ 52) by reflexivity.
    replace (e + Z.max 0 1 <=? emax64 - prec64) with true by (symmetry; apply Z.leb_le; lia).
    remember (2 ^ 52) as P eqn:HP. destruct P as [|p|p]; try (rewrite HP in *; discriminate).
    cbn [f64_val cond_Zopp]. rewrite HP.
    replace (Z.max 0 (e + Z.max 0 1 - e)) with 1 by lia. replace (Z.max 0 (e - (e + Z.max 0 1))) with 0 by lia.
    reflexivity.
  - assert (Hd : Zdigits2 M = 53) by (destruct (Zdigits2_53_54 M ltac:(lia)) as [|Hd]; [assumption|];
      pose proof (Zdigits2_bounds M ltac:(lia)) as [H1 _]; rewrite Hd in H1; lia).
    unfold shr_fexp. rewrite Hd, fexp64. replace (Z.max (53 + e - 53) (-1074) - e) with 0 by lia.
    cbn [shr shr_record_of_loc shr_m].
    destruct M as [|p|p]; try lia.
    replace (e <=? emax64 - prec64) with true by (symmetry; apply Z.leb_le; lia).
    cbn [f64_val cond_Zopp]. rewrite Z.sub_diag. reflexivity.
Qed.

Lemma shr_m_of_loc (m : Z) (l : location) : shr_m (shr_record_of_loc m l) = m.
Proof. destruct l as [|[| |]]; reflexivity. Qed.

(** [binary_round_aux] on a mantissa of 53 or 54 bits: the mantissa is
    cut to 53 bits and possibly incremented, whatever the location. *)
Lemma round_aux_near (m e : Z) (l : location) :
  2 ^ 52 <= m < 2 ^ 54 -> emin64 <= e -> e + 2 <= emax64 - prec64 ->
  exists M, (M = m / 2 ^ (Zdigits2 m - 53) \/ M = m / 2 ^ (Zdigits2 m - 53) + 1) /\
       2 ^ 52 <= M <= 2 ^ 53 /\
       f64_val (binary_round_aux prec64 emax64 false m e l) M (e + (Zdigits2 m - 53)).
Proof.
  intros Hm He1 He2. pose proof He1 as He1'. rewrite emin64_eq in He1'. unfold binary_round_aux.
  pose proof (Zdigits2_bounds m ltac:(lia)) as [Hb1 Hb2].
  destruct (Zdigits2_53_54 m Hm) as [Hd|Hd]; unfold shr_fexp at 1; rewrite Hd, fexp64.
  - replace (Z.max (53 + e - 53) (-1074) - e) with 0 by lia. cbn [shr].
    rewrite shr_m_of_loc.
    set (M := round_nearest_even m (loc_of_shr_record (shr_record_of_loc m l))).
    exists M. replace (53 - 53) with 0 by lia. rewrite Z.pow_0_r, Z.div_1_r, Z.add_0_r.
    rewrite Hd in Hb2. change (2 ^ 53) with (2 ^ 53) in Hb2.
    destruct (round_nearest_even_cases m (loc_of_shr_record (shr_record_of_loc m l))) as [HM|HM];
      fold M in HM; (split; [lia | split; [lia |]]); apply round_tail; lia.
  - replace (Z.max (54 + e - 53) (-1074) - e) with 1 by lia. cbn [shr iter_pos].
    rewrite shr_1_m, shr_m_of_loc by (rewrite shr_m_of_loc; lia).
    set (M := round_nearest_even (m / 2) (loc_of_shr_record (shr_1 (shr_record_of_loc m l)))).
    exists M. replace (54 - 53) with 1 by lia. rewrite Z.pow_1_r.
    rewrite Hd in Hb1, Hb2.
    assert (2 ^ 52 <= m / 2 < 2 ^ 53) by (split; [apply Z.div_le_lower_bound | apply Z.div_lt_upper_bound]; lia).
    destruct (round_nearest_even_cases (m / 2) (loc_of_shr_record (shr_1 (shr_record_of_loc m l)))) as [HM|HM];
      fold M in HM; (split; [lia | split; [lia |]]); apply round_tail; lia.
Qed.

(** ** [float("ip.fp")] *)

(** The float nearest to [A / 10^j] (a positive amount with [j]
    decimals, [A] of at most [52] bits more than [10^j]) is [M * 2^K] with
    [M] of 53 bits and [M] the truncation of [A * 2^(-K) / 10^j] or one
    more: [SFdiv_core_binary] computes the quotient with [53] or [54]
    bits, and the rounding keeps it or adds one. *)
Lemma f64_of_decimal_near (A j : Z) :
  1 <= j <= 300 -> 1 <= A -> Zdigits2 A <= Zdigits2 (10 ^ j) + 52 ->
  exists M K, f64_val (f64_of_decimal false A (- j)) M K /\ 2 ^ 52 <= M <= 2 ^ 53 /\
         emin64 <= K <= 0 /\ A * 2 ^ (- K) / 10 ^ j <= M <= A * 2 ^ (- K) / 10 ^ j + 1.
Proof.
  intros Hj HA HAd. unfold f64_of_decimal.
  rewrite (proj2 (Z.eqb_neq A 0)) by lia.
  rewrite (proj2 (Z.ltb_ge 400 (- j))) by lia.
  rewrite (proj2 (Z.ltb_ge (ndigits A + - j) (-400))) by (pose proof (ndigits_pos A ltac:(lia)); lia).
  rewrite (proj2 (Z.leb_gt 0 (- j))) by lia. rewrite Z.opp_involutive.
  pose proof (pow10_pos j ltac:(lia)) as HD0.
  pose proof (Zdigits2_bounds A ltac:(lia)) as [Hd1 Hd2].
  pose proof (Zdigits2_bounds (10 ^ j) HD0) as [HD1 HD2].
  assert (Hdl : 1 <= Zdigits2 A) by (rewrite Zdigits2_pos by lia; pose proof (Z.log2_nonneg A); lia).
  assert (Hd2l : 1 <= Zdigits2 (10 ^ j)) by (rewrite Zdigits2_pos by lia; pose proof (Z.log2_nonneg (10 ^ j)); lia).
  assert (Hd2u : Zdigits2 (10 ^ j) <= 1000).
  { assert (10 ^ j <= 10 ^ 300) by (apply Z.pow_le_mono_r; lia).
    assert (10 ^ 300 < 2 ^ 1000) by reflexivity.
    assert (Zdigits2 (10 ^ j) - 1 < 1000) by (apply pow2_lt_inv; lia). lia. }
  set (d1 := Zdigits2 A) in *. set (D := 10 ^ j) in *. set (d2 := Zdigits2 D) in *.
  set (s := d2 + 53 - d1).
  set (q := A * 2 ^ s / D).
  assert (Hcore : SFdiv_core_binary prec64 emax64 A 0 D 0 = (q, d1 - d2 - 53, new_location D (A * 2 ^ s mod D))).
  { unfold SFdiv_core_binary. fold d1 d2. rewrite fexp64.
    replace (Z.min (Z.max (d1 + 0 - (d2 + 0) - 53) (-1074)) (0 - 0)) with (d1 - d2 - 53) by lia.
    replace (0 - 0 - (d1 - d2 - 53)) with s by (unfold s; lia).
    destruct s as [|p|p] eqn:E; try (unfold s in E; lia).
    rewrite Z.shiftl_mul_pow2, div_eucl_div_mod by lia. unfold q. rewrite <- E. reflexivity. }
  rewrite Hcore. cbv beta iota.
  pose proof (pow2_pos s ltac:(unfold s; lia)) as Hs.
  assert (Hq : 2 ^ 52 <= q < 2 ^ 54).
  { unfold q.
    assert (2 ^ 52 * 2 ^ d2 <= A * 2 ^ s).
    { rewrite <- Z.pow_add_r by lia. replace (52 + d2) with ((d1 - 1) + s) by (unfold s; lia).
      rewrite Z.pow_add_r by (unfold s; lia). nia. }
    assert (A * 2 ^ s < 2 ^ 54 * 2 ^ (d2 - 1)).
    { rewrite <- Z.pow_add_r by lia. replace (54 + (d2 - 1)) with (d1 + s) by (unfold s; lia).
      rewrite Z.pow_add_r by (unfold s; lia). nia. }
    split; [apply Z.div_le_lower_bound | apply Z.div_lt_upper_bound]; nia. }
  destruct (round_aux_near q (d1 - d2 - 53) (new_location D (A * 2 ^ s mod D)) Hq
              ltac:(rewrite emin64_eq; lia) ltac:(unfold emax64, prec64; lia)) as (M & HM & HMb & Hv).
  assert (Hn : 0 <= Zdigits2 q - 53 <= 1) by (destruct (Zdigits2_53_54 q Hq) as [->| ->]; lia).
  set (n := Zdigits2 q - 53) in *.
  exists M, (d1 - d2 - 53 + n). split; [exact Hv | split; [exact HMb | split; [rewrite emin64_eq; lia |]]].
  assert (Hqn : q / 2 ^ n = A * 2 ^ (- (d1 - d2 - 53 + n)) / D).
  { unfold q. rewrite Z.div_div by (pose proof (pow2_pos n ltac:(lia)); lia).
    replace s with ((- (d1 - d2 - 53 + n)) + n) by (unfold s; lia).
    rewrite Z.pow_add_r, Z.mul_assoc, Z.div_mul_cancel_r by (lia || (pose proof (pow2_pos n ltac:(lia)); lia)).
    reflexivity. }
  rewrite <- Hqn. lia.
Qed.

(** An even integer at scale [2^k] is its half at scale [2^(k+1)]. *)
Lemma f64_val_half (x : binary64) (N k : Z) : f64_val x (2 * N) k -> f64_val x N (k + 1).
Proof.
  destruct x as [s|s| |s m e]; cbn [f64_val]; try tauto; [lia|]. intros H.
  destruct (Z.le_gt_cases (k + 1) e).
  - rewrite (Z.max_r 0 (e - k)), (Z.max_l 0 (k - e)) in H by lia.
    rewrite (Z.max_r 0 (e - (k + 1))), (Z.max_l 0 (k + 1 - e)) by lia.
    replace (e - k) with (e - (k + 1) + 1) in H by lia. rewrite Z.pow_add_r in H by lia. lia.
  - rewrite (Z.max_l 0 (e - k)), (Z.max_r 0 (k - e)) in H by lia.
    rewrite (Z.max_l 0 (e - (k + 1))), (Z.max_r 0 (k + 1 - e)) by lia.
    replace (k + 1 - e) with (k - e + 1) by lia. rewrite Z.pow_add_r by lia. lia.
Qed.

(** The float of an amount of [A / 10^j] with one or two decimals, below
    [10^13], is an integer [N] below [2^53] at a scale [2^k] finer than
    [1/200], and [N] is [A * 2^(-k) / 10^j] truncated or one more. *)
Lemma f64_of_decimal_below (A j : Z) :
  1 <= j <= 2 -> 1 <= A < 10 ^ (13 + j) ->
  exists N k, f64_val (f64_of_decimal false A (- j)) N k /\ 0 < N < 2 ^ 53 /\ emin64 <= k <= 0 /\
         200 < 2 ^ (- k) /\ A * 2 ^ (- k) / 10 ^ j <= N <= A * 2 ^ (- k) / 10 ^ j + 1.
Proof.
  intros Hj HA. pose proof (pow10_pos j ltac:(lia)) as HD0.
  assert (HD : 10 ^ j <= 100) by (change 100 with (10 ^ 2); apply Z.pow_le_mono_r; lia).
  assert (HA15 : A < 10 ^ 15) by (assert (10 ^ (13 + j) <= 10 ^ 15) by (apply Z.pow_le_mono_r; lia); lia).
  assert (HAd : Zdigits2 A <= Zdigits2 (10 ^ j) + 52).
  { assert (Zdigits2 A - 1 < 50) by (apply pow2_lt_inv; [rewrite Zdigits2_pos by lia; pose proof (Z.log2_nonneg A); lia|];
      pose proof (Zdigits2_bounds A ltac:(lia)); assert (10 ^ 15 < 2 ^ 50) by reflexivity; lia).
    pose proof (Zdigits2_bounds (10 ^ j) HD0). assert (0 < Zdigits2 (10 ^ j)) by
      (rewrite Zdigits2_pos by lia; pose proof (Z.log2_nonneg (10 ^ j)); lia). lia. }
  destruct (f64_of_decimal_near A j ltac:(lia) ltac:(lia) HAd) as (M & K & Hv & HM & HK & HMb).
  pose proof (pow2_pos (- K) ltac:(lia)) as HP.
  assert (HAP : A * 2 ^ (- K) / 10 ^ j <= 10 ^ 13 * 2 ^ (- K)).
  { apply Z.div_le_upper_bound; [lia|]. rewrite Z.pow_add_r in HA by lia. nia. }
  assert (HP9 : 450 < 2 ^ (- K)) by (assert (2 ^ 52 - 1 <= 10 ^ 13 * 2 ^ (- K)) by lia; lia).
  set (D := 10 ^ j) in *.
  destruct (Z.eq_dec M (2 ^ 53)) as [HM53|HM53].
  - exists (2 ^ 52), (K + 1).
    assert (HK1 : K + 1 <= 0) by (destruct (Z.le_gt_cases (K + 1) 0); [lia|];
      replace K with 0 in HP9 by lia; lia).
    assert (HP2 : 2 ^ (- K) = 2 * 2 ^ (- (K + 1))) by (rewrite <- Z.pow_succ_r by lia; f_equal; lia).
    split; [apply f64_val_half; rewrite HM53 in Hv; exact Hv | split; [lia | split; [lia |]]].
    rewrite HP2, HM53 in *. split; [lia|].
    set (P' := 2 ^ (- (K + 1))) in *.
    pose proof (Z.div_mod (A * (2 * P')) D ltac:(lia)). pose proof (Z.mod_pos_bound (A * (2 * P')) D ltac:(lia)).
    pose proof (Z.div_mod (A * P') D ltac:(lia)). pose proof (Z.mod_pos_bound (A * P') D ltac:(lia)).
    assert (A * (2 * P') = 2 * (A * P')) by ring. nia.
  - exists M, K. split; [exact Hv | split; [lia | split; [lia | split; [lia | exact HMb]]]].
Qed.
