(* ===== verification/FloatSigned.v ===== *)
(** * Floats below zero: the [div -= 1] branch of float floor division

    [float_floordiv] (CPython's [float_floor_div]) corrects the quotient
    of [(x - fmod(x, y)) / y] by one when the remainder and the divisor
    have different signs; with a positive divisor this happens exactly
    when the dividend is negative and not a multiple.  The lemmas of
    [FloatExact] are extended here to floats of either sign: [fmod] gives
    [Z.rem] ([f64_fmod_rem]), a subtraction keeps the exponent bound
    ([f64_sub_repr]), the sign of a result is the sign of its value, and
    the floor division is the integer [N / D], rounded toward minus
    infinity as in Python, for every dividend below [2^53] in absolute
    value ([float_floordiv_floor]). *)

From Stdlib Require Import ZArith List Bool Lia SpecFloat.
From S2P Require Import Prelude PyText Money PyDecimal Binary64 FloatExact.
Local Open Scope Z_scope.

(** ** Signs *)

Lemma f64_val_finite_sign_neg (s : bool) (m : positive) (e n k : Z) :
  f64_val (S754_finite s m e) n k -> n < 0 -> s = true.
Proof.
  cbn [f64_val]. intros H Hn. destruct s; [reflexivity|exfalso]. cbn [cond_Zopp] in H.
  pose proof (pow2_pos (Z.max 0 (e - k)) ltac:(lia)). pose proof (pow2_pos (Z.max 0 (k - e)) ltac:(lia)).
  nia.
Qed.

Lemma f64_is_neg_neg (z : binary64) (n k : Z) : f64_val z n k -> n < 0 -> f64_is_neg z = true.
Proof.
  intros Hz Hn. destruct z as [s|s| |s m e]; cbn [f64_val] in Hz; try contradiction; [lia|].
  rewrite (f64_val_finite_sign_neg _ _ _ _ _ Hz Hn). reflexivity.
Qed.

(** A finite float of value [n] is the float of [|n|] with the sign of [n]. *)
Lemma f64_val_abs (s : bool) (m : positive) (e n k : Z) :
  f64_val (S754_finite s m e) n k -> n <> 0 ->
  s = (n <? 0) /\ f64_val (S754_finite false m e) (Z.abs n) k.
Proof.
  intros Hv Hn. destruct (Z.ltb_spec n 0) as [Hlt|Hge].
  - pose proof (f64_val_finite_sign_neg _ _ _ _ _ Hv Hlt) as ->. split; [reflexivity|].
    cbn [f64_val cond_Zopp] in *. rewrite Z.abs_neq by lia. lia.
  - pose proof (f64_val_finite_sign _ _ _ _ _ Hv Hge) as ->. split; [reflexivity|].
    rewrite Z.abs_eq by lia. exact Hv.
Qed.

(** ** Subtraction with the exponent bound *)

Lemma f64_sub_repr (x y : binary64) (n1 n2 k : Z) :
  f64_repr x n1 k -> f64_repr y n2 k -> Z.abs (n1 - n2) < 2 ^ 53 ->
  emin64 <= k -> k <= emax64 - prec64 ->
  f64_repr (f64_sub x y) (n1 - n2) k.
Proof.
  intros [Hx Ex] [Hy Ey] Hn Hk1 Hk2.
  destruct x as [sx|sx| |sx mx ex]; try contradiction; destruct y as [sy|sy| |sy my ey]; try contradiction;
    [| | | now apply f64_sub_finite_repr];
    (split; [now apply f64_sub_val|]); unfold f64_sub; cbn [SFsub f64_exp_le] in *.
  - destruct sx, sy; exact I.
  - exact Ey.
  - exact Ex.
Qed.

Lemma f64_one_repr : f64_repr f64_one 1 0.
Proof. split; [reflexivity | cbn; lia]. Qed.

(** ** Floor division toward minus infinity *)

(** The remainder of a negative dividend is between the dividend and 0,
    and the floor quotient is the truncated one, less one when the
    remainder is not zero. *)
Lemma rem_neg_floor (N D : Z) :
  N < 0 -> 0 < D ->
  N <= Z.rem N D <= 0 /\
  (Z.rem N D = 0 /\ N / D = Z.quot N D \/ Z.rem N D < 0 /\ N / D = Z.quot N D - 1).
Proof.
  intros HN HD. pose proof (Z.quot_rem' N D) as Hqr.
  assert (Hr : Z.rem N D = - ((- N) mod D))
    by (rewrite <- (Z.opp_involutive N) at 1; rewrite Z.rem_opp_l, Z.rem_mod_nonneg by lia; reflexivity).
  pose proof (Z.mod_pos_bound (- N) D HD) as Hb1. pose proof (Z.mod_le (- N) D ltac:(lia) HD) as Hb2.
  split; [lia|].
  destruct (Z.eq_dec (Z.rem N D) 0) as [Hz|Hz]; [left | right]; (split; [lia|]); symmetry.
  - apply (Z.div_unique _ _ _ 0); [lia | lia].
  - apply (Z.div_unique _ _ _ (Z.rem N D + D)); [lia | lia].
Qed.

(** [x // y] for a float [x] of value [N * 2^k], [|N| < 2^53], and a
    positive [y] of value [D * 2^k] is the float of [N / D], rounded
    toward minus infinity, computed without rounding.  For a negative
    [N] that is not a multiple of [D] the quotient goes through the
    branch [div -= 1]. *)
Lemma float_floordiv_floor (x y : binary64) (N D k : Z) :
  f64_val x N k -> f64_val y D k -> Z.abs N < 2 ^ 53 -> 0 < D -> Z.abs (N / D) < 2 ^ 52 ->
  emin64 <= k -> k <= 0 ->
  exists q, float_floordiv x y = Ok q /\ f64_repr q (N / D) 0.
Proof.
  intros Hx Hy HN HD HQ Hk1 Hk2.
  destruct (Z.le_gt_cases 0 N) as [HN0|HN0]; [apply (float_floordiv_val x y N D k); auto; lia|].
  assert (Hk3 : k <= emax64 - prec64) by (unfold emax64, prec64; lia).
  pose proof (f64_fmod_rem x y N D k Hx Hy HN HD Hk1 Hk3) as Hmd.
  pose proof (Z.quot_rem' N D) as Hqr. destruct (rem_neg_floor N D HN0 HD) as [Hrb Hfl].
  pose proof (Z.div_lt_upper_bound N D 0 HD ltac:(lia)) as HQneg.
  pose proof (f64_sub_val x _ N _ k Hx Hmd ltac:(lia) Hk1 Hk3) as Hsub.
  pose proof (f64_div_repr _ y _ D (Z.quot N D) k Hsub Hy ltac:(lia) ltac:(lia) ltac:(lia)) as Hdiv.
  unfold float_floordiv.
  rewrite (f64_truthy_val y D k Hy). replace (negb (negb (D =? 0))) with false by (destruct (Z.eqb_spec D 0); [lia | reflexivity]).
  rewrite (f64_is_neg_nonneg y D k Hy ltac:(lia)), (f64_truthy_val _ _ _ Hmd). cbn [negb].
  destruct Hfl as [[Hr0 Hq] | [Hr0 Hq]].
  - rewrite Hr0. cbn [Z.eqb negb andb]. rewrite <- Hq in Hdiv.
    destruct (floordiv_snap _ (f64_div x y) _ Hdiv ltac:(lia) HQ) as [Heq Hq'].
    eexists. split; [exact Heq | exact Hq'].
  - rewrite (proj2 (Z.eqb_neq (Z.rem N D) 0) ltac:(lia)), (f64_is_neg_neg _ _ _ Hmd Hr0). cbn [negb andb xorb].
    pose proof (f64_sub_repr _ _ _ _ 0 Hdiv f64_one_repr ltac:(lia) ltac:(rewrite emin64_eq; lia)
                  ltac:(unfold emax64, prec64; lia)) as Hdiv1.
    rewrite <- Hq in Hdiv1.
    destruct (floordiv_snap _ (f64_div x y) _ Hdiv1 ltac:(lia) HQ) as [Heq Hq'].
    eexists. split; [exact Heq | exact Hq'].
Qed.

(** ** Float floor division against integer floor division *)

Lemma f64_of_Z_val (a : Z) : Z.abs a < 2 ^ 53 -> f64_val (f64_of_Z a) a 0.
Proof.
  intros Ha. unfold f64_of_Z.
  apply normalize_repr; [reflexivity | exact Ha | rewrite emin64_eq; lia | unfold emax64, prec64; lia].
Qed.

(** C13. On floats holding integers, Python's float floor division
    [float(a) // float(b)] agrees with the integer floor division
    [a // b] (rounded toward minus infinity) for every dividend below
    [2^52] in absolute value and every positive divisor below [2^53]:
    the result holds exactly the integer [a / b], for negative
    dividends through the branch [div -= 1]. *)
Theorem float_floordiv_int_equiv (a b : Z) :
  Z.abs a < 2 ^ 52 -> 0 < b < 2 ^ 53 ->
  exists q, float_floordiv (f64_of_Z a) (f64_of_Z b) = Ok q /\ f64_repr q (a / b) 0.
Proof.
  intros Ha Hb.
  pose proof (Z.div_mod a b ltac:(lia)). pose proof (Z.mod_pos_bound a b ltac:(lia)).
  assert (Z.abs (a / b) < 2 ^ 52).
  { destruct (Z.le_gt_cases 0 a).
    - pose proof (Z.div_le_upper_bound a b a ltac:(lia) ltac:(nia)). pose proof (Z.div_pos a b). lia.
    - assert (a <= a / b) by nia. pose proof (Z.div_lt_upper_bound a b 0 ltac:(lia) ltac:(lia)). lia. }
  apply (float_floordiv_floor _ _ a b 0); [apply f64_of_Z_val; lia | apply f64_of_Z_val; lia | lia | lia
                                           | assumption | rewrite emin64_eq; lia | lia].
Qed.

Lemma float_floordiv_int_equiv_witness :
  exists q, float_floordiv (f64_of_Z (-7)) (f64_of_Z 2) = Ok q /\ f64_repr q (-7 / 2) 0.
Proof. apply float_floordiv_int_equiv; [vm_compute; reflexivity | split; [lia | vm_compute; reflexivity]]. Defined.
