(* ===== verification/Discounts.v ===== *)
(** * [src/hm_discounts.py]: the two calculators and the currency helper

    [after13p] (lines 52-102) parses the amount as a [Decimal], multiplies
    it by [Decimal('0.87')] in the default context and formats the
    product with [decimal_to_currency_str] (lines 256-306), which
    quantizes to [Decimal('.01')] with [ROUND_HALF_UP] and applies
    [str()].  [after5] (lines 124-202) computes
    [x - (x // 30) * 5] on Python floats and converts the float result
    with [decimal.Decimal(float)] before the same helper.  The terse
    wrappers (lines 105-121, 205-214) prefix a label.  Every function
    returns a [result]: an [Err] is the exception the Python code lets
    propagate. *)

From Stdlib Require Import ZArith List String Ascii Bool Lia SpecFloat.
From S2P Require Import Prelude PyText Money PyDecimal Binary64.
Import ListNotations.
Local Open Scope Z_scope.
Local Open Scope py_scope.

(** ** Constants (lines 47-49) *)

Definition TUI_ENTRY_TIPS_EN : string := "Amounts are before tax.".
Definition TUI_HOW_QUIT_EN : string := "Press q to quit.".
Definition TUI_PROMPT_EN : string := "Purchase amount: ".

(** ** [decimal_to_currency_str] (lines 256-306) *)

Definition decimal_to_currency_str (input_dec : decimal) : result string :=
  cents <- Decimal ".01" ;;
  input_dec <- quantize DefaultContext input_dec cents ROUND_HALF_UP ;;
  Ok (string_of_list_ascii (dec_str input_dec)).

(** ** [after13p] (lines 52-102) *)

Definition after13p (purchase_amount_str : string) : result string :=
  purchase_amount_dec <- Decimal purchase_amount_str ;;
  rate <- Decimal "0.87" ;;
  purchase_amount_reduced_dec <- mul DefaultContext purchase_amount_dec rate ;;
  decimal_to_currency_str purchase_amount_reduced_dec.

Definition after13p_terse_wrapper (purchase_amount_str : string) : result string :=
  answer <- after13p purchase_amount_str ;;
  Ok ("-13%     : " ++ answer)%string.

(** ** [after5] (lines 124-202)

    [purchase_amount_flo // 30] and [(...) * 5] convert the ints [30] and
    [5] to floats before the float operation. *)

Definition after5 (purchase_amount_str : string) : result string :=
  purchase_amount_flo <- float purchase_amount_str ;;
  increments <- float_floordiv purchase_amount_flo (f64_of_Z 30) ;;
  let purchase_amount_reduced_flo :=
    f64_sub purchase_amount_flo (f64_mul increments (f64_of_Z 5)) in
  let purchase_amount_reduced_dec := decimal_from_float purchase_amount_reduced_flo in
  decimal_to_currency_str purchase_amount_reduced_dec.

Definition after5_terse_wrapper (purchase_amount_str : string) : result string :=
  answer <- after5 purchase_amount_str ;;
  Ok ("-$5 ~$30 : " ++ answer)%string.

(** ** The decimal constants of the source *)

Lemma Decimal_cents : Decimal ".01" = Ok (Finite false 1 (-2)).
Proof. reflexivity. Qed.

Lemma Decimal_rate : Decimal "0.87" = Ok (Finite false 87 (-2)).
Proof. reflexivity. Qed.

Lemma Decimal_wf (s : string) (d : decimal) : Decimal s = Ok d -> wf_decimal d.
Proof. apply decimal_of_text_wf. Qed.

(** ** Theorems on [decimal_to_currency_str] *)

(** On a finite non-negative decimal [c * 10^e], the helper returns the
    currency text of [c * 10^e] rounded half away from zero to cents,
    with the value's sign, when the cents have at most 28 digits; it
    raises [InvalidOperation] otherwise. *)
Lemma decimal_to_currency_str_cents (s : bool) (c e : Z) :
  0 <= c ->
  decimal_to_currency_str (Finite s c e) =
  if round_cents c e <? 10 ^ 28
  then Ok (string_of_list_ascii (currency_text s (round_cents c e)))
  else Err InvalidOperation.
Proof.
  intros Hc. unfold decimal_to_currency_str. rewrite Decimal_cents. cbn [bind].
  rewrite quantize_cents by assumption.
  destruct (_ <? _); [|reflexivity]. cbn [bind].
  rewrite dec_str_cents by (apply round_cents_nonneg; lia). reflexivity.
Qed.

(** C6. The helper's answer on a finite non-negative decimal [c * 10^e]
    is characterised by the spec's rounding: it answers [t] exactly when
    [t] is the currency text, with the value's sign, of the integer [r]
    with [r - 1/2 <= c * 10^e * 100 < r + 1/2] (a tie goes away from
    zero), and [r] has at most 28 digits. *)
Theorem decimal_to_currency_str_rounds (s : bool) (c e : Z) (t : string) :
  0 <= c ->
  decimal_to_currency_str (Finite s c e) = Ok t <->
  exists r, rounds_half_away (fst (cents_ratio c e)) (snd (cents_ratio c e)) r /\
       r < 10 ^ 28 /\ t = string_of_list_ascii (currency_text s r).
Proof.
  intros Hc. rewrite decimal_to_currency_str_cents by exact Hc.
  pose proof (round_half_away_correct (fst (cents_ratio c e)) _ (cents_ratio_den c e)) as Hr.
  unfold round_cents in *. destruct (cents_ratio c e) as [num den]. cbn [fst snd] in *.
  split.
  - destruct (Z.ltb_spec (round_half_away num den) (10 ^ 28)); [|discriminate].
    intros [= <-]. eauto.
  - intros (r & Hr' & Hlt & ->).
    pose proof (rounds_half_away_unique _ _ _ _ Hr Hr') as <-.
    apply Z.ltb_lt in Hlt. now rewrite Hlt.
Qed.

(** ** Theorems on [after13p] *)

(** The product by [Decimal('0.87')] of an amount whose product fits the
    context is exact. *)
Lemma mul_rate (sg : bool) (c e : Z) :
  0 <= c -> ndigits (87 * c) <= 28 -> -1000024 <= e <= 999974 ->
  mul DefaultContext (Finite sg c e) (Finite false 87 (-2)) = Ok (Finite sg (87 * c) (e - 2)).
Proof.
  intros Hc Hd He. unfold mul. cbn [check_nans sign_of]. rewrite xorb_false_r, (Z.mul_comm c 87).
  replace (e + -2) with (e - 2) by lia. apply fix_finite_default_id; lia.
Qed.

Lemma mul_rate_overflow (sg : bool) (c e : Z) :
  0 < c -> ndigits (87 * c) <= 28 -> -1000024 <= e ->
  mul DefaultContext (Finite sg c e) (Finite false 87 (-2)) =
  if 999999 <? e - 3 + ndigits (87 * c) then Err DecimalOverflow else Ok (Finite sg (87 * c) (e - 2)).
Proof.
  intros Hc Hd He. unfold mul. cbn [check_nans sign_of]. rewrite xorb_false_r, (Z.mul_comm c 87).
  replace (e + -2) with (e - 2) by lia. rewrite fix_finite_default_overflow by lia.
  replace (e - 2 + ndigits (87 * c) - 1) with (e - 3 + ndigits (87 * c)) by lia. reflexivity.
Qed.

(** C2. Refinement of the spec's [round_half_away_from_zero(a * 0.87, 2)]:
    when the amount parses as [(-1)^sg * c * 10^e], the product [87 * c]
    fits the 28 digits of the default context and the exponent is in the
    context's range, [after13p] returns the currency text of
    [c * 10^e * 0.87] rounded half away from zero to cents (with the
    amount's sign), or [InvalidOperation] when the cents do not fit in 28
    digits. *)
Theorem after13p_refines_spec (s : string) (sg : bool) (c e : Z) :
  Decimal s = Ok (Finite sg c e) ->
  ndigits (87 * c) <= 28 -> -1000024 <= e <= 999974 ->
  after13p s =
  if spec_after13p_cents c e <? 10 ^ 28
  then Ok (string_of_list_ascii (currency_text sg (spec_after13p_cents c e)))
  else Err InvalidOperation.
Proof.
  intros Hs Hd He. pose proof (Decimal_wf s _ Hs) as Hc. simpl in Hc.
  unfold after13p. rewrite Hs, Decimal_rate. cbn [bind].
  rewrite mul_rate by lia. cbn [bind].
  rewrite decimal_to_currency_str_cents by lia. reflexivity.
Qed.

(** C16. The overflow of [after13p]: on an amount [(-1)^sg * c * 10^e],
    [c > 0], whose product [87 * c] fits the 28 digits of the context,
    however large the exponent, the product raises [decimal.Overflow]
    exactly when its adjusted exponent [e - 2 + digits(87c) - 1] is above
    [Emax = 999999]; otherwise [after13p] answers the spec's cents, or
    raises [InvalidOperation] when they do not fit in 28 digits. *)
Theorem after13p_overflow (s : string) (sg : bool) (c e : Z) :
  Decimal s = Ok (Finite sg c e) -> 0 < c -> ndigits (87 * c) <= 28 -> -1000024 <= e ->
  after13p s =
  if 999999 <? e - 3 + ndigits (87 * c) then Err DecimalOverflow
  else if spec_after13p_cents c e <? 10 ^ 28
  then Ok (string_of_list_ascii (currency_text sg (spec_after13p_cents c e)))
  else Err InvalidOperation.
Proof.
  intros Hs Hc Hd He. unfold after13p. rewrite Hs, Decimal_rate. cbn [bind].
  rewrite mul_rate_overflow by lia. destruct (_ <? _); cbn [bind]; [reflexivity|].
  rewrite decimal_to_currency_str_cents by lia. reflexivity.
Qed.

(** C17. Double rounding in [after13p]: on an amount
    [(-1)^sg * c * 10^e] whose product [87 * c] has more than the 28
    digits of the context (and whose adjusted exponent stays below
    [Emax]), the answer is the product first rounded half-even to 28
    significant digits by [__mul__], then rounded half away from zero to
    cents by [quantize]; [InvalidOperation] when the cents exceed 28
    digits.  With C2 this gives [after13p] on every parsed amount in the
    context's exponent range. *)
Theorem after13p_rounds_product_first (s : string) (sg : bool) (c e : Z) :
  Decimal s = Ok (Finite sg c e) -> 28 < ndigits (87 * c) -> -1000024 <= e ->
  e - 3 + ndigits (87 * c) < 999999 ->
  let R := round_cents (round_half_even (87 * c) (10 ^ (ndigits (87 * c) - 28))) (e - 2 + ndigits (87 * c) - 28) in
  after13p s = if R <? 10 ^ 28 then Ok (string_of_list_ascii (currency_text sg R)) else Err InvalidOperation.
Proof.
  intros Hs Hd He1 He2 R. pose proof (Decimal_wf s _ Hs) as Hc. cbn [wf_decimal] in Hc.
  assert (H87 : 0 < 87 * c)
    by (destruct (Z.eq_dec c 0) as [->|]; [rewrite Z.mul_0_r, ndigits_zero in Hd; lia | lia]).
  unfold after13p. rewrite Hs, Decimal_rate. cbn [bind]. unfold mul. cbn [check_nans sign_of].
  rewrite xorb_false_r, (Z.mul_comm c 87). replace (e + -2) with (e - 2) by lia.
  destruct (fix_finite_default_round sg (87 * c) (e - 2) H87 Hd ltac:(lia) ltac:(lia)) as (c' & e' & -> & Hc' & HR).
  cbn [bind]. rewrite decimal_to_currency_str_cents, HR by exact Hc'. reflexivity.
Qed.

(** What [after13p] computes once the amount [d] and the rate are
    parsed (lines 97-102). *)
Local Abbreviation after13p_rest d :=
  (purchase_amount_reduced_dec <- mul DefaultContext d (Finite false 87 (-2)) ;;
   decimal_to_currency_str purchase_amount_reduced_dec)
  (only parsing).

Lemma Decimal_currency_text (neg : bool) (r : Z) :
  0 <= r -> Decimal (string_of_list_ascii (currency_text neg r)) = Ok (Finite neg r (-2)).
Proof. intros Hr. unfold Decimal. rewrite list_ascii_of_string_of_list_ascii. now apply decimal_of_currency_text. Qed.

(** The rest of [after13p] on an amount of [r] cents whose product by
    87 fits the 28 digits of the context. *)
Lemma after13p_rest_cents (neg : bool) (r : Z) :
  0 <= r -> 87 * r < 10 ^ 28 ->
  after13p_rest (Finite neg r (-2)) =
  Ok (string_of_list_ascii (currency_text neg (round_half_away (87 * r) 100))).
Proof.
  intros Hr H87. rewrite mul_rate by (try apply ndigits_le; lia). cbn [bind].
  rewrite decimal_to_currency_str_cents by lia.
  replace (round_cents (87 * r) (-2 - 2)) with (round_half_away (87 * r) 100) by reflexivity.
  pose proof (round_half_away_le (87 * r) 100 ltac:(lia)).
  assert (87 * r / 100 < 10 ^ 26) by (apply Z.div_lt_upper_bound; [lia | exact H87]).
  rewrite (proj2 (Z.ltb_lt _ _)) by (assert (10 ^ 26 + 1 < 10 ^ 28) by reflexivity; lia). reflexivity.
Qed.

(** C4. For every amount typed with two decimals, as the prompt expects
    ([d.dd], an optional minus sign), whose product by [0.87] fits the 28
    digits of the context ([87 * r < 10^28] for [r] cents: every amount
    with at most 24 integer digits), [after13p] answers exactly the
    spec's rounding of [0.87 * amount] to cents, half away from zero:
    [round_half_away (87 * r) 100].  Beyond, the product is rounded to
    28 digits first. *)
Theorem after13p_on_cents_amounts (neg : bool) (r : Z) :
  0 <= r -> 87 * r < 10 ^ 28 ->
  after13p (string_of_list_ascii (currency_text neg r)) =
  Ok (string_of_list_ascii (currency_text neg (round_half_away (87 * r) 100))).
Proof.
  intros Hr H87. unfold after13p. rewrite Decimal_currency_text, Decimal_rate by lia.
  exact (after13p_rest_cents neg r Hr H87).
Qed.


(** C7. Every answer the helper gives for a finite non-negative decimal
    is a currency string: an optional minus sign, at least one digit, a
    point and exactly two digits. *)
Theorem decimal_to_currency_str_shape (s : bool) (c e : Z) (t : string) :
  0 <= c -> decimal_to_currency_str (Finite s c e) = Ok t ->
  is_currency_text (list_ascii_of_string t) = true.
Proof.
  intros Hc H. rewrite decimal_to_currency_str_cents in H by assumption.
  destruct (_ <? _); [|discriminate]. injection H as <-.
  rewrite list_ascii_of_string_of_list_ascii.
  apply currency_text_shape, round_cents_nonneg, Hc.
Qed.

(** C21. [after13p] on every input that is not a finite amount: a string
    that is not a decimal literal raises [InvalidOperation] (the spec's
    ParseError), so do infinities and signaling NaNs; a quiet NaN is
    answered with the text ["NaN"] and its payload, not an error. *)
Theorem after13p_nonfinite (s : string) :
  match Decimal s with
  | Err _ => after13p s = Err InvalidOperation
  | Ok (Finite _ _ _) => True
  | Ok (Infinity _) | Ok (SNaN _ _) => after13p s = Err InvalidOperation
  | Ok (NaN sg p) => after13p s = Ok (string_of_list_ascii (dec_str (NaN sg (nan_payload p))))
  end.
Proof.
  unfold after13p. destruct (Decimal s) as [d|x] eqn:Hs.
  - rewrite Decimal_rate. cbn [bind].
    destruct d as [sg c e|sg|sg p|sg p]; [exact I | reflexivity | | reflexivity].
    unfold mul. cbn [check_nans]. rewrite fix_nan_default. cbn [bind].
    unfold decimal_to_currency_str. rewrite Decimal_cents. cbn [bind quantize check_nans].
    rewrite fix_nan_default, nan_payload_idem. reflexivity.
  - cbn [bind]. f_equal. eapply decimal_of_text_err; exact Hs.
Qed.

(** ** Where the program and the spec part: concrete inputs

    Single evaluations, checked against CPython, that exhibit the
    differences recorded as findings; the general theorems above
    ([after13p_rounds_product_first], [after5_refines_spec_on_float],
    [after5_nonfinite]) say when they occur. *)

(** The two calculators disagree on a negative zero and on the
    special values: [after13p] keeps the sign of ["-0"] and answers
    ["-0.00"], [after5] answers ["0.00"]; ["nan"] is answered with
    ["NaN"] by both instead of a parse error, and ["inf"] raises
    [InvalidOperation] in [after13p] but gives ["NaN"] in [after5]. *)
Theorem calculators_on_special_inputs :
  after13p "-0" = Ok "-0.00"%string /\ after5 "-0" = Ok "0.00"%string /\
  after13p "nan" = Ok "NaN"%string /\ after5 "nan" = Ok "NaN"%string /\
  after13p "inf" = Err InvalidOperation /\ after5 "inf" = Ok "NaN"%string.
Proof. repeat split; vm_compute; reflexivity. Qed.

(** [after5] rounds the amount to a binary float first: ["2.675"]
    becomes [2.67499999999999982236431605997495353221893310546875] and the
    answer is ["2.67"], where the spec's formula
    [round_half_away_from_zero(a - floor(a/30)*5, 2)] gives 2.68. *)
Theorem after5_binary_rounding :
  spec_after5_cents 2675 (-3) = 268 /\ after5 "2.675" = Ok "2.67"%string.
Proof. split; vm_compute; reflexivity. Qed.

(** Near a multiple of 30 the float conversion changes the number of
    increments: ["89.99999999999999999"] converts to the float 90.0, which
    holds three increments, and [after5] answers ["75.00"]; the exact
    amount holds two and the spec's answer is 80.00. *)
Theorem after5_increment_boundary :
  spec_increments 8999999999999999999 (-17) = 2 /\
  spec_after5_cents 8999999999999999999 (-17) = 8000 /\
  float "89.99999999999999999" = Ok (f64_of_Z 90) /\
  after5 "89.99999999999999999" = Ok "75.00"%string.
Proof. repeat split; vm_compute; reflexivity. Qed.

(** The two parsers accept different texts: [Decimal()] removes every
    underscore ([_pydecimal]'s [value.strip().replace("_", "")]), while
    [float()] asks for an underscore between two digits.  So ["_1"] and
    ["1__0"] are amounts for [after13p] and a [ValueError] for [after5]. *)
Theorem calculators_on_underscores :
  after13p "_1" = Ok "0.87"%string /\ after5 "_1" = Err ValueError /\
  after13p "1__0" = Ok "8.70"%string /\ after5 "1__0" = Err ValueError /\
  after13p " 1_0 " = Ok "8.70"%string /\ after5 " 1_0 " = Ok "10.00"%string.
Proof. repeat split; vm_compute; reflexivity. Qed.

(** The unit test's amount ["3.074712643678161"] does not tell the
    rounding modes apart: its product [2.67500000000000007] is not a tie,
    and [ROUND_HALF_EVEN] quantizes it to [2.68] as [ROUND_HALF_UP] does.
    The amount ["1.5"], whose product [1.305] is a tie, does: the program
    answers ["1.31"], where [ROUND_HALF_EVEN] gives [1.30]. *)
Theorem rounding_mode_test_inputs :
  mul DefaultContext (Finite false 3074712643678161 (-15)) (Finite false 87 (-2))
    = Ok (Finite false 267500000000000007 (-17)) /\
  quantize DefaultContext (Finite false 267500000000000007 (-17)) (Finite false 1 (-2)) ROUND_HALF_EVEN
    = Ok (Finite false 268 (-2)) /\
  after13p "3.074712643678161" = Ok "2.68"%string /\
  quantize DefaultContext (Finite false 1305 (-3)) (Finite false 1 (-2)) ROUND_HALF_EVEN
    = Ok (Finite false 130 (-2)) /\
  after13p "1.5" = Ok "1.31"%string.
Proof. repeat split; vm_compute; reflexivity. Qed.

(** ** The exceptions the calculators raise *)

Lemma decimal_to_currency_str_exn (d : decimal) (x : exn) :
  decimal_to_currency_str d = Err x -> x = InvalidOperation \/ x = DecimalOverflow.
Proof.
  unfold decimal_to_currency_str. rewrite Decimal_cents. cbn [bind].
  destruct (quantize _ _ _ _) eqn:E; cbn [bind]; [discriminate|].
  intros [= <-]. eapply quantize_exn; eauto.
Qed.

Lemma after13p_exn (s : string) (x : exn) :
  after13p s = Err x -> x = InvalidOperation \/ x = DecimalOverflow.
Proof.
  unfold after13p. destruct (Decimal s) eqn:Hs; cbn [bind].
  - rewrite Decimal_rate. cbn [bind]. destruct (mul _ _ _) eqn:Hm; cbn [bind].
    + apply decimal_to_currency_str_exn.
    + intros [= <-]. eapply mul_exn; eauto.
  - intros [= <-]. left. eapply decimal_of_text_err; eauto.
Qed.

(** On a well-formed decimal the helper raises only [InvalidOperation]. *)
Lemma decimal_to_currency_str_exn_wf (d : decimal) (x : exn) :
  wf_decimal d -> decimal_to_currency_str d = Err x -> x = InvalidOperation.
Proof.
  intros Hd. unfold decimal_to_currency_str. rewrite Decimal_cents. cbn [bind].
  destruct (quantize _ _ _ _) eqn:E; cbn [bind]; [discriminate|].
  intros [= <-]. exact (quantize_default_exn d (-2) _ _ Hd ltac:(lia) E).
Qed.

Lemma after5_exn (s : string) (x : exn) :
  after5 s = Err x -> x = ValueError \/ x = InvalidOperation.
Proof.
  unfold after5. destruct (float s) as [f|e] eqn:Hf; cbn [bind].
  - destruct (float_floordiv_ok f (f64_of_Z 30) eq_refl) as [q ->]. cbn [bind].
    intros H. right. exact (decimal_to_currency_str_exn_wf _ _ (decimal_from_float_wf _) H).
  - intros [= <-]. left. eapply float_of_text_exn; eauto.
Qed.

(** C22. [after13p] raises exactly two exceptions: [InvalidOperation], for
    a string that is not a decimal literal (the spec's ParseError) among
    others, and [decimal.Overflow], which the spec does not list, for an
    amount such as ["9e1000000"] whose product exceeds the default
    context's [Emax]. *)
Theorem after13p_exceptions :
  (forall s x, after13p s = Err x -> x = InvalidOperation \/ x = DecimalOverflow) /\
  after13p "abc" = Err InvalidOperation /\ after13p "9e1000000" = Err DecimalOverflow.
Proof. split; [exact after13p_exn | split; vm_compute; reflexivity]. Qed.

(** C23. [after5] raises exactly two exceptions: [ValueError], for a
    string [float()] does not read (the spec's ParseError), and
    [decimal.InvalidOperation], which the spec does not list, when the
    answer in cents needs more than the context's 28 digits, as for the
    well-formed amount ["1e30"].  The floor division by 30 never raises
    and [Decimal(float)] is exact. *)
Theorem after5_exceptions :
  (forall s x, after5 s = Err x -> x = ValueError \/ x = InvalidOperation) /\
  after5 "abc" = Err ValueError /\ after5 "1e30" = Err InvalidOperation.
Proof. split; [exact after5_exn | split; vm_compute; reflexivity]. Qed.

Lemma terse_wrappers_no_exit (s : string) :
  after13p_terse_wrapper s <> Err SystemExit /\ after5_terse_wrapper s <> Err SystemExit.
Proof.
  unfold after13p_terse_wrapper, after5_terse_wrapper. split.
  - destruct (after13p s) eqn:E; cbn [bind]; [discriminate|].
    intros [= ->]. destruct (after13p_exn s _ E); discriminate.
  - destruct (after5 s) eqn:E; cbn [bind]; [discriminate|].
    intros [= ->]. destruct (after5_exn s _ E); discriminate.
Qed.

(** ** Witnesses: the theorems above at concrete inputs *)

Lemma after13p_refines_spec_witness :
  Decimal "29.99" = Ok (Finite false 2999 (-2)) /\ after13p "29.99" = Ok "26.09"%string.
Proof.
  split; [reflexivity|].
  rewrite (after13p_refines_spec "29.99" false 2999 (-2)).
  - vm_compute. reflexivity.
  - reflexivity.
  - apply Z.leb_le. reflexivity.
  - lia.
Defined.

Lemma after13p_overflow_witness :
  Decimal "9e1000000" = Ok (Finite false 9 1000000) /\ after13p "9e1000000" = Err DecimalOverflow.
Proof.
  split; [reflexivity|].
  rewrite (after13p_overflow "9e1000000" false 9 1000000); [reflexivity | reflexivity | lia | vm_compute; discriminate | lia].
Defined.

Lemma after13p_rounds_product_first_witness :
  after13p "3.0747126436781609195402298850574712643678" = Ok "2.68"%string.
Proof.
  rewrite (after13p_rounds_product_first _ false 30747126436781609195402298850574712643678 (-40));
    [vm_compute; reflexivity | vm_compute; reflexivity | vm_compute; reflexivity | lia | vm_compute; reflexivity].
Defined.

Lemma decimal_to_currency_str_rounds_witness :
  decimal_to_currency_str (Finite false 26091300 (-6)) = Ok "26.09"%string.
Proof.
  apply (decimal_to_currency_str_rounds false 26091300 (-6) "26.09"); [lia|].
  exists 2609. vm_compute. repeat split; discriminate || reflexivity.
Defined.

Lemma decimal_to_currency_str_shape_witness :
  is_currency_text (list_ascii_of_string "-0.00") = true.
Proof.
  apply (decimal_to_currency_str_shape true 1 (-5) "-0.00"); [lia | vm_compute; reflexivity].
Defined.

Lemma after13p_on_cents_amounts_witness :
  after13p (string_of_list_ascii (currency_text false 2999)) = Ok "26.09"%string.
Proof.
  rewrite (after13p_on_cents_amounts false 2999) by (lia || (vm_compute; reflexivity)).
  vm_compute. reflexivity.
Defined.

