(* ===== verification/After5.v ===== *)
(** * [after5] computes the spec's formula exactly on the float it reads

    [after5] (lines 124-202) reads the amount with [float()] and then
    computes [x - (x // 30) * 5] in binary floating point.  For every
    non-negative float [x] below [2^53] each of these operations is exact
    (the lemmas of [FloatExact]): the floor division is the integer
    [floor(x / 30)], the product and the difference do not round, and
    [Decimal(float)] converts the result without error.  So the only
    rounding between the float and the answer is the final rounding to
    cents, and [after5 s] is the spec's formula applied to the exact
    value of [float(s)].  Where [after5] and the spec disagree (theorems
    [after5_binary_rounding] and [after5_increment_boundary]), the
    reading of the amount as a float is the cause.  On amounts typed with
    one or two decimals that reading errs by too little to matter
    ([after5_on_tenths_amounts], [after5_on_cents_amounts], through
    [FloatRound]). *)

From Stdlib Require Import ZArith List String Ascii Bool Lia SpecFloat.
From S2P Require Import Prelude PyText Money PyDecimal Binary64 FloatExact FloatRound FloatSigned Discounts.
Local Open Scope Z_scope.
Local Open Scope py_scope.

(** ** The float constants of [after5] *)

Lemma thirty_val : f64_val (f64_of_Z 30) 30 0.
Proof. reflexivity. Qed.

Lemma five_repr : f64_repr (f64_of_Z 5) 5 0.
Proof. split; [reflexivity | cbn; lia]. Qed.

(** ** Rounding a dyadic amount to cents *)

(** [c * 10^t] and [R / 2^(-k)] are the same amount, so their cents
    are the same. *)
Lemma round_cents_dyadic (c t R k : Z) :
  t <= 0 -> k <= 0 -> c * 2 ^ (- k) = R * 10 ^ (- t) ->
  round_cents c t = round_half_away (R * 100) (2 ^ (- k)).
Proof.
  intros Ht Hk H. pose proof (pow2_pos (- k) ltac:(lia)). unfold round_cents, cents_ratio.
  destruct (Z.leb_spec 0 (t + 2)).
  - apply round_half_away_cross; [lia | lia |].
    replace (10 ^ (- t)) with (10 ^ (- t)) in H by reflexivity.
    apply (Z.mul_cancel_r _ _ (10 ^ (- t))); [pose proof (pow10_pos (- t) ltac:(lia)); lia|].
    transitivity (c * 2 ^ (- k) * (10 ^ (t + 2) * 10 ^ (- t))); [ring|].
    rewrite <- Z.pow_add_r by lia. replace (t + 2 + - t) with 2 by lia. rewrite H. ring.
  - pose proof (pow10_pos (- (t + 2)) ltac:(lia)). apply round_half_away_cross; [lia | lia |].
    rewrite H. replace (10 ^ (- t)) with (10 ^ 2 * 10 ^ (- (t + 2)))
      by (rewrite <- Z.pow_add_r by lia; f_equal; lia).
    change (10 ^ 2) with 100. ring.
Qed.

Lemma spec_after5_ratio_zero (den : Z) : 0 < den -> spec_after5_ratio 0 den = 0.
Proof.
  intros Hd. unfold spec_after5_ratio. rewrite Z.div_0_l by lia.
  replace ((0 - 5 * 0 * den) * 100) with 0 by ring.
  rewrite round_half_away_div, Z.div_0_l, Z.mod_0_l by lia. destruct (Z.leb_spec den (2 * 0)); lia.
Qed.

(** The cents of an amount below [2^53] fit in the 28 digits of the
    decimal context. *)
Lemma spec_after5_ratio_bound (R den : Z) :
  0 <= R < 2 ^ 53 -> 1 <= den -> round_half_away (R * 100) den < 10 ^ 28.
Proof.
  intros HR Hd. pose proof (round_half_away_le (R * 100) den ltac:(lia)).
  assert (R * 100 / den <= R * 100) by (apply Z.div_le_upper_bound; nia).
  assert (2 ^ 53 * 100 + 1 < 10 ^ 28) by reflexivity. lia.
Qed.

(** ** [after5] on a non-negative float below [2^53] *)

(** The increments [N / D] of an amount [N] at scale [2^k], [D = 30 * 2^(-k)],
    are below [2^52]. *)
Lemma increments_bound (N k : Z) :
  0 <= N < 2 ^ 53 -> k <= 0 -> N / (30 * 2 ^ (- k)) < 2 ^ 52.
Proof.
  intros HN Hk. pose proof (pow2_pos (- k) ltac:(lia)).
  apply Z.div_lt_upper_bound; [lia|]. assert (2 ^ 53 < 30 * 2 ^ (- k) * 2 ^ 52) by nia. lia.
Qed.

(** The part of [after5] after the floor division, for an amount [N]
    at scale [2^k] whose increment count [q] is the float of [Q]. *)
Lemma after5_tail (x q : binary64) (N k : Z) :
  f64_val x N k -> 0 < N < 2 ^ 53 -> emin64 <= k <= 0 ->
  f64_repr q (N / (30 * 2 ^ (- k))) 0 ->
  decimal_to_currency_str (decimal_from_float (f64_sub x (f64_mul q (f64_of_Z 5)))) =
  Ok (string_of_list_ascii (currency_text false (spec_after5_ratio N (2 ^ (- k))))).
Proof.
  intros Hx HN Hk Hq. set (Q := N / (30 * 2 ^ (- k))) in *.
  pose proof (pow2_pos (- k) ltac:(lia)) as Hp.
  pose proof (Z.mul_div_le N (30 * 2 ^ (- k)) ltac:(lia)) as HQN.
  assert (HQ0 : 0 <= Q) by (apply Z.div_pos; lia).
  pose proof (increments_bound N k ltac:(lia) ltac:(lia)) as HQb. fold Q in HQb.
  pose proof (f64_mul_repr q (f64_of_Z 5) Q 5 0 0 Hq five_repr ltac:(lia)
                ltac:(rewrite emin64_eq; lia) ltac:(unfold emax64, prec64; lia)) as [Hm _].
  pose proof (f64_val_scale _ _ 0 k ltac:(lia) Hm) as Hm'. rewrite Z.sub_0_l in Hm'.
  set (R := N - Q * 5 * 2 ^ (- k)).
  assert (HR : 0 < R < 2 ^ 53) by (unfold R; nia).
  pose proof (f64_sub_val x _ N _ k Hx Hm' ltac:(fold R; lia) ltac:(lia)
                ltac:(unfold emax64, prec64; lia)) as Hr. fold R in Hr.
  destruct (f64_sub x (f64_mul q (f64_of_Z 5))) as [sr|sr| |sr mr er]; cbn [f64_val] in Hr;
    try contradiction; [lia|].
  pose proof (f64_val_finite_sign _ _ _ _ _ Hr ltac:(lia)) as ->.
  destruct (decimal_from_float_val mr er R k Hr ltac:(lia)) as (c & t & -> & Hc & Ht & Hct).
  rewrite decimal_to_currency_str_cents by exact Hc.
  rewrite (round_cents_dyadic c t R k Ht ltac:(lia) Hct).
  assert (Hspec : spec_after5_ratio N (2 ^ (- k)) = round_half_away (R * 100) (2 ^ (- k)))
    by (unfold spec_after5_ratio, R, Q; f_equal; ring).
  rewrite Hspec, (proj2 (Z.ltb_lt _ _) (spec_after5_ratio_bound R (2 ^ (- k)) ltac:(lia) ltac:(lia))).
  reflexivity.
Qed.

(** What [after5] computes once [float()] has read the amount [x]
    (lines 191-202). *)
Local Abbreviation after5_rest x :=
  (increments <- float_floordiv x (f64_of_Z 30) ;;
   decimal_to_currency_str (decimal_from_float (f64_sub x (f64_mul increments (f64_of_Z 5)))))
  (only parsing).

(** The rest of [after5] on a non-negative integer [N] below [2^53] at a
    scale [2^k] with [k <= 0]. *)
Lemma after5_rest_exact (x : binary64) (N k : Z) :
  f64_val x N k -> 0 <= N < 2 ^ 53 -> emin64 <= k <= 0 ->
  after5_rest x = Ok (string_of_list_ascii (currency_text false (spec_after5_ratio N (2 ^ (- k))))).
Proof.
  intros Hx HN Hk. pose proof (pow2_pos (- k) ltac:(lia)) as Hp.
  destruct (Z.eq_dec N 0) as [->|HN0].
  - rewrite spec_after5_ratio_zero by lia. destruct (f64_val_zero x k Hx) as [[|] ->]; reflexivity.
  - assert (Hy : f64_val (f64_of_Z 30) (30 * 2 ^ (- k)) k).
    { replace (- k) with (0 - k) by lia. apply f64_val_scale; [lia | exact thirty_val]. }
    destruct (float_floordiv_val x _ N _ k Hx Hy HN ltac:(lia) (increments_bound N k HN ltac:(lia))
                ltac:(lia) ltac:(lia)) as (q & -> & Hq).
    cbn [bind]. apply after5_tail; [exact Hx | lia | lia | exact Hq].
Qed.

(** The rest of [after5] on the float of [A / 10^j], an amount typed
    with [j] decimals, one or two, below [10^13]. *)
Lemma after5_rest_decimal (A j : Z) :
  1 <= j <= 2 -> 0 <= A < 10 ^ (13 + j) ->
  after5_rest (f64_of_decimal false A (- j)) =
  Ok (string_of_list_ascii (currency_text false (spec_after5_cents A (- j)))).
Proof.
  intros Hj HA. destruct (Z.eq_dec A 0) as [->|HA0].
  { assert (j = 1 \/ j = 2) as [-> | ->] by lia; vm_compute; reflexivity. }
  destruct (f64_of_decimal_below A j Hj ltac:(lia)) as (N & k & Hv & HN & Hk & HP & HNb).
  rewrite (after5_rest_exact _ N k Hv) by lia.
  rewrite spec_after5_cents_ratio, (proj2 (Z.leb_gt 0 (- j)) ltac:(lia)), Z.opp_involutive.
  pose proof (pow10_pos j ltac:(lia)). pose proof (pow10_pos (2 - j) ltac:(lia)).
  assert (H100 : 10 ^ j * 10 ^ (2 - j) = 100) by (rewrite <- Z.pow_add_r by lia; replace (j + (2 - j)) with 2 by lia; reflexivity).
  rewrite <- (spec_after5_ratio_scale A (10 ^ j) (10 ^ (2 - j))), H100 by lia.
  assert (HX : A * 10 ^ (2 - j) * 2 ^ (- k) / 100 = A * 2 ^ (- k) / 10 ^ j)
    by (rewrite <- H100, Z.mul_shuffle0, Z.div_mul_cancel_r by lia; reflexivity).
  rewrite (spec_after5_ratio_close (A * 10 ^ (2 - j)) N) by (rewrite ?HX; nia).
  reflexivity.
Qed.

(** The rest of [after5] on the float of [A] cents. *)
Lemma after5_rest_cents (A : Z) :
  0 <= A < 10 ^ 15 ->
  after5_rest (f64_of_decimal false A (-2)) =
  Ok (string_of_list_ascii (currency_text false (spec_after5_cents A (-2)))).
Proof. intros HA. exact (after5_rest_decimal A 2 ltac:(lia) HA). Qed.

Lemma float_currency_text (A : Z) :
  0 <= A -> float (string_of_list_ascii (currency_text false A)) = Ok (f64_of_decimal false A (-2)).
Proof.
  intros HA. unfold float. rewrite list_ascii_of_string_of_list_ascii. now apply float_of_currency_text.
Qed.

(** C3. Refinement of the spec's [a - floor(a / 30) * 5] rounded half
    away from zero to cents: when [float(s)] is a non-negative float of
    value [N * 2^k] below [2^53], [after5 s] answers the currency text of
    that formula applied to the float's exact value [N / 2^(-k)].  The
    float operations of lines 191-197 introduce no error. *)
Theorem after5_refines_spec_on_float (s : string) (x : binary64) (N k : Z) :
  float s = Ok x -> f64_val x N k -> 0 <= N < 2 ^ 53 -> emin64 <= k <= 0 ->
  after5 s = Ok (string_of_list_ascii (currency_text false (spec_after5_ratio N (2 ^ (- k))))).
Proof. intros Hs Hx HN Hk. unfold after5. rewrite Hs. exact (after5_rest_exact x N k Hx HN Hk). Qed.

(** C11. On a whole amount below [2^53] written in digits, [after5]
    answers exactly what the spec's formula gives: the float conversion
    is exact there, and so is the rest of the computation. *)
Theorem after5_whole_amounts (n : Z) :
  0 <= n < 2 ^ 53 ->
  after5 (string_of_list_ascii (to_digits n)) =
  Ok (string_of_list_ascii (currency_text false (spec_after5_cents n 0))).
Proof.
  intros Hn. destruct (to_digits_spec n ltac:(lia)) as (Hne & Hall & _).
  unfold after5, float. rewrite list_ascii_of_string_of_list_ascii, float_of_text_digits by assumption.
  rewrite digits_value_to_digits by lia. cbn [bind].
  rewrite spec_after5_cents_ratio. cbn [Z.leb]. rewrite Z.mul_1_r.
  exact (after5_rest_exact _ n 0 (f64_of_decimal_int n Hn) ltac:(lia) ltac:(rewrite emin64_eq; lia)).
Qed.

(** C5. On every amount written with two decimals, up to ten thousand
    billion, [after5] answers exactly what the spec's formula gives on the
    decimal amount: the float read by [float()] may differ from the
    amount, but by less than one unit of [2^k] with [2^(-k) > 200], which
    changes neither the number of whole 30s nor the cents. *)
Theorem after5_on_cents_amounts (A : Z) :
  0 <= A < 10 ^ 15 ->
  after5 (string_of_list_ascii (currency_text false A)) =
  Ok (string_of_list_ascii (currency_text false (spec_after5_cents A (-2)))).
Proof. intros HA. unfold after5. rewrite float_currency_text by lia. exact (after5_rest_cents A HA). Qed.

(** C15. On every amount typed with one decimal, ["d.d"], up to a
    thousand billion, [after5] answers exactly what the spec's formula
    gives on the decimal amount: [float("30.1")] is not [30.1], but the
    error is again below one unit of a scale finer than [1/200]. *)
Theorem after5_on_tenths_amounts (A : Z) :
  0 <= A < 10 ^ 14 ->
  after5 (string_of_list_ascii (tenths_text A)) =
  Ok (string_of_list_ascii (currency_text false (spec_after5_cents A (-1)))).
Proof.
  intros HA. unfold after5, float. rewrite list_ascii_of_string_of_list_ascii, float_of_tenths_text by lia.
  exact (after5_rest_decimal A 1 ltac:(lia) HA).
Qed.

(** ** [after5] on the texts [float()] reads as an infinity or a NaN *)

(** C19. Whenever [float()] reads the amount as an infinity or a NaN
    (["inf"], ["-Infinity"], ["nan"], but also an amount too large for a
    float such as ["1e400"]), [after5] raises nothing and answers
    ["NaN"]: [fmod] of an infinity is a NaN, so the floor division by 30
    gives a NaN, and so do the product and the difference; [Decimal] of a
    NaN is a positive NaN, which [quantize] and [str()] keep. *)
Theorem after5_nonfinite (s : string) (x : binary64) :
  float s = Ok x -> (x = S754_nan \/ exists b, x = S754_infinity b) -> after5 s = Ok "NaN"%string.
Proof.
  intros Hs Hx. unfold after5. rewrite Hs. cbn [bind].
  destruct Hx as [-> | [[|] ->]]; vm_compute; reflexivity.
Qed.

(** ** [after5] on whole amounts of either sign *)

(** The rest of [after5] on a float of integer value [N], [|N| < 2^53],
    whose answer [N - 5 * (N // 30)] is not zero: every float operation
    is exact, including the floor division of a negative [N]. *)
Lemma after5_rest_int (x : binary64) (N : Z) :
  f64_val x N 0 -> Z.abs N < 2 ^ 53 -> N - 5 * (N / 30) <> 0 ->
  after5_rest x =
  Ok (string_of_list_ascii (currency_text (N - 5 * (N / 30) <? 0) (Z.abs (N - 5 * (N / 30)) * 100))).
Proof.
  intros Hx HN HR. set (Q := N / 30) in *. set (R := N - 5 * Q) in *.
  pose proof (Z.div_mod N 30 ltac:(lia)) as Hdm. pose proof (Z.mod_pos_bound N 30 ltac:(lia)) as Hmb.
  fold Q in Hdm.
  destruct (float_floordiv_floor x (f64_of_Z 30) N 30 0 Hx thirty_val HN ltac:(lia) ltac:(lia)
              ltac:(rewrite emin64_eq; lia) ltac:(lia)) as (q & -> & Hq).
  cbn [bind].
  pose proof (f64_mul_repr q (f64_of_Z 5) Q 5 0 0 Hq five_repr ltac:(lia)
                ltac:(rewrite emin64_eq; lia) ltac:(unfold emax64, prec64; lia)) as [Hm _].
  pose proof (f64_sub_val x _ N _ 0 Hx Hm ltac:(lia) ltac:(rewrite emin64_eq; lia)
                ltac:(unfold emax64, prec64; lia)) as Hr.
  replace (N - Q * 5) with R in Hr by (unfold R; ring).
  destruct (f64_sub x (f64_mul q (f64_of_Z 5))) as [sr|sr| |sr mr er]; cbn [f64_val] in Hr;
    try contradiction.
  destruct (f64_val_abs _ _ _ _ _ Hr HR) as [-> Habs].
  rewrite decimal_from_float_sign.
  destruct (decimal_from_float_val mr er (Z.abs R) 0 Habs ltac:(lia)) as (c & t & -> & Hc & Ht & Hct).
  rewrite decimal_to_currency_str_cents by exact Hc.
  rewrite (round_cents_dyadic c t (Z.abs R) 0 Ht ltac:(lia) Hct). change (2 ^ (- 0)) with 1.
  rewrite round_half_away_int.
  rewrite (proj2 (Z.ltb_lt _ _)) by (assert (2 ^ 53 * 100 < 10 ^ 28) by reflexivity; lia).
  reflexivity.
Qed.

(** C12. [after5] on a negative whole amount [-n], [0 < n < 2^53]: the
    spec leaves negative amounts open, and the program answers the
    formula [a - floor(a/30) * 5] with the floor toward minus infinity
    of Python's [//], which the float floor division computes exactly
    through its [div -= 1] branch.  So ["-1"] is answered ["4.00"] and
    ["-31"] ["-21.00"]; ["-5"] gives ["0.00"], without a minus sign. *)
Theorem after5_negative_whole_amounts (n : Z) :
  0 < n < 2 ^ 53 ->
  after5 (string_of_list_ascii ("-"%char :: to_digits n)) =
  Ok (string_of_list_ascii (currency_text (spec_after5_cents (- n) 0 <? 0) (Z.abs (spec_after5_cents (- n) 0)))).
Proof.
  intros Hn. rewrite spec_after5_cents_int.
  destruct (Z.eq_dec n 5) as [->|Hn5]; [vm_compute; reflexivity|].
  destruct (to_digits_spec n ltac:(lia)) as (Hne & Hall & _).
  pose proof (Z.div_mod (- n) 30 ltac:(lia)). pose proof (Z.mod_pos_bound (- n) 30 ltac:(lia)).
  assert (HR : - n - 5 * (- n / 30) <> 0) by lia.
  unfold after5, float. rewrite list_ascii_of_string_of_list_ascii, float_of_text_neg_digits by assumption.
  rewrite digits_value_to_digits by lia. cbn [bind].
  rewrite (after5_rest_int _ (- n) (f64_of_decimal_int_signed true n ltac:(lia)) ltac:(lia) HR).
  replace (100 * (- n - 5 * (- n / 30)) <? 0) with (- n - 5 * (- n / 30) <? 0)
    by (destruct (Z.ltb_spec (- n - 5 * (- n / 30)) 0), (Z.ltb_spec (100 * (- n - 5 * (- n / 30))) 0);
        reflexivity || lia).
  replace (Z.abs (100 * (- n - 5 * (- n / 30)))) with (Z.abs (- n - 5 * (- n / 30)) * 100) by lia.
  reflexivity.
Qed.

(** ** Witness *)

Lemma after5_refines_spec_on_float_witness :
  float "29.99" = Ok (S754_finite false 8441434551552573 (-48)) /\
  after5 "29.99" = Ok (string_of_list_ascii (currency_text false (spec_after5_ratio 8441434551552573 (2 ^ 48)))).
Proof.
  split; [vm_compute; reflexivity|].
  apply (after5_refines_spec_on_float "29.99" (S754_finite false 8441434551552573 (-48)) 8441434551552573 (-48)).
  - vm_compute. reflexivity.
  - reflexivity.
  - split; [lia | vm_compute; reflexivity].
  - rewrite emin64_eq. lia.
Defined.

Lemma after5_whole_amounts_witness :
  after5 (string_of_list_ascii (to_digits 60)) = Ok (string_of_list_ascii (currency_text false (spec_after5_cents 60 0))).
Proof. apply after5_whole_amounts. split; [lia | vm_compute; reflexivity]. Defined.

Lemma after5_on_cents_amounts_witness :
  after5 (string_of_list_ascii (currency_text false 2999)) =
  Ok (string_of_list_ascii (currency_text false (spec_after5_cents 2999 (-2)))).
Proof. apply after5_on_cents_amounts. split; [lia | vm_compute; reflexivity]. Defined.

Lemma after5_on_tenths_amounts_witness : after5 "30.1"%string = Ok "25.10"%string.
Proof.
  change "30.1"%string with (string_of_list_ascii (tenths_text 301)).
  rewrite (after5_on_tenths_amounts 301) by (split; [lia | vm_compute; reflexivity]).
  vm_compute. reflexivity.
Defined.

Lemma after5_nonfinite_witness :
  float "1e400" = Ok (S754_infinity false) /\ after5 "1e400" = Ok "NaN"%string.
Proof.
  assert (H : float "1e400" = Ok (S754_infinity false)) by (vm_compute; reflexivity).
  split; [exact H | apply (after5_nonfinite _ _ H); right; exists false; reflexivity].
Defined.

Lemma after5_negative_whole_amounts_witness :
  after5 (string_of_list_ascii ("-"%char :: to_digits 31)) =
  Ok (string_of_list_ascii (currency_text (spec_after5_cents (- 31) 0 <? 0) (Z.abs (spec_after5_cents (- 31) 0)))).
Proof. apply after5_negative_whole_amounts. split; [lia | vm_compute; reflexivity]. Defined.
