(* ===== verification/Cli.v ===== *)
(** * The terminal loop of [src/hm_discounts.py] (lines 217-253, 315-321)

    [calculator_preamble] prints two lines; [calculator_loop] repeats
    [print(); user_input = input(TUI_PROMPT_EN)], stops with [sys.exit()]
    on ["q"], and otherwise prints the two wrapped answers.  Effects are a
    state monad over the process's standard streams (lines still to read,
    chunks written to standard output) with Python exceptions: an
    exception ends the loop, as nothing catches it, and the exit status is
    0 for [SystemExit] and 1 for any other exception.  The loop's theorems
    hold for any pair of calculators (the section's variables) that meet
    the interface [Calculator] (they never raise [SystemExit]); the
    program is the instance with the two terse wrappers. *)

From Stdlib Require Import ZArith List String Ascii Bool Lia.
From S2P Require Import Prelude Discounts.
Import ListNotations.
Local Open Scope string_scope.

(** ** The process's streams and the I/O monad *)

Record world : Type := mk_world {
  stdin : list string;     (** lines not yet read, without their newline *)
  stdout : list string     (** chunks written, oldest first *)
}.

Definition io (A : Type) : Type := world -> world * result A.

Definition io_ret {A : Type} (a : A) : io A := fun w => (w, Ok a).

Definition io_bind {A B : Type} (m : io A) (k : A -> io B) : io B :=
  fun w => let '(w', r) := m w in
           match r with Ok a => k a w' | Err e => (w', Err e) end.

Definition io_lift {A : Type} (r : result A) : io A := fun w => (w, r).

Declare Scope io_scope.
Delimit Scope io_scope with io.
Notation "x <- m ;; k" := (io_bind m (fun x => k))
  (at level 61, m at next level, right associativity) : io_scope.
Local Open Scope io_scope.

Definition newline : string := String (ascii_of_nat 10) EmptyString.

Definition write (s : string) : io unit :=
  fun w => (mk_world (stdin w) (stdout w ++ [s]), Ok tt).

(** [print(s)] *)
Definition print (s : string) : io unit := write (s ++ newline).

(** [input(prompt)]: the prompt is written, then a line is read; at the
    end of the input [EOFError] is raised. *)
Definition input (prompt : string) : io string :=
  fun w =>
    let w' := mk_world (stdin w) (stdout w ++ [prompt]) in
    match stdin w with
    | [] => (w', Err EOFError)
    | l :: rest => (mk_world rest (stdout w'), Ok l)
    end.

Definition sys_exit : io unit := fun w => (w, Err SystemExit).

(** ** [calculator_preamble] (lines 250-253) *)

Definition calculator_preamble : io unit :=
  _ <- print TUI_ENTRY_TIPS_EN ;;
  print TUI_HOW_QUIT_EN.

(** ** What the loop needs of a calculator

    The loop ends with status 0 only through its own [sys.exit()] on
    ["q"]; a calculator it calls must never raise [SystemExit] itself.
    The two terse wrappers are instances ([after13p_calculator],
    [after5_calculator]). *)
Class Calculator (calc : string -> result string) : Prop :=
  calc_no_exit : forall l, calc l <> Err SystemExit.

Section Loop.

(** The two calculators the loop calls, [after13p_terse_wrapper] and
    [after5_terse_wrapper] in the program. *)
Variables calc13 calc5 : string -> result string.

(** One iteration of [while True:] (lines 219-247). *)
Definition loop_body : io unit :=
  _ <- print "" ;;
  user_input <- input TUI_PROMPT_EN ;;
  if String.eqb user_input "q" then sys_exit
  else
    answer13 <- io_lift (calc13 user_input) ;;
    _ <- print answer13 ;;
    answer5 <- io_lift (calc5 user_input) ;;
    print answer5.

(** The loop run for at most [fuel] iterations; [None] when the fuel
    runs out, [Some e] when exception [e] ends it. *)
Fixpoint run_loop (fuel : nat) (w : world) : world * option exn :=
  match fuel with
  | O => (w, None)
  | S f =>
      match loop_body w with
      | (w', Ok _) => run_loop f w'
      | (w', Err e) => (w', Some e)
      end
  end.

(** Every iteration reads a line, so one more iteration than there are
    lines is always enough (theorem [run_loop_terminates]). *)
Definition loop_fuel (w : world) : nat := S (List.length (stdin w)).

End Loop.

(** ** The program: [calculator_preamble(); calculator_loop()] *)

Definition calculator_loop (w : world) : world * option exn :=
  run_loop after13p_terse_wrapper after5_terse_wrapper (loop_fuel w) w.

Definition exit_status (e : option exn) : Z :=
  match e with Some SystemExit => 0 | _ => 1 end.

Definition main (lines : list string) : list string * Z :=
  let '(w, _) := calculator_preamble (mk_world lines []) in
  let '(w', e) := calculator_loop w in
  (stdout w', exit_status e).

(** ** The loop, iteration by iteration *)

Section LoopTheorems.

Variables calc13 calc5 : string -> result string.

Definition chunks_of_line (l : string) : list string :=
  match calc13 l, calc5 l with
  | Ok a, Ok b => [newline; TUI_PROMPT_EN; a ++ newline; b ++ newline]
  | _, _ => []
  end.

Definition line_ok (l : string) : Prop :=
  l <> "q" /\ (exists a, calc13 l = Ok a) /\ (exists b, calc5 l = Ok b).

Lemma loop_body_line (l : string) (rest out : list string) :
  loop_body calc13 calc5 (mk_world (l :: rest) out) =
  if String.eqb l "q" then (mk_world rest (out ++ [newline; TUI_PROMPT_EN]), Err SystemExit)
  else
    match calc13 l with
    | Err e => (mk_world rest (out ++ [newline; TUI_PROMPT_EN]), Err e)
    | Ok a =>
        match calc5 l with
        | Err e => (mk_world rest (out ++ [newline; TUI_PROMPT_EN; a ++ newline]), Err e)
        | Ok b => (mk_world rest (out ++ [newline; TUI_PROMPT_EN; a ++ newline; b ++ newline]), Ok tt)
        end
    end.
Proof.
  unfold loop_body, io_bind, print, write, input, io_lift, sys_exit. cbn.
  rewrite <- app_assoc.
  destruct (String.eqb l "q"); [reflexivity|].
  destruct (calc13 l) as [a|e]; [|reflexivity].
  destruct (calc5 l) as [b|e]; cbn; rewrite <- !app_assoc; reflexivity.
Qed.

Lemma loop_body_eof (out : list string) :
  loop_body calc13 calc5 (mk_world [] out) = (mk_world [] (out ++ [newline; TUI_PROMPT_EN]), Err EOFError).
Proof. unfold loop_body, io_bind, print, write, input. cbn. now rewrite <- app_assoc. Qed.

(** An iteration that does not raise has read one line. *)
Lemma loop_body_progress (w w' : world) (u : unit) :
  loop_body calc13 calc5 w = (w', Ok u) -> exists l, stdin w = l :: stdin w'.
Proof.
  destruct w as [[|l rest] out].
  - rewrite loop_body_eof. discriminate.
  - rewrite loop_body_line. intros H. exists l. simpl.
    destruct (String.eqb l "q"); [discriminate|].
    destruct (calc13 l); [|discriminate]. destruct (calc5 l); [|discriminate].
    now injection H as <- _.
Qed.

(** C10. [while True:] terminates on every finite input: within one
    iteration more than there are input lines the loop has raised an
    exception ([SystemExit] on ["q"], [EOFError] at the end of the input,
    or the first error of a calculator), and more fuel changes nothing. *)
Theorem run_loop_terminates (w : world) (fuel : nat) :
  (loop_fuel w <= fuel)%nat ->
  exists w' e, run_loop calc13 calc5 fuel w = (w', Some e) /\
          run_loop calc13 calc5 (loop_fuel w) w = (w', Some e).
Proof.
  unfold loop_fuel. remember (List.length (stdin w)) as n eqn:Hn.
  revert w fuel Hn. induction n as [n IH] using lt_wf_ind. intros w fuel Hn Hf.
  destruct fuel as [|f]; [lia|].
  destruct (loop_body calc13 calc5 w) as [w1 [u|e]] eqn:E.
  - destruct (loop_body_progress w w1 u E) as [l Hl].
    assert (Hlen : (List.length (stdin w1) < n)%nat) by (rewrite Hn, Hl; simpl; lia).
    destruct (IH _ Hlen w1 f eq_refl ltac:(lia)) as (w' & e & H1 & H2).
    exists w', e. cbn [run_loop]. rewrite E. split; [exact H1|].
    replace n with (S (List.length (stdin w1))) by (rewrite Hn, Hl; reflexivity).
    exact H2.
  - exists w1, e. cbn [run_loop]. rewrite E. auto.
Qed.

Lemma loop_body_ok_line (l : string) (rest out : list string) :
  line_ok l ->
  loop_body calc13 calc5 (mk_world (l :: rest) out) = (mk_world rest (out ++ chunks_of_line l), Ok tt).
Proof.
  intros (Hq & [a Ha] & [b Hb]). rewrite loop_body_line. unfold chunks_of_line.
  destruct (String.eqb_spec l "q"); [contradiction|]. now rewrite Ha, Hb.
Qed.

(** Lines that both calculators answer are consumed one per iteration,
    each adding its four chunks to the output. *)
Lemma run_loop_ok_prefix (pre tail out : list string) (fuel : nat) :
  Forall line_ok pre -> (List.length pre <= fuel)%nat ->
  run_loop calc13 calc5 fuel (mk_world (pre ++ tail) out) =
  run_loop calc13 calc5 (fuel - List.length pre) (mk_world tail (out ++ flat_map chunks_of_line pre)).
Proof.
  intros Hok. revert fuel out. induction Hok as [|l pre Hl Hpre IH]; intros fuel out Hf.
  - simpl. now rewrite app_nil_r, Nat.sub_0_r.
  - destruct fuel as [|f]; [simpl in Hf; lia|].
    cbn [run_loop app]. rewrite loop_body_ok_line by assumption.
    rewrite IH by (simpl in Hf; lia). cbn [List.length flat_map Nat.sub].
    now rewrite app_assoc.
Qed.

Context `{!Calculator calc13} `{!Calculator calc5}.

(** Exit status 0, through [sys.exit()], exactly when a line ["q"]
    is reached after lines that both calculators answer; an input that
    runs out, or a calculator's exception, ends the loop with another
    exception. *)
Theorem run_loop_exits_cleanly_iff (w : world) :
  snd (run_loop calc13 calc5 (loop_fuel w) w) = Some SystemExit <->
  exists pre rest, stdin w = (pre ++ "q" :: rest)%list /\ Forall line_ok pre.
Proof.
  destruct w as [lines out]. unfold loop_fuel. cbn [stdin]. split.
  - revert out. induction lines as [|l ls IH]; intros out.
    + cbn [List.length run_loop]. rewrite loop_body_eof. discriminate.
    + cbn [List.length run_loop]. rewrite loop_body_line.
      destruct (String.eqb_spec l "q") as [->|Hq]; [intros _; exists [], ls; auto|].
      destruct (calc13 l) as [a|e] eqn:Ha;
        [|intros [= He]; subst e; exfalso; now apply (calc_no_exit (calc := calc13) l)].
      destruct (calc5 l) as [b|e] eqn:Hb;
        [|intros [= He]; subst e; exfalso; now apply (calc_no_exit (calc := calc5) l)].
      intros H. destruct (IH _ H) as (pre & rest & -> & Hpre).
      exists (l :: pre), rest. split; [reflexivity|].
      constructor; [|exact Hpre]. repeat split; eauto.
  - intros (pre & rest & -> & Hpre).
    rewrite length_app. cbn [List.length].
    rewrite run_loop_ok_prefix by (auto; lia).
    replace (S (List.length pre + S (List.length rest)) - List.length pre)
      with (S (S (List.length rest))) by lia.
    cbn [run_loop]. rewrite loop_body_line. reflexivity.
Qed.

End LoopTheorems.

(** ** The program

    The two wrappers meet the loop's interface. *)

#[export] Instance after13p_calculator : Calculator after13p_terse_wrapper.
Proof. intros l. apply terse_wrappers_no_exit. Qed.

#[export] Instance after5_calculator : Calculator after5_terse_wrapper.
Proof. intros l. apply terse_wrappers_no_exit. Qed.

Lemma calculator_preamble_run (lines : list string) :
  calculator_preamble (mk_world lines []) =
  (mk_world lines [TUI_ENTRY_TIPS_EN ++ newline; TUI_HOW_QUIT_EN ++ newline], Ok tt).
Proof. reflexivity. Qed.

(** C8. The process exits with status 0 exactly when the user types
    ["q"] after amounts that both calculators answer; it exits with status
    1 (an uncaught exception) when the input ends first or a calculator
    raises on an amount. *)
Theorem main_exit_status (lines : list string) :
  snd (main lines) = 0%Z <->
  exists pre rest, lines = (pre ++ "q" :: rest)%list /\
              Forall (line_ok after13p_terse_wrapper after5_terse_wrapper) pre.
Proof.
  unfold main. rewrite calculator_preamble_run. unfold calculator_loop.
  pose proof (run_loop_exits_cleanly_iff after13p_terse_wrapper after5_terse_wrapper
               (mk_world lines [TUI_ENTRY_TIPS_EN ++ newline; TUI_HOW_QUIT_EN ++ newline])) as H.
  cbn [stdin] in H. rewrite <- H.
  destruct (run_loop _ _ _ _) as [w' [[]|]]; cbn; split; congruence.
Qed.

(** C9. The whole output of a session that ends with ["q"]: the two
    preamble lines, then for each amount a blank line, the prompt and the
    two answers, then the blank line and the prompt of the iteration that
    reads ["q"]; the lines after ["q"] are never read, and the exit status
    is 0. *)
Theorem main_output (pre rest : list string) :
  Forall (line_ok after13p_terse_wrapper after5_terse_wrapper) pre ->
  main (pre ++ "q" :: rest)%list =
  (app (app [TUI_ENTRY_TIPS_EN ++ newline; TUI_HOW_QUIT_EN ++ newline]
             (flat_map (chunks_of_line after13p_terse_wrapper after5_terse_wrapper) pre))
       [newline; TUI_PROMPT_EN], 0%Z).
Proof.
  intros Hpre. unfold main. rewrite calculator_preamble_run. unfold calculator_loop, loop_fuel.
  cbn [stdin]. rewrite length_app. cbn [List.length].
  rewrite run_loop_ok_prefix by (auto; lia).
  replace (S (List.length pre + S (List.length rest)) - List.length pre)
    with (S (S (List.length rest))) by lia.
  cbn [run_loop]. rewrite loop_body_line. reflexivity.
Qed.

(** ** Witnesses *)

Lemma run_loop_terminates_witness :
  exists w' e, run_loop after13p_terse_wrapper after5_terse_wrapper 5 (mk_world ["1"; "2"] []) = (w', Some e) /\
          run_loop after13p_terse_wrapper after5_terse_wrapper 3 (mk_world ["1"; "2"] []) = (w', Some e).
Proof. apply (run_loop_terminates _ _ (mk_world ["1"; "2"] []) 5). unfold loop_fuel. cbn. lia. Defined.

Lemma main_output_witness :
  main ["29.99"; "q"; "ignored"] =
  ([TUI_ENTRY_TIPS_EN ++ newline; TUI_HOW_QUIT_EN ++ newline;
    newline; TUI_PROMPT_EN; "-13%     : 26.09" ++ newline; "-$5 ~$30 : 29.99" ++ newline;
    newline; TUI_PROMPT_EN], 0%Z).
Proof.
  pose proof (main_output ["29.99"] ["ignored"]) as H. cbn [app] in H. rewrite H.
  - vm_compute. reflexivity.
  - constructor; [|constructor]. split; [discriminate|]. split; eexists; vm_compute; reflexivity.
Defined.
