(* ===== verification/Session.v ===== *)
(** * A whole terminal session on amounts typed with two decimals

    The composition of the program's parts: [__main__] prints the
    preamble and runs [calculator_loop], which hands every line to the
    two terse wrappers of [after13p] and [after5].  For a session whose
    amounts are typed [d.dd] and which ends with ["q"], the output is
    the spec's answers for every amount, each behind its label, and the
    exit status is 0 ([main_on_cents_amounts]).  The loop is proved
    against an interface, [CentsCalculator]: what a calculator answers
    on an amount in cents ([run_loop_session] holds for any two
    instances).  The program's wrappers are instances: [after13p_cents]
    from [Discounts] (the 13% discount on amounts in cents) and
    [after5_cents] from [After5] (the $5-per-$30 discount through
    [FloatRound]). *)

From Stdlib Require Import ZArith List String Ascii Bool Lia.
From S2P Require Import Prelude PyText Money PyDecimal Binary64 Discounts After5 Cli.
Import ListNotations.
Local Open Scope Z_scope.
Local Open Scope string_scope.
Local Open Scope py_scope.

(** The text the user types for an amount of [A] cents. *)
Definition cents_input (A : Z) : string := string_of_list_ascii (currency_text false A).

(** ** What a calculator promises on an amount in cents

    A calculator [calc] with label [label] answers the amount of [A]
    cents (below [10^15]) with [label] followed by the currency text of
    [answer A] cents.  The spec's two calculators are instances with the
    labels of section 4.4 and the spec's formulas: [after13p_cents] and
    [after5_cents]. *)
Class CentsCalculator (calc : string -> result string) (label : string) (answer : Z -> Z) : Prop :=
  cents_answer : forall A, 0 <= A < 10 ^ 15 ->
    calc (cents_input A) = Ok (label ++ string_of_list_ascii (currency_text false (answer A))).

(** The lines the loop prints for an amount: a blank line, the prompt,
    and the two labelled answers (spec, section 6). *)
Definition session_lines (label13 label5 : string) (answer13 answer5 : Z -> Z) (A : Z) : list string :=
  [newline; TUI_PROMPT_EN;
   (label13 ++ string_of_list_ascii (currency_text false (answer13 A))) ++ newline;
   (label5 ++ string_of_list_ascii (currency_text false (answer5 A))) ++ newline].

Lemma cents_input_not_q (A : Z) : cents_input A <> "q".
Proof.
  unfold cents_input. intros H. apply (f_equal list_ascii_of_string) in H.
  rewrite list_ascii_of_string_of_list_ascii in H. cbn in H.
  apply (f_equal (@List.length ascii)) in H. unfold cents_text in H.
  rewrite length_app in H. cbn [List.length] in H. lia.
Qed.

(** ** The loop on any two calculators that keep the promise *)

Section Session.

Context (calc13 calc5 : string -> result string) (label13 label5 : string) (answer13 answer5 : Z -> Z).
Context `{!CentsCalculator calc13 label13 answer13} `{!CentsCalculator calc5 label5 answer5}.

(** Each amount is a line both calculators answer, and the loop prints
    for it its [session_lines]. *)
Lemma session_chunks (As : list Z) :
  Forall (fun A => 0 <= A < 10 ^ 15) As ->
  Forall (line_ok calc13 calc5) (map cents_input As) /\
  flat_map (chunks_of_line calc13 calc5) (map cents_input As) =
  flat_map (session_lines label13 label5 answer13 answer5) As.
Proof.
  induction 1 as [|A As HA _ [IHok IHeq]]; [split; [constructor | reflexivity]|].
  cbn [map flat_map]. split.
  - constructor; [|exact IHok]. split; [apply cents_input_not_q|].
    rewrite !cents_answer by exact HA. eauto.
  - rewrite IHeq. unfold chunks_of_line. rewrite !cents_answer by exact HA. reflexivity.
Qed.

(** The loop reads the amounts, answers each, and stops at ["q"]. *)
Lemma run_loop_session (As : list Z) (rest out : list string) :
  Forall (fun A => 0 <= A < 10 ^ 15) As ->
  run_loop calc13 calc5 (loop_fuel (mk_world (map cents_input As ++ "q" :: rest)%list out))
    (mk_world (map cents_input As ++ "q" :: rest)%list out) =
  (mk_world rest (app (app out (flat_map (session_lines label13 label5 answer13 answer5) As))
                      [newline; TUI_PROMPT_EN]), Some SystemExit).
Proof.
  intros HAs. destruct (session_chunks As HAs) as [Hok Heq]. unfold loop_fuel.
  cbn [stdin]. rewrite length_app. cbn [List.length].
  rewrite run_loop_ok_prefix, Heq by (auto; lia).
  replace (S (List.length (map cents_input As) + S (List.length rest)) - List.length (map cents_input As))%nat
    with (S (S (List.length rest))) by lia.
  cbn [run_loop]. rewrite loop_body_line. reflexivity.
Qed.

End Session.

(** ** The program's calculators keep the promise *)

#[export] Instance after13p_cents :
  CentsCalculator after13p_terse_wrapper "-13%     : " (fun A => round_half_away (87 * A) 100).
Proof.
  intros A HA. unfold after13p_terse_wrapper, after13p, cents_input.
  rewrite Decimal_currency_text, Decimal_rate by lia. cbn [bind].
  rewrite after13p_rest_cents by (try lia; assert (87 * 10 ^ 15 < 10 ^ 28) by reflexivity; lia).
  reflexivity.
Qed.

#[export] Instance after5_cents :
  CentsCalculator after5_terse_wrapper "-$5 ~$30 : " (fun A => spec_after5_cents A (-2)).
Proof.
  intros A HA. unfold after5_terse_wrapper, after5, cents_input.
  rewrite float_currency_text by lia. cbn [bind]. rewrite after5_rest_cents by exact HA. reflexivity.
Qed.

(** What the spec says the program prints for an amount of [A] cents:
    [round_half_away_from_zero(a * 0.87, 2)] and
    [round_half_away_from_zero(a - floor(a/30)*5, 2)], each behind the
    label of its wrapper (spec, sections 4.4 and 6). *)
Definition spec_session_lines (A : Z) : list string :=
  session_lines "-13%     : " "-$5 ~$30 : " (fun A => round_half_away (87 * A) 100)
    (fun A => spec_after5_cents A (-2)) A.

(** C1. End-to-end refinement of the spec's terminal interface: for a
    session that types amounts with two decimals (each below 10^13) and
    then ["q"], the program prints the two preamble lines, then for every
    amount a blank line, the prompt and the spec's two answers behind
    their labels, then the blank line and prompt of the iteration that
    reads ["q"]; the lines after ["q"] are never read, and the process
    exits with status 0. *)
Theorem main_on_cents_amounts (As : list Z) (rest : list string) :
  Forall (fun A => 0 <= A < 10 ^ 15) As ->
  main (map cents_input As ++ "q" :: rest)%list =
  (app (app [TUI_ENTRY_TIPS_EN ++ newline; TUI_HOW_QUIT_EN ++ newline] (flat_map spec_session_lines As))
       [newline; TUI_PROMPT_EN], 0%Z).
Proof.
  intros HAs. unfold main. rewrite calculator_preamble_run. unfold calculator_loop.
  rewrite (run_loop_session _ _ _ _ _ _ As rest _ HAs). reflexivity.
Qed.

Lemma main_on_cents_amounts_witness :
  main ["29.99"; "30.00"; "q"] =
  ([TUI_ENTRY_TIPS_EN ++ newline; TUI_HOW_QUIT_EN ++ newline;
    newline; TUI_PROMPT_EN; "-13%     : 26.09" ++ newline; "-$5 ~$30 : 29.99" ++ newline;
    newline; TUI_PROMPT_EN; "-13%     : 26.10" ++ newline; "-$5 ~$30 : 25.00" ++ newline;
    newline; TUI_PROMPT_EN], 0%Z).
Proof.
  pose proof (main_on_cents_amounts [2999; 3000] []) as H. cbn [map app] in H.
  change (cents_input 2999) with "29.99" in H. change (cents_input 3000) with "30.00" in H.
  rewrite H.
  - vm_compute. reflexivity.
  - repeat constructor; lia.
Defined.
