(* ===== verification/Tests.v ===== *)
(** * [src/test_hm_discounts.py]: the unit tests, run against the model

    Each [unittest] test method is a conjunction of its [assertEqual]
    calls; an exception inside a test (an [Err]) makes it fail like a
    wrong answer.  [test_suite_passes] runs the whole suite on the model:
    the model reproduces every expectation of the repository's tests. *)

From Stdlib Require Import ZArith List String Ascii Bool.
From S2P Require Import Prelude Discounts Cli.
Import ListNotations.
Local Open Scope string_scope.

Definition assertEqual (actual : result string) (expected : string) : bool :=
  match actual with Ok s => String.eqb s expected | Err _ => false end.

(** [TestAfter13P] (lines 6-75) *)

Definition test_after13p_correct : bool :=
  assertEqual (after13p "29.99") "26.09" &&
  assertEqual (after13p "89.99") "78.29" &&
  assertEqual (after13p "3.074712643678161") "2.68".

Definition test_after13p_terse_correct : bool :=
  assertEqual (after13p_terse_wrapper "2.99") "-13%     : 2.60" &&
  assertEqual (after13p_terse_wrapper "100") "-13%     : 87.00".

Definition test_after13p_zero : bool :=
  assertEqual (after13p "0") "0.00".

(** [TestAfter5] (lines 78-130) *)

Definition test_after5_terse_correct : bool :=
  assertEqual (after5_terse_wrapper "1") "-$5 ~$30 : 1.00" &&
  assertEqual (after5_terse_wrapper "29.99") "-$5 ~$30 : 29.99" &&
  assertEqual (after5_terse_wrapper "30") "-$5 ~$30 : 25.00" &&
  assertEqual (after5_terse_wrapper "59.99") "-$5 ~$30 : 54.99" &&
  assertEqual (after5_terse_wrapper "60") "-$5 ~$30 : 50.00" &&
  assertEqual (after5_terse_wrapper "89.99") "-$5 ~$30 : 79.99" &&
  assertEqual (after5_terse_wrapper "100") "-$5 ~$30 : 85.00" &&
  assertEqual (after5_terse_wrapper "119.99") "-$5 ~$30 : 104.99".

Definition test_after5_zero : bool :=
  assertEqual (after5 "0") "0.00".

(** [TestTUITexts] (lines 133-154) *)

Definition test_tui_entry_tips_en_correct : bool :=
  String.eqb TUI_ENTRY_TIPS_EN "Amounts are before tax.".

Definition test_tui_how_quit_en_correct : bool :=
  String.eqb TUI_HOW_QUIT_EN "Press q to quit.".

Definition test_tui_prompt_en_correct : bool :=
  String.eqb TUI_PROMPT_EN "Purchase amount: ".

Definition test_suite : list (string * bool) :=
  [("test_after13p_correct", test_after13p_correct);
   ("test_after13p_terse_correct", test_after13p_terse_correct);
   ("test_after13p_zero", test_after13p_zero);
   ("test_after5_terse_correct", test_after5_terse_correct);
   ("test_after5_zero", test_after5_zero);
   ("test_tui_entry_tips_en_correct", test_tui_entry_tips_en_correct);
   ("test_tui_how_quit_en_correct", test_tui_how_quit_en_correct);
   ("test_tui_prompt_en_correct", test_tui_prompt_en_correct)].

(** Every test method of the repository's suite passes on the model. *)
Theorem test_suite_passes : forallb snd test_suite = true.
Proof. vm_compute. reflexivity. Qed.
